(** * pyProperties: a shallow embedding of [src/pyProperties.py]

    The class [Properties] keeps the lines of a Java style properties file in
    two parallel Python lists, [_isComment] and [properties], and offers
    [fread], [fwrite], [get_all_properties], [get_property] and
    [set_property].  The embedding below follows the Python text statement by
    statement:

    - Python [str] is [string]; the file holds text that is already decoded
      (the characters the program tests, [#], [=] and the line feed, are
      ASCII, so their positions are those of the decoded text);
    - a Python [dict] is an insertion ordered association list with unique
      keys, from strings to strings: [popitem] takes the last pair,
      [list(d)[0]] the first key;
    - dictionaries are objects: the list [properties] holds references into
      a heap, [set_property] stores the caller's own dictionary, and
      [update] and [popitem] change the object every holder sees;
    - every method is a computation over the world (the one instance, the
      heap and the file system) that returns a value or raises; what was
      changed before an exception stays changed.

    After the definitions come the lemmas about them, and at the end one
    theorem for each claim C1 to C10 about the class. *)

From Stdlib Require Import ZArith Ascii String List Lia.
From stdpp Require Import base option list strings gmap.

Local Open Scope string_scope.
Local Open Scope Z_scope.

(** ** Python strings *)

Module PyStr.

Definition LF : ascii := "010"%char.
Definition CR : ascii := "013"%char.
Definition hash : ascii := "#"%char.
Definition equals : ascii := "="%char.

(** The text ["\n"]. *)
Definition nl : string := String LF "".

(** [s.find(c)] for a one character [c], counting from [i]. *)
Fixpoint find_from (c : ascii) (s : string) (i : Z) : Z :=
  match s with
  | EmptyString => -1
  | String a s' => if Ascii.eqb a c then i else find_from c s' (i + 1)
  end.

(** [s.find(c)]: the index of the first [c], or [-1]. *)
Definition find (c : ascii) (s : string) : Z := find_from c s 0.

(** [s.replace(c, new)] for a one character [c]: every occurrence. *)
Fixpoint replace (c : ascii) (new : string) (s : string) : string :=
  match s with
  | EmptyString => EmptyString
  | String a s' =>
      if Ascii.eqb a c then new +:+ replace c new s'
      else String a (replace c new s')
  end.

(** [s.split(c)] for a one character [c]: at every occurrence. *)
Fixpoint split (c : ascii) (s : string) : list string :=
  match s with
  | EmptyString => [EmptyString]
  | String a s' =>
      if Ascii.eqb a c then EmptyString :: split c s'
      else match split c s' with
           | [] => [String a EmptyString]
           | w :: ws => String a w :: ws
           end
  end.

(** What [open(.., 'r')] does to line ends before the program sees the
    text: ["\r\n"] and a lone ["\r"] both become ["\n"]. *)
Fixpoint universal_newlines (s : string) : string :=
  match s with
  | EmptyString => EmptyString
  | String a s' =>
      if Ascii.eqb a CR then
        String LF (match s' with
                   | String b s'' =>
                       if Ascii.eqb b LF then universal_newlines s''
                       else universal_newlines s'
                   | EmptyString => EmptyString
                   end)
      else String a (universal_newlines s')
  end.

(** [for line in pro_file]: the lines of the text, each with the line
    feed that ends it; the last one has none when the text does not end
    in a line feed. *)
Fixpoint lines (s : string) : list string :=
  match s with
  | EmptyString => []
  | String a s' =>
      if Ascii.eqb a LF then nl :: lines s'
      else match lines s' with
           | [] => [String a EmptyString]
           | l :: ls => String a l :: ls
           end
  end.

(** [''.join(buffer)], what [writelines] puts in the file. *)
Definition join (buffer : list string) : string :=
  fold_right String.append EmptyString buffer.

End PyStr.

(** ** Python dictionaries *)

Definition dict := list (string * string).

Module PyDict.

(** [list(d)], the keys in insertion order. *)
Definition keys (d : dict) : list string := map fst d.

(** [d[k]], [None] standing for the [KeyError]. *)
Fixpoint get (k : string) (d : dict) : option string :=
  match d with
  | [] => None
  | (k', v) :: d' => if String.eqb k k' then Some v else get k d'
  end.

(** [d[k] = v]: an existing key keeps its place, a new one goes last. *)
Fixpoint set (k v : string) (d : dict) : dict :=
  match d with
  | [] => [(k, v)]
  | (k', v') :: d' =>
      if String.eqb k k' then (k', v) :: d' else (k', v') :: set k v d'
  end.

(** [d.update(other)]: the pairs of [other], in its order. *)
Definition update (d other : dict) : dict :=
  fold_left (fun acc kv => set (fst kv) (snd kv) acc) other d.

(** [d.popitem()]: the pair inserted last and the dictionary without it;
    [None] stands for the [KeyError] on an empty dictionary. *)
Fixpoint popitem (d : dict) : option ((string * string) * dict) :=
  match d with
  | [] => None
  | [kv] => Some (kv, [])
  | kv :: d' =>
      match popitem d' with
      | Some (last, rest) => Some (last, kv :: rest)
      | None => None
      end
  end.

End PyDict.

(** ** The world: instance, heap, file system *)

(** A reference is the position of the object on the heap. *)
Abbreviation loc := nat (only parsing).

(** What the list [properties] holds ([list[str | dict]]) and what a caller
    can pass to [set_property]: a string, or a reference to a dictionary. *)
Inductive value :=
| Str (s : string)
| Dict (l : loc).

(** The attributes of an instance of [Properties]. *)
Record Properties := mkProperties {
  fileName : string;
  _isComment : list Z;
  properties : list value
}.

Record world := mkWorld {
  self : Properties;
  heap : list dict;
  fs : gmap string string
}.

(** The exceptions the methods can raise.  [NoSuchObject] is not a Python
    exception: it marks a reference to an object that is not on the heap,
    which no Python run can hold. *)
Inductive exn :=
| TypeError | IndexError | KeyError | AttributeError | ValueError
| FileNotFoundError | NoSuchObject.

Inductive outcome (A : Type) :=
| Ok (a : A)
| Raise (e : exn).
Arguments Ok {A} a.
Arguments Raise {A} e.

(** A method body: from a world to what it returns or raises, and the world
    it leaves. *)
Definition M (A : Type) : Type := world -> outcome A * world.

#[global] Instance M_ret : MRet M := fun A a w => (Ok a, w).

#[global] Instance M_bind : MBind M := fun A B k c w =>
  match c w with
  | (Ok a, w') => k a w'
  | (Raise e, w') => (Raise e, w')
  end.

Definition raise {A} (e : exn) : M A := fun w => (Raise e, w).

(** Reading and changing the world. *)
Definition get_self : M Properties := fun w => (Ok (self w), w).
Definition get_heap : M (list dict) := fun w => (Ok (heap w), w).

Definition set_isComment (c : list Z) : M unit := fun w =>
  (Ok (), mkWorld (mkProperties (fileName (self w)) c (properties (self w)))
                  (heap w) (fs w)).
Definition set_properties (p : list value) : M unit := fun w =>
  (Ok (), mkWorld (mkProperties (fileName (self w)) (_isComment (self w)) p)
                  (heap w) (fs w)).
Definition set_heap (h : list dict) : M unit := fun w =>
  (Ok (), mkWorld (self w) h (fs w)).

(** ** Python lists and objects *)

(** [len(l)]. *)
Definition len {A} (l : list A) : Z := Z.of_nat (length l).

(** [range(n)]. *)
Definition range (n : Z) : list Z := map Z.of_nat (seq 0 (Z.to_nat n)).

(** [l[i]]: a negative index counts from the end, and an index outside
    the list raises [IndexError]. *)
Definition list_getitem {A} (l : list A) (i : Z) : M A :=
  let j := if i <? 0 then i + len l else i in
  if j <? 0 then raise IndexError
  else match l !! Z.to_nat j with
       | Some x => mret x
       | None => raise IndexError
       end.

(** The dictionary a reference stands for. *)
Definition deref (l : loc) : M dict := fun w =>
  match heap w !! l with
  | Some d => (Ok d, w)
  | None => (Raise NoSuchObject, w)
  end.

(** Change the dictionary a reference stands for, in place. *)
Definition assign (l : loc) (d : dict) : M unit :=
  _ ← deref l; h ← get_heap; set_heap (<[l := d]> h).

(** A new dictionary object: [{}] or [{k: v}]. *)
Definition alloc (d : dict) : M loc :=
  h ← get_heap; set_heap (h ++ [d]);; mret (length h).

(** [self.properties.append(x)] and [self._isComment.append(c)]. *)
Definition properties_append (x : value) : M unit :=
  s ← get_self; set_properties (properties s ++ [x]).
Definition isComment_append (c : Z) : M unit :=
  s ← get_self; set_isComment (_isComment s ++ [c]).

(** [x.keys()]: a string has no such method. *)
Definition keys_of (x : value) : M (list string) :=
  match x with
  | Dict l => d ← deref l; mret (PyDict.keys d)
  | Str _ => raise AttributeError
  end.

(** [x[k]] for a string [k]: a string takes integer indices only. *)
Definition getitem_of (x : value) (k : string) : M string :=
  match x with
  | Dict l =>
      d ← deref l;
      match PyDict.get k d with
      | Some v => mret v
      | None => raise KeyError
      end
  | Str _ => raise TypeError
  end.

(** [x.update(arg)]: a string has no such method; a dictionary takes the
    pairs of another dictionary, and from a string (a sequence of one
    character strings, none of them a pair) nothing when it is empty and a
    [ValueError] otherwise. *)
Definition update_of (x arg : value) : M unit :=
  match x with
  | Dict l =>
      match arg with
      | Dict a => d ← deref l; o ← deref a; assign l (PyDict.update d o)
      | Str s => if String.eqb s "" then mret () else raise ValueError
      end
  | Str _ => raise AttributeError
  end.

(** [x.popitem()]. *)
Definition popitem_of (x : value) : M (string * string) :=
  match x with
  | Dict l =>
      d ← deref l;
      match PyDict.popitem d with
      | Some (kv, rest) => assign l rest;; mret kv
      | None => raise KeyError
      end
  | Str _ => raise AttributeError
  end.

(** ['# ' + x + '\n']: only a string can be added to a string. *)
Definition comment_line (x : value) : M string :=
  match x with
  | Str s => mret ("# " +:+ s +:+ PyStr.nl)
  | Dict _ => raise TypeError
  end.

(** A [for] loop without [break]. *)
Fixpoint for_each {A} (xs : list A) (body : A -> M unit) : M unit :=
  match xs with
  | [] => mret ()
  | x :: xs' => body x;; for_each xs' body
  end.

(** A [for] loop that builds up a local variable. *)
Fixpoint for_fold {A S} (xs : list A) (acc : S) (body : S -> A -> M S)
  : M S :=
  match xs with
  | [] => mret acc
  | x :: xs' => acc' ← body acc x; for_fold xs' acc' body
  end.

(** A [for] loop whose body can leave it, by [break] or [return]: the body
    answers [Some b] to leave with [b]; the loop answers [None] when it
    ran to its end, which is when a [for .. else] runs its [else]. *)
Fixpoint for_until {A B} (xs : list A) (body : A -> M (option B))
  : M (option B) :=
  match xs with
  | [] => mret None
  | x :: xs' =>
      r ← body x;
      match r with
      | Some b => mret (Some b)
      | None => for_until xs' body
      end
  end.

(** [open(file_name, 'r', encoding="utf-8")] and reading the whole text.
    The file system [fs] has, at a path, the text of a file that can be
    opened and whose bytes decode; a path where it has nothing names no
    file, as the empty path does.  A directory, a file that may not be read
    and a file whose bytes do not decode are not among its states: what is
    proved of [fread] is proved of files that have a text, and of paths
    without a file. *)
Definition open_read (file_name : string) : M string := fun w =>
  if String.eqb file_name "" then (Raise FileNotFoundError, w)
  else match fs w !! file_name with
       | Some text => (Ok (PyStr.universal_newlines text), w)
       | None => (Raise FileNotFoundError, w)
       end.

(** [open(file_name, 'w', encoding="utf-8")] and [writelines(buffer)]: the
    file is replaced by the lines, one after the other (on a system whose
    line end is the line feed, and where the file can be written).  A write
    that fails after the file was opened, and so emptied, is not among the
    steps: what is proved of [fwrite] once it opens the file is proved of a
    write that succeeds. *)
Definition open_write (file_name : string) (buffer : list string) : M unit :=
  fun w =>
    if String.eqb file_name "" then (Raise FileNotFoundError, w)
    else (Ok (), mkWorld (self w) (heap w)
                         (<[file_name := PyStr.join buffer]> (fs w))).

(** ** The class [Properties] *)

(** The body of the loop of [fread]: one line of the file. *)
Definition fread_line (line : string) : M unit :=
  if PyStr.find PyStr.hash line =? 0 then
    properties_append
      (Str (PyStr.replace PyStr.LF "" (PyStr.replace PyStr.hash "" line)));;
    isComment_append 1
  else if PyStr.find PyStr.equals line >? 0 then
    let config := PyStr.split PyStr.equals (PyStr.replace PyStr.LF "" line) in
    k ← list_getitem config 0;
    v ← list_getitem config 1;
    l ← alloc [(k, v)];
    properties_append (Dict l);;
    isComment_append 0
  else
    mret ().

(** [fread(self, file_name='')]. *)
Definition fread (file_name : string) : M (list value) :=
  s ← get_self;
  let file_name := if String.eqb file_name "" then fileName s else file_name in
  text ← open_read file_name;
  for_each (PyStr.lines text) fread_line;;
  s ← get_self;
  mret (properties s).

(** [__init__(self, file_name)]. *)
Definition __init__ (file_name : string) : M unit :=
  (fun w => (Ok (), mkWorld (mkProperties file_name [] []) (heap w) (fs w)));;
  fread "";;
  mret ().

(** The body of the loop of [fwrite]: one entry, added to [buffer]. *)
Definition fwrite_entry (buffer : list string) (data_num : Z)
  : M (list string) :=
  s ← get_self;
  c ← list_getitem (_isComment s) data_num;
  if negb (c =? 0) then
    x ← list_getitem (properties s) data_num;
    line ← comment_line x;
    mret (buffer ++ [line])%list
  else
    x ← list_getitem (properties s) data_num;
    kv ← popitem_of x;
    mret (buffer ++ [fst kv +:+ "=" +:+ snd kv +:+ PyStr.nl])%list.

(** [fwrite(self)].  The value of [buffer[-1].rstrip()] is dropped, but
    [buffer[-1]] is evaluated. *)
Definition fwrite : M unit :=
  s ← get_self;
  buffer ← for_fold (range (len (properties s))) [] fwrite_entry;
  _ ← list_getitem buffer (-1);
  s ← get_self;
  open_write (fileName s) buffer.

(** The body of the loop of [get_all_properties], for the dictionary
    [all_properties]. *)
Definition get_all_properties_entry (all_properties : loc) (data_num : Z)
  : M unit :=
  s ← get_self;
  c ← list_getitem (_isComment s) data_num;
  if c =? 0 then
    x ← list_getitem (properties s) data_num;
    update_of (Dict all_properties) x
  else mret ().

(** [get_all_properties(self)]; [all_properties] is a new dictionary. *)
Definition get_all_properties : M value :=
  all_properties ← alloc [];
  s ← get_self;
  for_each (range (len (properties s)))
           (get_all_properties_entry all_properties);;
  mret (Dict all_properties).

(** The body of the loop of [get_property]: [Some v] is [return v]. *)
Definition get_property_entry (arg : string) (data_num : Z)
  : M (option string) :=
  s ← get_self;
  c ← list_getitem (_isComment s) data_num;
  if c =? 0 then
    x ← list_getitem (properties s) data_num;
    ks ← keys_of x;
    if bool_decide (arg ∈ ks) then
      x ← list_getitem (properties s) data_num;
      v ← getitem_of x arg;
      mret (Some v)
    else mret None
  else mret None.

(** [get_property(self, arg)]. *)
Definition get_property (arg : string) : M string :=
  s ← get_self;
  r ← for_until (range (len (properties s))) (get_property_entry arg);
  match r with
  | Some v => mret v
  | None => raise IndexError
  end.

(** The body of the inner loop of [set_property], for the dictionary
    [arg]: [Some ()] is [break]. *)
Definition set_property_entry (arg : loc) (data_num : Z) : M (option unit) :=
  s ← get_self;
  c ← list_getitem (_isComment s) data_num;
  if c =? 0 then
    a ← deref arg;
    k ← list_getitem (PyDict.keys a) 0;
    x ← list_getitem (properties s) data_num;
    ks ← keys_of x;
    if bool_decide (k ∈ ks) then
      x ← list_getitem (properties s) data_num;
      update_of x (Dict arg);;
      mret (Some ())
    else mret None
  else mret None.

(** The body of the outer loop of [set_property]: one argument. *)
Definition set_property_arg (arg : value) : M unit :=
  match arg with
  | Str _ => raise TypeError
  | Dict a =>
      s ← get_self;
      r ← for_until (range (len (properties s))) (set_property_entry a);
      match r with
      | Some _ => mret ()
      | None => properties_append arg;; isComment_append 0
      end
  end.

(** [set_property(self, *kv)]. *)
Definition set_property (kv : list value) : M Z :=
  for_each kv set_property_arg;;
  mret (len kv).

(** ** Running the methods on concrete files *)

Definition empty_world (files : gmap string string) : world :=
  mkWorld (mkProperties "" [] []) [] files.

(** The world left by a computation, and what it returned or raised. *)
Definition exec {A} (c : M A) (w : world) : world := snd (c w).
Definition eval {A} (c : M A) (w : world) : outcome A := fst (c w).

(** The entries of the instance as the specification draws them: a comment
    text, or the pairs of a dictionary. *)
Inductive entry :=
| Comment (text : string)
| KeyValue (d : dict).

Definition entry_of (h : list dict) (x : value) : option entry :=
  match x with
  | Str s => Some (Comment s)
  | Dict l => KeyValue <$> h !! l
  end.

Definition entries (w : world) : list (option entry) :=
  map (entry_of (heap w)) (properties (self w)).

(** ** Well-formed instances *)

Definition is_Str (x : value) : Prop := match x with Str _ => True | Dict _ => False end.
Definition is_Dict (x : value) : Prop := match x with Dict _ => True | Str _ => False end.

#[global] Instance is_Str_dec x : Decision (is_Str x).
Proof. destruct x; simpl; apply _. Defined.
#[global] Instance is_Dict_dec x : Decision (is_Dict x).
Proof. destruct x; simpl; apply _. Defined.

(** The flag that goes with an element of [properties]. *)
Definition flag_of (x : value) : Z :=
  match x with Str _ => 1 | Dict _ => 0 end.

(** The drawing in the docstring of [__init__]: the two lists run in
    parallel, with [1] over a comment and [0] over a dictionary. *)
Definition invariant (s : Properties) : Prop :=
  length (_isComment s) = length (properties s) /\
  forall (i : nat) (c : Z) (x : value),
    _isComment s !! i = Some c -> properties s !! i = Some x ->
    (c = 1 <-> is_Str x) /\ (c = 0 <-> is_Dict x).

(** The same, as an equation between lists. *)
Definition parallel (s : Properties) : Prop :=
  _isComment s = map flag_of (properties s).

(** A reference is valid when the heap has the object. *)
Definition valid_ref (h : list dict) (x : value) : Prop :=
  match x with Dict l => (l < length h)%nat | Str _ => True end.

#[global] Instance valid_ref_dec h x : Decision (valid_ref h x).
Proof. destruct x; simpl; apply _. Defined.

(** A well-formed world: parallel lists, and no dangling reference. *)
Definition wf (w : world) : Prop :=
  parallel (self w) /\ Forall (valid_ref (heap w)) (properties (self w)).

#[global] Instance wf_dec w : Decision (wf w).
Proof. unfold wf, parallel. apply _. Defined.

(** The entry at position [j] is a dictionary that has the key [k]. *)
Definition holds_key (w : world) (k : string) (j : nat) : Prop :=
  match properties (self w) !! j with
  | Some (Dict l) =>
      match heap w !! l with
      | Some d => k ∈ PyDict.keys d
      | None => False
      end
  | _ => False
  end.

#[global] Instance holds_key_dec w k j : Decision (holds_key w k j).
Proof.
  unfold holds_key.
  destruct (properties (self w) !! j) as [[|l]|]; try apply _.
  destruct (heap w !! l); apply _.
Defined.

(** Position [i] is the first whose entry has the key [k]. *)
Definition first_holder (w : world) (k : string) (i : nat) : Prop :=
  holds_key w k i /\ Forall (fun j => ~ holds_key w k j) (seq 0 i).

(** Position [i] is the last whose entry has the key [k]. *)
Definition last_holder (w : world) (k : string) (i : nat) : Prop :=
  holds_key w k i /\
  Forall (fun j => ~ holds_key w k j)
         (seq (S i) (length (properties (self w)) - S i)).

(** No entry has the key [k]. *)
Definition no_holder (w : world) (k : string) : Prop :=
  Forall (fun j => ~ holds_key w k j) (seq 0 (length (properties (self w)))).

(** The positions of the entries that have the key [k]. *)
Definition holders (w : world) (k : string) : list nat :=
  filter (holds_key w k) (seq 0 (length (properties (self w)))).

(** The dictionaries of the entries, in order, comments left out. *)
Definition dicts_of (h : list dict) (ps : list value) : list dict :=
  omap (fun x => match x with Dict l => h !! l | Str _ => None end) ps.

Definition kv_dicts (w : world) : list dict :=
  dicts_of (heap w) (properties (self w)).

(** ** The calls a program can make, and the worlds it can reach *)

Inductive call :=
| CallFread (file_name : string)
| CallFwrite
| CallGetAll
| CallGet (arg : string)
| CallSet (kv : list value).

Definition run_call (c : call) (w : world) : world :=
  match c with
  | CallFread file_name => exec (fread file_name) w
  | CallFwrite => exec fwrite w
  | CallGetAll => exec get_all_properties w
  | CallGet arg => exec (get_property arg) w
  | CallSet kv => exec (set_property kv) w
  end.

(** The arguments of a call are objects the caller has. *)
Definition call_ok (c : call) (w : world) : Prop :=
  match c with
  | CallSet kv => Forall (valid_ref (heap w)) kv
  | _ => True
  end.

(** A world is reachable when it is left by the constructor (whether it
    returned or raised), by a method call on a reachable world, or by the
    program around the instance, which can create and change dictionaries
    and files but cannot make an object disappear. *)
Inductive reachable : world -> Prop :=
| reach_init file_name w0 :
    reachable (exec (__init__ file_name) w0)
| reach_call c w :
    reachable w -> call_ok c w -> reachable (run_call c w)
| reach_env w h files :
    reachable w -> (length (heap w) <= length h)%nat ->
    reachable (mkWorld (self w) h files).

(** A Python dictionary has each key once. *)
Definition unique_keys (d : dict) : Prop := NoDup (PyDict.keys d).

(** The two kinds of argument: a dictionary with at least one key, and a
    dictionary with exactly one. *)
Definition nonempty (d : dict) : Prop := d <> [].
Definition single_key (d : dict) : Prop := exists k v, d = [(k, v)].

#[global] Instance nonempty_dec d : Decision (nonempty d).
Proof. unfold nonempty. apply _. Defined.

#[global] Instance single_key_dec d : Decision (single_key d).
Proof.
  refine (match d with
          | [(k, v)] => left _
          | _ => right _
          end); unfold single_key; first [ by eauto | by intros (? & ? & ?) ].
Defined.

(** An argument of [set_property] that, if it is a dictionary, is on the
    heap and of the kind [Q]. *)
Definition arg_ok (Q : dict -> Prop) (h : list dict) (x : value) : Prop :=
  match x with
  | Dict a => match h !! a with Some d => Q d | None => False end
  | Str _ => True
  end.

#[global] Instance arg_ok_dec (Q : dict -> Prop) `{!forall d, Decision (Q d)} h x :
  Decision (arg_ok Q h x).
Proof.
  destruct x as [s|a]; simpl; [apply _|]. destruct (h !! a); apply _.
Defined.

(** ** What a computation leaves alone *)

(** A computation respects a relation when every run relates the world
    before to the world after, whether it returns or raises. *)
Definition respects (R : world -> world -> Prop) {A} (c : M A) : Prop :=
  forall w, R w (exec c w).

(** The instance is left as it is, and no object disappears. *)
Definition quiet (w w' : world) : Prop :=
  self w' = self w /\ (length (heap w) <= length (heap w'))%nat.

(** The two lists stay parallel, no object disappears, and the references
    stay valid as long as those in [extra], which the caller hands over,
    are. *)
Definition keeps_wf (extra : list value) (w w' : world) : Prop :=
  (parallel (self w) -> parallel (self w')) /\
  (Forall (valid_ref (heap w)) extra ->
   Forall (valid_ref (heap w)) (properties (self w)) ->
   Forall (valid_ref (heap w')) (properties (self w'))) /\
  (length (heap w) <= length (heap w'))%nat.

(** The dictionaries on the heap keep each key once. *)
Definition keeps_unique (w w' : world) : Prop :=
  Forall unique_keys (heap w) -> Forall unique_keys (heap w').

(** ** Words to state facts about lines *)

(** [c in s]. *)
Fixpoint occurs (c : ascii) (s : string) : bool :=
  match s with
  | EmptyString => false
  | String a s' => if Ascii.eqb a c then true else occurs c s'
  end.

(** The text of [s] before its first [c], all of [s] when it has none. *)
Fixpoint before (c : ascii) (s : string) : string :=
  match s with
  | EmptyString => EmptyString
  | String a s' => if Ascii.eqb a c then EmptyString else String a (before c s')
  end.

(** The world after the entry [x] and its flag [c] went to the end of the
    two lists. *)
Definition stored (c : Z) (x : value) (w : world) : world :=
  mkWorld (mkProperties (fileName (self w))
                        (_isComment (self w) ++ [c])
                        (properties (self w) ++ [x]))
          (heap w) (fs w).

(** ** A file to run the methods on *)

Definition sample_text : string :=
  "# hello" +:+ PyStr.nl +:+ "foo=bar" +:+ PyStr.nl.

Definition sample_files : gmap string string :=
  {["app.properties" := sample_text]}.

(** The instance made by [Properties("app.properties")]. *)
Definition loaded : world :=
  exec (__init__ "app.properties") (empty_world sample_files).

(** The same, when the caller also holds the dictionaries [ds]. *)
Definition loaded_with (ds : list dict) : world :=
  mkWorld (self loaded) (heap loaded ++ ds) (fs loaded).

(** The file [f] with the text [text], and nothing else. *)
Definition one_file (f text : string) : world :=
  empty_world {[f := text]}.

(** Two entries with the same key, as a file with the lines [a=1] and
    [a=2] gives them. *)
Definition twice : world :=
  exec (__init__ "twice.properties")
       (one_file "twice.properties" ("a=1" +:+ PyStr.nl +:+ "a=2" +:+ PyStr.nl)).

(** ** Words for the further properties *)

(** The files stay as they are. *)
Definition same_fs (w w' : world) : Prop := fs w' = fs w.

(** The instance and the files stay as they are. *)
Definition calm (w w' : world) : Prop := self w' = self w /\ fs w' = fs w.

(** The instance stays as it is, and so does every file but its own. *)
Definition own_file (w w' : world) : Prop :=
  self w' = self w /\
  forall g, g <> fileName (self w) -> fs w' !! g = fs w !! g.

(** What [fread] makes of one line: a comment, a pair, or nothing. *)
Inductive reading :=
| AsComment (text : string)
| AsPair (k v : string)
| Dropped.

(** The world after [fread] made [r] of a line: the comment, or a new
    dictionary with the pair, at the end of the lists. *)
Definition put (r : reading) (w : world) : world :=
  match r with
  | AsComment text => stored 1 (Str text) w
  | AsPair k v =>
      stored 0 (Dict (length (heap w)))
             (mkWorld (self w) (heap w ++ [[(k, v)]]) (fs w))
  | Dropped => w
  end.

(** The entry a reading is seen as. *)
Definition shown (r : reading) : list (option entry) :=
  match r with
  | AsComment text => [Some (Comment text)]
  | AsPair k v => [Some (KeyValue [(k, v)])]
  | Dropped => []
  end.

(** The entries of an instance that has read the text [text] and nothing
    else. *)
Definition read_text (text : string) : list (option entry) :=
  entries (exec (for_each (PyStr.lines text) fread_line) (empty_world ∅)).

(** The path [fread] opens: its argument, or the path of the instance when
    the argument is empty. *)
Definition path_of (file_name : string) (w : world) : string :=
  if String.eqb file_name "" then fileName (self w) else file_name.

(** A line that is empty, starts with [=], or has no [=] and does not start
    with [#]. *)
Definition no_entry_line (line : string) : bool :=
  match line with
  | EmptyString => true
  | String a rest =>
      negb (Ascii.eqb a PyStr.hash) &&
      (Ascii.eqb a PyStr.equals || negb (occurs PyStr.equals rest))
  end.

(** Lines 85 to 95 of [fwrite]: the lines are made and [buffer[-1]] is
    evaluated; the file is not opened yet. *)
Definition fwrite_buffer : M (list string) :=
  s ← get_self;
  buffer ← for_fold (range (len (properties s))) [] fwrite_entry;
  _ ← list_getitem buffer (-1);
  mret buffer.

(** The references of the dictionary entries, in order. *)
Definition refs_of (ps : list value) : list nat :=
  omap (fun x => match x with Dict l => Some l | Str _ => None end) ps.

(** The line [fwrite] makes of the pair [popitem] gives. *)
Definition pair_line (kv : string * string) : string :=
  fst kv +:+ "=" +:+ snd kv +:+ PyStr.nl.

(** The line [fwrite] makes of an entry: of a comment, and of the last
    pair of a dictionary. *)
Definition entry_line (e : option entry) : string :=
  match e with
  | Some (Comment text) => "# " +:+ text +:+ PyStr.nl
  | Some (KeyValue d) =>
      match PyDict.popitem d with
      | Some (kv, _) => pair_line kv
      | None => ""
      end
  | None => ""
  end.

(** The heap after [popitem] on the dictionary of each entry in turn. *)
Definition popped (h : list dict) (ps : list value) : list dict :=
  fold_left
    (fun h x =>
       match x with
       | Dict l =>
           match h !! l with
           | Some d =>
               match PyDict.popitem d with
               | Some (_, rest) => <[l := rest]> h
               | None => h
               end
           | None => h
           end
       | Str _ => h
       end) ps h.

(** An instance that [fwrite] can write: bound to a path, with at least
    one entry, and with the dictionaries of its entries different objects,
    none of them empty. *)
Definition savable (w : world) : Prop :=
  wf w /\ fileName (self w) <> "" /\ properties (self w) <> [] /\
  NoDup (refs_of (properties (self w))) /\
  Forall (fun l => exists d, heap w !! l = Some d /\ d <> [])
         (refs_of (properties (self w))).

(** A line of a file, without the line feed that ends it: [#text], a key
    that starts with the character [a] before [=value], or any other
    text. *)
Inductive file_line :=
| CommentLine (text : string)
| PairLine (a : ascii) (key value : string)
| OtherLine (text : string).

(** A text without line ends. *)
Definition plain (s : string) : bool :=
  negb (occurs PyStr.LF s) && negb (occurs PyStr.CR s).

(** The lines the round trip is about: no line end inside a line, a key
    that does not start with [#], one [=] in a pair line, and as other
    lines those that [fread] drops. *)
Definition line_ok (l : file_line) : bool :=
  match l with
  | CommentLine text => plain text
  | PairLine a key value =>
      negb (Ascii.eqb a PyStr.hash) &&
      negb (occurs PyStr.equals (String a key)) &&
      plain (String a key) && plain value &&
      negb (occurs PyStr.equals value)
  | OtherLine text => plain text && no_entry_line text
  end.

Definition line_text (l : file_line) : string :=
  match l with
  | CommentLine text => String PyStr.hash text
  | PairLine a key value => String a key +:+ String PyStr.equals value
  | OtherLine text => text
  end.

(** The text of a file with these lines, each ended by a line feed. *)
Definition text_of (ls : list file_line) : string :=
  PyStr.join (map (fun l => line_text l +:+ PyStr.nl) ls).

(** How [fread] reads the line. *)
Definition line_reading (l : file_line) : reading :=
  match l with
  | CommentLine text => AsComment (PyStr.replace PyStr.hash "" text)
  | PairLine a key value => AsPair (String a key) value
  | OtherLine _ => Dropped
  end.

(** What [fwrite] writes for the line after [fread] has read it. *)
Definition saved_line (l : file_line) : string :=
  match l with
  | CommentLine text => "# " +:+ PyStr.replace PyStr.hash "" text +:+ PyStr.nl
  | PairLine a key value => line_text l +:+ PyStr.nl
  | OtherLine _ => ""
  end.

Definition is_PairLine (l : file_line) : Prop :=
  match l with PairLine _ _ _ => True | _ => False end.

(** Nothing has changed. *)
Definition untouched (w w' : world) : Prop := w' = w.

(** The instance keeps its file name, and its two lists keep what they
    had, in place: they only grow at the end. *)
Definition extends (w w' : world) : Prop :=
  fileName (self w') = fileName (self w) /\
  properties (self w) `prefix_of` properties (self w') /\
  _isComment (self w) `prefix_of` _isComment (self w').

(** ** Running computations *)

Lemma run_bind {A B} (c : M A) (k : A -> M B) w :
  (c ≫= k) w =
  match c w with
  | (Ok a, w') => k a w'
  | (Raise e, w') => (Raise e, w')
  end.
Proof. reflexivity. Qed.

Lemma run_bind_ok {A B} (c : M A) (k : A -> M B) w a w' :
  c w = (Ok a, w') -> (c ≫= k) w = k a w'.
Proof. intros H. rewrite run_bind, H. reflexivity. Qed.

Lemma run_bind_raise {A B} (c : M A) (k : A -> M B) w e w' :
  c w = (Raise e, w') -> (c ≫= k) w = (Raise e, w').
Proof. intros H. rewrite run_bind, H. reflexivity. Qed.

Lemma exec_bind {A B} (c : M A) (k : A -> M B) w :
  exec (c ≫= k) w =
  match eval c w with
  | Ok a => exec (k a) (exec c w)
  | Raise _ => exec c w
  end.
Proof.
  unfold exec, eval. rewrite run_bind. destruct (c w) as [[a|e] w']; reflexivity.
Qed.

(** *** Frame rules

    A relation between the world before and the world after that holds
    across no step at all and across two steps in a row holds across any
    computation built from steps that respect it. *)

Section Frame.

Variable R : world -> world -> Prop.
Hypothesis R_refl : forall w, R w w.
Hypothesis R_trans : forall w1 w2 w3, R w1 w2 -> R w2 w3 -> R w1 w3.

Lemma respects_ret {A} (a : A) : respects R (mret a).
Proof. intros w. apply R_refl. Qed.

Lemma respects_raise {A} e : respects R (@raise A e).
Proof. intros w. apply R_refl. Qed.

Lemma respects_bind {A B} (c : M A) (k : A -> M B) :
  respects R c -> (forall a, respects R (k a)) -> respects R (c ≫= k).
Proof.
  intros Hc Hk w. rewrite exec_bind.
  destruct (eval c w); [eapply R_trans; [apply Hc | apply Hk] | apply Hc].
Qed.

Lemma respects_for_each {A} (xs : list A) body :
  (forall x, respects R (body x)) -> respects R (for_each xs body).
Proof.
  intros Hb. induction xs as [|x xs IH]; simpl.
  - apply respects_ret.
  - apply respects_bind; auto.
Qed.

Lemma respects_for_fold {A S} (xs : list A) (acc : S) body :
  (forall a x, respects R (body a x)) -> respects R (for_fold xs acc body).
Proof.
  intros Hb. revert acc. induction xs as [|x xs IH]; intros acc; simpl.
  - apply respects_ret.
  - apply respects_bind; auto.
Qed.

Lemma respects_for_until {A B} (xs : list A) (body : A -> M (option B)) :
  (forall x, respects R (body x)) -> respects R (for_until xs body).
Proof.
  intros Hb. induction xs as [|x xs IH]; simpl.
  - apply respects_ret.
  - apply respects_bind; auto. intros [b|]; [apply respects_ret | apply IH].
Qed.

End Frame.

Lemma quiet_refl w : quiet w w.
Proof. split; [reflexivity | lia]. Qed.

Lemma quiet_trans w1 w2 w3 : quiet w1 w2 -> quiet w2 w3 -> quiet w1 w3.
Proof. intros [H1 L1] [H2 L2]. split; [congruence | lia]. Qed.

Lemma valid_ref_mono h h' x :
  (length h <= length h')%nat -> valid_ref h x -> valid_ref h' x.
Proof. destruct x; simpl; auto. lia. Qed.

Lemma valid_refs_mono h h' xs :
  (length h <= length h')%nat ->
  Forall (valid_ref h) xs -> Forall (valid_ref h') xs.
Proof.
  intros Hl H. eapply Forall_impl; [exact H|]. intros x. apply valid_ref_mono, Hl.
Qed.

Lemma keeps_wf_refl extra w : keeps_wf extra w w.
Proof. repeat split; auto. Qed.

Lemma keeps_wf_trans extra w1 w2 w3 :
  keeps_wf extra w1 w2 -> keeps_wf extra w2 w3 -> keeps_wf extra w1 w3.
Proof.
  intros (P1 & V1 & L1) (P2 & V2 & L2). repeat split; auto; [|lia].
  intros He Hv. apply V2; [eapply valid_refs_mono; eauto | auto].
Qed.

Lemma quiet_keeps_wf extra w w' : quiet w w' -> keeps_wf extra w w'.
Proof.
  intros [Hs Hl]. repeat split; rewrite ?Hs; auto.
  intros _. apply valid_refs_mono, Hl.
Qed.

Lemma respects_quiet_keeps_wf {A} extra (c : M A) :
  respects quiet c -> respects (keeps_wf extra) c.
Proof. intros H w. apply quiet_keeps_wf, H. Qed.

Lemma keeps_unique_refl w : keeps_unique w w.
Proof. intros H. exact H. Qed.

Lemma keeps_unique_trans w1 w2 w3 :
  keeps_unique w1 w2 -> keeps_unique w2 w3 -> keeps_unique w1 w3.
Proof. intros H1 H2 H. apply H2, H1, H. Qed.

Create HintDb frame.

Ltac frame_side :=
  first [ exact quiet_refl | exact quiet_trans
        | apply keeps_wf_refl | apply keeps_wf_trans
        | exact keeps_unique_refl | exact keeps_unique_trans ].

Ltac frame_step :=
  first [ frame_side
        | solve [auto with frame]
        | match goal with |- forall _, _ => intro end
        | apply respects_bind
        | apply respects_ret
        | apply respects_raise
        | apply respects_for_each
        | apply respects_for_until
        | apply respects_for_fold
        | match goal with |- respects _ (if ?b then _ else _) => destruct b end
        | match goal with |- respects _ (match ?x with _ => _ end) => destruct x end ].

(** *** The steps that leave the instance alone *)

Lemma quiet_get_self : respects quiet get_self.
Proof. intros w. apply quiet_refl. Qed.

Lemma quiet_get_heap : respects quiet get_heap.
Proof. intros w. apply quiet_refl. Qed.

Lemma quiet_list_getitem {A} (l : list A) i : respects quiet (list_getitem l i).
Proof.
  intros w. unfold list_getitem, exec.
  destruct (_ <? 0); [apply quiet_refl|].
  destruct (l !! _); apply quiet_refl.
Qed.

Lemma quiet_deref l : respects quiet (deref l).
Proof. intros w. unfold deref, exec. destruct (heap w !! l); apply quiet_refl. Qed.

Lemma quiet_assign l d : respects quiet (assign l d).
Proof.
  intros w. unfold assign, exec. rewrite run_bind. unfold deref.
  destruct (heap w !! l); [|apply quiet_refl].
  split; simpl; [reflexivity | rewrite length_insert; lia].
Qed.

Lemma quiet_alloc d : respects quiet (alloc d).
Proof. intros w. split; simpl; [reflexivity | rewrite length_app; lia]. Qed.

Lemma quiet_open_read f : respects quiet (open_read f).
Proof.
  intros w. unfold open_read, exec.
  destruct (String.eqb f ""), (fs w !! f); apply quiet_refl.
Qed.

Lemma quiet_open_write f b : respects quiet (open_write f b).
Proof.
  intros w. unfold open_write, exec.
  destruct (String.eqb f ""); split; simpl; auto.
Qed.

#[local] Hint Resolve quiet_get_self quiet_get_heap quiet_list_getitem quiet_deref
  quiet_assign quiet_alloc quiet_open_read quiet_open_write : frame.

Lemma quiet_keys_of x : respects quiet (keys_of x).
Proof. unfold keys_of. repeat frame_step. Qed.

Lemma quiet_getitem_of x k : respects quiet (getitem_of x k).
Proof. unfold getitem_of. repeat frame_step. Qed.

Lemma quiet_update_of x arg : respects quiet (update_of x arg).
Proof. unfold update_of. repeat frame_step. Qed.

Lemma quiet_popitem_of x : respects quiet (popitem_of x).
Proof. unfold popitem_of. repeat frame_step. Qed.

Lemma quiet_comment_line x : respects quiet (comment_line x).
Proof. unfold comment_line. repeat frame_step. Qed.

#[local] Hint Resolve quiet_keys_of quiet_getitem_of quiet_update_of
  quiet_popitem_of quiet_comment_line : frame.

(** [fwrite], [get_all_properties] and [get_property] never touch the two
    lists of the instance. *)
Lemma quiet_fwrite : respects quiet fwrite.
Proof. unfold fwrite, fwrite_entry. repeat frame_step. Qed.

Lemma quiet_get_all_properties : respects quiet get_all_properties.
Proof. unfold get_all_properties, get_all_properties_entry. repeat frame_step. Qed.

Lemma quiet_get_property arg : respects quiet (get_property arg).
Proof. unfold get_property, get_property_entry. repeat frame_step. Qed.

Lemma quiet_set_property_entry a i : respects quiet (set_property_entry a i).
Proof. unfold set_property_entry. repeat frame_step. Qed.

#[local] Hint Resolve quiet_fwrite quiet_get_all_properties quiet_get_property
  quiet_set_property_entry : frame.

(** *** The steps that append to the two lists *)

Lemma keeps_wf_append_Str extra s :
  respects (keeps_wf extra) (properties_append (Str s);; isComment_append 1).
Proof.
  intros w. unfold keeps_wf, parallel. simpl. split; [|split; [|lia]].
  - intros ->. rewrite map_app. reflexivity.
  - intros _ H. apply Forall_app. split; [exact H | repeat constructor].
Qed.

Lemma keeps_wf_append_new extra d :
  respects (keeps_wf extra)
    (l ← alloc d; properties_append (Dict l);; isComment_append 0).
Proof.
  intros w. unfold keeps_wf, parallel. simpl. split; [|split].
  - intros ->. rewrite map_app. reflexivity.
  - intros _ H. apply Forall_app. split.
    + eapply valid_refs_mono; [|exact H]. rewrite length_app. lia.
    + repeat constructor. simpl. rewrite length_app. simpl. lia.
  - rewrite length_app. lia.
Qed.

Lemma keeps_wf_append_arg extra a :
  Dict a ∈ extra ->
  respects (keeps_wf extra) (properties_append (Dict a);; isComment_append 0).
Proof.
  intros Ha w. unfold keeps_wf, parallel. simpl. split; [|split; [|lia]].
  - intros ->. rewrite map_app. reflexivity.
  - intros He H. apply Forall_app. split; [exact H|].
    repeat constructor. rewrite Forall_forall in He. apply (He _ Ha).
Qed.

#[local] Hint Resolve respects_quiet_keeps_wf keeps_wf_append_Str
  keeps_wf_append_new keeps_wf_append_arg : frame.

Lemma keeps_wf_fread_line extra line : respects (keeps_wf extra) (fread_line line).
Proof. unfold fread_line. repeat frame_step. Qed.

#[local] Hint Resolve keeps_wf_fread_line : frame.

Lemma keeps_wf_fread extra file_name : respects (keeps_wf extra) (fread file_name).
Proof. unfold fread. repeat frame_step. Qed.

Lemma keeps_wf_set_property_arg extra arg :
  arg ∈ extra -> respects (keeps_wf extra) (set_property_arg arg).
Proof. intros Ha. unfold set_property_arg. repeat frame_step. Qed.

Lemma keeps_wf_set_property kv : respects (keeps_wf kv) (set_property kv).
Proof.
  unfold set_property. apply respects_bind; [apply keeps_wf_trans | | repeat frame_step].
  assert (H : forall xs, xs ⊆ kv -> respects (keeps_wf kv) (for_each xs set_property_arg)).
  { induction xs as [|x xs IH]; intros Hsub; simpl; [repeat frame_step|].
    apply respects_bind; [apply keeps_wf_trans | |intros _; apply IH; set_solver].
    apply keeps_wf_set_property_arg. set_solver. }
  apply H. reflexivity.
Qed.

(** What the constructor leaves is well formed, whatever was there. *)
Lemma wf_init file_name w0 : wf (exec (__init__ file_name) w0).
Proof.
  unfold __init__. rewrite exec_bind. simpl.
  set (w1 := exec _ w0).
  assert (Hw1 : wf w1) by (split; [reflexivity | constructor]).
  assert (H : respects (keeps_wf []) (fread "";; mret ())) by repeat frame_step.
  destruct (H w1) as (P & V & _). destruct Hw1 as [P1 V1].
  split; [apply P, P1 | apply V; [constructor | exact V1]].
Qed.

Lemma wf_run_call c w : wf w -> call_ok c w -> wf (run_call c w).
Proof.
  intros [P V] Hc.
  assert (H : exists extra, Forall (valid_ref (heap w)) extra /\
                            keeps_wf extra w (run_call c w)).
  { destruct c; simpl in *.
    - exists []. split; [constructor | apply keeps_wf_fread].
    - exists []. split; [constructor | apply quiet_keeps_wf, quiet_fwrite].
    - exists []. split; [constructor | apply quiet_keeps_wf, quiet_get_all_properties].
    - exists []. split; [constructor | apply quiet_keeps_wf, quiet_get_property].
    - exists kv. split; [exact Hc | apply keeps_wf_set_property]. }
  destruct H as (extra & He & P' & V' & _). split; auto.
Qed.

Lemma reachable_wf w : reachable w -> wf w.
Proof.
  induction 1 as [file_name w0 | c w _ IH Hc | w h files _ [P V] Hl].
  - apply wf_init.
  - apply wf_run_call; assumption.
  - split; [exact P | simpl; eapply valid_refs_mono; eauto].
Qed.

Lemma parallel_invariant s : parallel s <-> invariant s.
Proof.
  unfold parallel, invariant. destruct s as [f cs ps]. simpl. split.
  - intros ->. split; [apply length_map|].
    intros i c x Hc Hx. rewrite list_lookup_fmap, Hx in Hc.
    injection Hc as <-. destruct x; simpl; intuition congruence.
  - intros [Hl H]. apply list_eq. intros i. rewrite list_lookup_fmap.
    destruct (cs !! i) as [c|] eqn:Hc, (ps !! i) as [x|] eqn:Hx; simpl.
    + destruct (H i c x Hc Hx) as [H1 H0]. f_equal.
      destruct x; simpl in *; [apply H1 | apply H0]; exact I.
    + apply lookup_lt_Some in Hc. apply lookup_ge_None in Hx. lia.
    + apply lookup_lt_Some in Hx. apply lookup_ge_None in Hc. lia.
    + reflexivity.
Qed.

(** *** What each step returns *)

Lemma range_len {A} (l : list A) : range (len l) = map Z.of_nat (seq 0 (length l)).
Proof. unfold range, len. rewrite Nat2Z.id. reflexivity. Qed.

Lemma run_get_self w : get_self w = (Ok (self w), w).
Proof. reflexivity. Qed.

Lemma run_list_getitem {A} (l : list A) (i : nat) x w :
  l !! i = Some x -> list_getitem l (Z.of_nat i) w = (Ok x, w).
Proof.
  intros H. unfold list_getitem.
  destruct (Z.ltb_spec (Z.of_nat i) 0) as [Hn|_]; [lia|].
  destruct (Z.ltb_spec (Z.of_nat i) 0) as [Hn|_]; [lia|].
  rewrite Nat2Z.id, H. reflexivity.
Qed.

Lemma run_list_getitem_first {A} (x : A) (l : list A) w :
  list_getitem (x :: l) 0 w = (Ok x, w).
Proof. reflexivity. Qed.

Lemma run_deref l d w : heap w !! l = Some d -> deref l w = (Ok d, w).
Proof. intros H. unfold deref. rewrite H. reflexivity. Qed.

Lemma run_assign l d d' w :
  heap w !! l = Some d ->
  assign l d' w = (Ok (), mkWorld (self w) (<[l := d']> (heap w)) (fs w)).
Proof.
  intros H. unfold assign.
  rewrite (run_bind_ok _ _ _ _ _ (run_deref _ _ _ H)). reflexivity.
Qed.

Lemma run_keys_of l d w :
  heap w !! l = Some d -> keys_of (Dict l) w = (Ok (PyDict.keys d), w).
Proof.
  intros H. unfold keys_of.
  rewrite (run_bind_ok _ _ _ _ _ (run_deref _ _ _ H)). reflexivity.
Qed.

Lemma run_getitem_of l d k v w :
  heap w !! l = Some d -> PyDict.get k d = Some v ->
  getitem_of (Dict l) k w = (Ok v, w).
Proof.
  intros H Hv. unfold getitem_of.
  rewrite (run_bind_ok _ _ _ _ _ (run_deref _ _ _ H)), Hv. reflexivity.
Qed.

Lemma run_update_of l d a o w :
  heap w !! l = Some d -> heap w !! a = Some o ->
  update_of (Dict l) (Dict a) w =
  (Ok (), mkWorld (self w) (<[l := PyDict.update d o]> (heap w)) (fs w)).
Proof.
  intros Hl Ha. unfold update_of.
  rewrite (run_bind_ok _ _ _ _ _ (run_deref _ _ _ Hl)).
  rewrite (run_bind_ok _ _ _ _ _ (run_deref _ _ _ Ha)).
  apply (run_assign _ _ _ _ Hl).
Qed.

Lemma run_popitem_of l d kv rest w :
  heap w !! l = Some d -> PyDict.popitem d = Some (kv, rest) ->
  popitem_of (Dict l) w =
  (Ok kv, mkWorld (self w) (<[l := rest]> (heap w)) (fs w)).
Proof.
  intros Hl Hp. unfold popitem_of.
  rewrite (run_bind_ok _ _ _ _ _ (run_deref _ _ _ Hl)), Hp.
  rewrite (run_bind_ok _ _ _ _ _ (run_assign _ _ _ _ Hl)). reflexivity.
Qed.

(** A loop whose body answers [None] and changes nothing at every index
    before [i] gets to [i], and ends there unless the body says [None]
    again. *)
Lemma for_until_skip {B} (body : Z -> M (option B)) w (s n i : nat) :
  (s <= i < s + n)%nat ->
  (forall j, (s <= j < i)%nat -> body (Z.of_nat j) w = (Ok None, w)) ->
  for_until (map Z.of_nat (seq s n)) body w =
  (r ← body (Z.of_nat i);
   match r with
   | Some b => mret (Some b)
   | None => for_until (map Z.of_nat (seq (S i) (s + n - S i))) body
   end) w.
Proof.
  revert s. induction n as [|n IH]; intros s Hi Hj; [lia|].
  simpl. destruct (decide (s = i)) as [->|Hne].
  - replace (i + S n - S i)%nat with n by lia. reflexivity.
  - rewrite (run_bind_ok _ _ _ _ _ (Hj s ltac:(lia))).
    rewrite (IH (S s)); [|lia|intros j ?; apply Hj; lia].
    replace (S s + n)%nat with (s + S n)%nat by lia. reflexivity.
Qed.

Lemma for_until_all_none {B} (body : Z -> M (option B)) w (s n : nat) :
  (forall j, (s <= j < s + n)%nat -> body (Z.of_nat j) w = (Ok None, w)) ->
  for_until (map Z.of_nat (seq s n)) body w = (Ok None, w).
Proof.
  revert s. induction n as [|n IH]; intros s Hj; [reflexivity|].
  simpl. rewrite (run_bind_ok _ _ _ _ _ (Hj s ltac:(lia))).
  apply IH. intros j ?. apply Hj. lia.
Qed.

Lemma for_until_first_some {B} (body : Z -> M (option B)) w (n i : nat) b w' :
  (i < n)%nat ->
  (forall j, (j < i)%nat -> body (Z.of_nat j) w = (Ok None, w)) ->
  body (Z.of_nat i) w = (Ok (Some b), w') ->
  for_until (map Z.of_nat (seq 0 n)) body w = (Ok (Some b), w').
Proof.
  intros Hi Hj Hb. rewrite (for_until_skip body w 0 n i); [|lia|intros; apply Hj; lia].
  rewrite (run_bind_ok _ _ _ _ _ Hb). reflexivity.
Qed.

(** *** Dictionaries *)

Lemma get_Some_keys k d v : PyDict.get k d = Some v -> k ∈ PyDict.keys d.
Proof.
  induction d as [|[k' v'] d IH]; simpl; [discriminate|].
  destruct (String.eqb_spec k k') as [->|Hne]; intros H.
  - apply list_elem_of_here.
  - apply list_elem_of_further, IH, H.
Qed.

Lemma keys_get_Some k d : k ∈ PyDict.keys d -> is_Some (PyDict.get k d).
Proof.
  induction d as [|[k' v'] d IH]; simpl; intros H.
  - inversion H.
  - destruct (String.eqb_spec k k') as [->|Hne]; [eauto|].
    apply IH. inversion H; subst; [congruence | assumption].
Qed.

Lemma get_set k k' v d :
  PyDict.get k (PyDict.set k' v d) =
  if String.eqb k k' then Some v else PyDict.get k d.
Proof.
  induction d as [|[k1 v1] d IH]; simpl.
  - reflexivity.
  - destruct (String.eqb_spec k' k1) as [->|Hne]; simpl.
    + destruct (String.eqb_spec k k1); reflexivity.
    + destruct (String.eqb_spec k k1) as [->|Hne1].
      * destruct (String.eqb_spec k1 k'); [congruence | reflexivity].
      * exact IH.
Qed.

Lemma keys_set_in k v d :
  k ∈ PyDict.keys d -> PyDict.keys (PyDict.set k v d) = PyDict.keys d.
Proof.
  induction d as [|[k1 v1] d IH]; simpl; intros H.
  - inversion H.
  - destruct (String.eqb_spec k k1) as [->|Hne]; [reflexivity|].
    simpl. f_equal. apply IH. inversion H; subst; [congruence | assumption].
Qed.

Lemma keys_set_notin k v d :
  k ∉ PyDict.keys d -> PyDict.keys (PyDict.set k v d) = (PyDict.keys d ++ [k])%list.
Proof.
  induction d as [|[k1 v1] d IH]; simpl; intros H.
  - reflexivity.
  - destruct (String.eqb_spec k k1) as [->|Hne].
    + exfalso. apply H, list_elem_of_here.
    + simpl. f_equal. apply IH. intros Hin. apply H, list_elem_of_further, Hin.
Qed.


Lemma update_cons d k v o :
  PyDict.update d ((k, v) :: o) = PyDict.update (PyDict.set k v d) o.
Proof. reflexivity. Qed.


Lemma set_unique k v d : unique_keys d -> unique_keys (PyDict.set k v d).
Proof.
  unfold unique_keys. intros H.
  destruct (decide (k ∈ PyDict.keys d)) as [Hin|Hnin].
  - rewrite keys_set_in; assumption.
  - rewrite keys_set_notin by assumption. apply NoDup_app. repeat split.
    + exact H.
    + intros x Hx Hk. apply list_elem_of_singleton in Hk. congruence.
    + apply NoDup_singleton.
Qed.

Lemma update_unique d o : unique_keys d -> unique_keys (PyDict.update d o).
Proof.
  revert d. induction o as [|[k v] o IH]; intros d Hd; [exact Hd|].
  rewrite update_cons. apply IH, set_unique, Hd.
Qed.

(** [update] lets the pairs of [other] win over those of the receiver. *)
Lemma get_update k d o :
  unique_keys o ->
  PyDict.get k (PyDict.update d o) =
  match PyDict.get k o with
  | Some v => Some v
  | None => PyDict.get k d
  end.
Proof.
  revert d. induction o as [|[k1 v1] o IH]; intros d Ho; [reflexivity|].
  rewrite update_cons. apply NoDup_cons in Ho as [Hk1 Ho].
  rewrite (IH _ Ho), get_set. simpl.
  destruct (String.eqb_spec k k1) as [->|Hne]; [|reflexivity].
  destruct (PyDict.get k1 o) as [v|] eqn:Hg; [|reflexivity].
  exfalso. apply Hk1, (get_Some_keys _ _ _ Hg).
Qed.

(** *** Entries of a well-formed world *)

Lemma wf_flag w j x :
  wf w -> properties (self w) !! j = Some x ->
  _isComment (self w) !! j = Some (flag_of x).
Proof. intros [P _] Hx. rewrite P, list_lookup_fmap, Hx. reflexivity. Qed.

Lemma wf_deref w j l :
  wf w -> properties (self w) !! j = Some (Dict l) ->
  exists d, heap w !! l = Some d.
Proof.
  intros [_ V] Hx. rewrite Forall_lookup in V.
  apply (lookup_lt_is_Some_2 (heap w) l), (V _ _ Hx).
Qed.

Lemma holds_key_Dict w k j l d :
  properties (self w) !! j = Some (Dict l) -> heap w !! l = Some d ->
  holds_key w k j <-> k ∈ PyDict.keys d.
Proof. intros Hx Hd. unfold holds_key. rewrite Hx, Hd. reflexivity. Qed.

Lemma holds_key_inv w k j :
  holds_key w k j ->
  exists l d, properties (self w) !! j = Some (Dict l) /\
              heap w !! l = Some d /\ k ∈ PyDict.keys d.
Proof.
  unfold holds_key.
  destruct (properties (self w) !! j) as [[s|l]|]; simpl; try (intros []).
  destruct (heap w !! l) as [d|] eqn:Hd; [|intros []]. intros H. exists l, d. auto.
Qed.

Lemma holds_key_lt w k j :
  holds_key w k j -> (j < length (properties (self w)))%nat.
Proof.
  intros (l & d & Hx & _)%holds_key_inv. apply (lookup_lt_Some _ _ _ Hx).
Qed.

(** Either some position is the first to have the key, or none has it. *)
Lemma holder_cases w k : (exists i, first_holder w k i) \/ no_holder w k.
Proof.
  unfold first_holder, no_holder.
  induction (length (properties (self w))) as [|n [IH|IH]].
  - right. constructor.
  - left. exact IH.
  - destruct (decide (holds_key w k n)) as [Hn|Hn].
    + left. exists n. split; assumption.
    + right. rewrite seq_S, Forall_app. split; [exact IH | repeat constructor; exact Hn].
Qed.

Lemma no_holder_spec w k : no_holder w k <-> forall j, ~ holds_key w k j.
Proof.
  unfold no_holder. rewrite Forall_seq. split.
  - intros H j Hj. apply (H j); [|exact Hj]. apply holds_key_lt in Hj. lia.
  - intros H j _. apply H.
Qed.

(** *** The scan of [get_property] *)

Lemma get_property_entry_miss w arg j :
  wf w -> (j < length (properties (self w)))%nat -> ~ holds_key w arg j ->
  get_property_entry arg (Z.of_nat j) w = (Ok None, w).
Proof.
  intros Hwf Hj Hn. destruct (lookup_lt_is_Some_2 _ _ Hj) as [x Hx].
  pose proof (wf_flag _ _ _ Hwf Hx) as Hc.
  unfold get_property_entry. rewrite run_bind, run_get_self.
  rewrite (run_bind_ok _ _ _ _ _ (run_list_getitem _ _ _ _ Hc)).
  destruct x as [s|l]; simpl; [reflexivity|].
  destruct (wf_deref _ _ _ Hwf Hx) as [d Hd].
  rewrite (run_bind_ok _ _ _ _ _ (run_list_getitem _ _ _ _ Hx)).
  rewrite (run_bind_ok _ _ _ _ _ (run_keys_of _ _ _ Hd)).
  rewrite bool_decide_eq_false_2; [reflexivity|].
  rewrite <- (holds_key_Dict _ _ _ _ _ Hx Hd). exact Hn.
Qed.

Lemma get_property_entry_hit w arg j l d v :
  wf w -> properties (self w) !! j = Some (Dict l) -> heap w !! l = Some d ->
  PyDict.get arg d = Some v ->
  get_property_entry arg (Z.of_nat j) w = (Ok (Some v), w).
Proof.
  intros Hwf Hx Hd Hv. pose proof (wf_flag _ _ _ Hwf Hx) as Hc.
  unfold get_property_entry. rewrite run_bind, run_get_self.
  rewrite (run_bind_ok _ _ _ _ _ (run_list_getitem _ _ _ _ Hc)). simpl.
  rewrite (run_bind_ok _ _ _ _ _ (run_list_getitem _ _ _ _ Hx)).
  rewrite (run_bind_ok _ _ _ _ _ (run_keys_of _ _ _ Hd)).
  rewrite bool_decide_eq_true_2 by (eapply get_Some_keys; eauto).
  rewrite (run_bind_ok _ _ _ _ _ (run_list_getitem _ _ _ _ Hx)).
  rewrite (run_bind_ok _ _ _ _ _ (run_getitem_of _ _ _ _ _ Hd Hv)).
  reflexivity.
Qed.

Lemma get_property_found w arg i l d v :
  wf w -> first_holder w arg i ->
  properties (self w) !! i = Some (Dict l) -> heap w !! l = Some d ->
  PyDict.get arg d = Some v ->
  get_property arg w = (Ok v, w).
Proof.
  intros Hwf [Hi Hbefore] Hx Hd Hv. rewrite Forall_seq in Hbefore.
  pose proof (lookup_lt_Some _ _ _ Hx) as Hlt.
  unfold get_property. rewrite run_bind, run_get_self, range_len.
  rewrite (run_bind_ok _ _ _ (Some v) w); [reflexivity|].
  apply for_until_first_some with (i := i); [exact Hlt| |].
  - intros j Hj. apply get_property_entry_miss; [exact Hwf | lia | apply Hbefore; lia].
  - eapply get_property_entry_hit; eauto.
Qed.

Lemma get_property_missing w arg :
  wf w -> no_holder w arg -> get_property arg w = (Raise IndexError, w).
Proof.
  intros Hwf Hno. unfold no_holder in Hno. rewrite Forall_seq in Hno.
  unfold get_property. rewrite run_bind, run_get_self, range_len.
  rewrite (run_bind_ok _ _ _ None w); [reflexivity|].
  apply for_until_all_none. intros j Hj.
  apply get_property_entry_miss; [exact Hwf | lia | apply Hno; lia].
Qed.

(** *** The scan of [set_property] *)

Lemma set_property_entry_miss w a da k ks j :
  wf w -> heap w !! a = Some da -> PyDict.keys da = k :: ks ->
  (j < length (properties (self w)))%nat -> ~ holds_key w k j ->
  set_property_entry a (Z.of_nat j) w = (Ok None, w).
Proof.
  intros Hwf Ha Hk Hj Hn. destruct (lookup_lt_is_Some_2 _ _ Hj) as [x Hx].
  pose proof (wf_flag _ _ _ Hwf Hx) as Hc.
  unfold set_property_entry. rewrite run_bind, run_get_self.
  rewrite (run_bind_ok _ _ _ _ _ (run_list_getitem _ _ _ _ Hc)).
  destruct x as [s|l]; simpl; [reflexivity|].
  destruct (wf_deref _ _ _ Hwf Hx) as [d Hd].
  rewrite (run_bind_ok _ _ _ _ _ (run_deref _ _ _ Ha)), Hk.
  rewrite (run_bind_ok _ _ _ _ _ (run_list_getitem_first _ _ _)).
  rewrite (run_bind_ok _ _ _ _ _ (run_list_getitem _ _ _ _ Hx)).
  rewrite (run_bind_ok _ _ _ _ _ (run_keys_of _ _ _ Hd)).
  rewrite bool_decide_eq_false_2; [reflexivity|].
  rewrite <- (holds_key_Dict _ _ _ _ _ Hx Hd). exact Hn.
Qed.

Lemma set_property_entry_hit w a da k ks j l d :
  wf w -> heap w !! a = Some da -> PyDict.keys da = k :: ks ->
  properties (self w) !! j = Some (Dict l) -> heap w !! l = Some d ->
  k ∈ PyDict.keys d ->
  set_property_entry a (Z.of_nat j) w =
  (Ok (Some ()),
   mkWorld (self w) (<[l := PyDict.update d da]> (heap w)) (fs w)).
Proof.
  intros Hwf Ha Hk Hx Hd Hin. pose proof (wf_flag _ _ _ Hwf Hx) as Hc.
  unfold set_property_entry. rewrite run_bind, run_get_self.
  rewrite (run_bind_ok _ _ _ _ _ (run_list_getitem _ _ _ _ Hc)). simpl.
  rewrite (run_bind_ok _ _ _ _ _ (run_deref _ _ _ Ha)), Hk.
  rewrite (run_bind_ok _ _ _ _ _ (run_list_getitem_first _ _ _)).
  rewrite (run_bind_ok _ _ _ _ _ (run_list_getitem _ _ _ _ Hx)).
  rewrite (run_bind_ok _ _ _ _ _ (run_keys_of _ _ _ Hd)).
  rewrite bool_decide_eq_true_2 by exact Hin.
  rewrite (run_bind_ok _ _ _ _ _ (run_list_getitem _ _ _ _ Hx)).
  rewrite (run_bind_ok _ _ _ _ _ (run_update_of _ _ _ _ _ Hd Ha)).
  reflexivity.
Qed.

(** An argument whose first key some entry has: the first such entry
    takes the pairs of the argument, and the lists stay as they are. *)
Lemma set_property_arg_found w a da k ks i l d :
  wf w -> heap w !! a = Some da -> PyDict.keys da = k :: ks ->
  first_holder w k i ->
  properties (self w) !! i = Some (Dict l) -> heap w !! l = Some d ->
  set_property_arg (Dict a) w =
  (Ok (), mkWorld (self w) (<[l := PyDict.update d da]> (heap w)) (fs w)).
Proof.
  intros Hwf Ha Hk [Hi Hbefore] Hx Hd. rewrite Forall_seq in Hbefore.
  pose proof (lookup_lt_Some _ _ _ Hx) as Hlt.
  unfold set_property_arg. rewrite run_bind, run_get_self, range_len.
  rewrite (run_bind_ok _ _ _ (Some ())
             (mkWorld (self w) (<[l := PyDict.update d da]> (heap w)) (fs w)));
    [reflexivity|].
  apply for_until_first_some with (i := i); [exact Hlt| |].
  - intros j Hj.
    apply (set_property_entry_miss w a da k ks j Hwf Ha Hk); [lia | apply Hbefore; lia].
  - eapply set_property_entry_hit; eauto.
    apply (holds_key_Dict _ _ _ _ _ Hx Hd), Hi.
Qed.

(** An argument whose first key no entry has: the argument itself is
    appended, with the flag [0]. *)
Lemma set_property_arg_new w a da k ks :
  wf w -> heap w !! a = Some da -> PyDict.keys da = k :: ks ->
  no_holder w k ->
  set_property_arg (Dict a) w =
  (Ok (), stored 0 (Dict a) w).
Proof.
  intros Hwf Ha Hk Hno. unfold no_holder in Hno. rewrite Forall_seq in Hno.
  unfold set_property_arg. rewrite run_bind, run_get_self, range_len.
  rewrite (run_bind_ok _ _ _ None w); [reflexivity|].
  apply for_until_all_none. intros j Hj.
  apply (set_property_entry_miss w a da k ks j Hwf Ha Hk); [lia | apply Hno; lia].
Qed.

(** *** The loop of [get_all_properties] *)

Lemma run_get_all_properties_entry_Str s h f m i t :
  parallel s -> properties s !! i = Some (Str t) ->
  get_all_properties_entry (length h) (Z.of_nat i) (mkWorld s (h ++ [m]) f) =
  (Ok (), mkWorld s (h ++ [m]) f).
Proof.
  intros P Hx.
  assert (Hc : _isComment s !! i = Some 1).
  { rewrite P, list_lookup_fmap, Hx. reflexivity. }
  unfold get_all_properties_entry. rewrite run_bind, run_get_self. simpl self.
  rewrite (run_bind_ok _ _ _ _ _ (run_list_getitem _ _ _ _ Hc)). reflexivity.
Qed.

Lemma run_get_all_properties_entry_Dict s h f m i l d :
  parallel s -> properties s !! i = Some (Dict l) -> h !! l = Some d ->
  get_all_properties_entry (length h) (Z.of_nat i) (mkWorld s (h ++ [m]) f) =
  (Ok (), mkWorld s (h ++ [PyDict.update m d]) f).
Proof.
  intros P Hx Hd.
  assert (Hc : _isComment s !! i = Some 0).
  { rewrite P, list_lookup_fmap, Hx. reflexivity. }
  unfold get_all_properties_entry. rewrite run_bind, run_get_self. simpl self.
  rewrite (run_bind_ok _ _ _ _ _ (run_list_getitem _ _ _ _ Hc)). cbn [Z.eqb].
  rewrite (run_bind_ok _ _ _ _ _ (run_list_getitem _ _ _ _ Hx)).
  rewrite (run_update_of (length h) m l d);
    [| simpl; apply list_lookup_middle; reflexivity
     | simpl; apply lookup_app_l_Some, Hd ].
  simpl. rewrite insert_app_r_alt by lia.
  replace (length h - length h)%nat with 0%nat by lia. reflexivity.
Qed.

Lemma dicts_of_cons_Str h t ps : dicts_of h (Str t :: ps) = dicts_of h ps.
Proof. reflexivity. Qed.

Lemma dicts_of_cons_Dict h l d ps :
  h !! l = Some d -> dicts_of h (Dict l :: ps) = d :: dicts_of h ps.
Proof. intros H. unfold dicts_of. simpl. rewrite H. reflexivity. Qed.

Lemma get_all_loop s h f :
  parallel s -> Forall (valid_ref h) (properties s) ->
  forall n i m, (i + n = length (properties s))%nat ->
  for_each (map Z.of_nat (seq i n)) (get_all_properties_entry (length h))
           (mkWorld s (h ++ [m]) f) =
  (Ok (), mkWorld s
            (h ++ [fold_left PyDict.update (dicts_of h (drop i (properties s))) m])
            f).
Proof.
  intros P V. induction n as [|n IH]; intros i m Hn.
  - rewrite drop_ge by lia. reflexivity.
  - destruct (lookup_lt_is_Some_2 (properties s) i ltac:(lia)) as [x Hx].
    rewrite (drop_S _ _ _ Hx). cbn [seq map for_each]. destruct x as [t|l].
    + rewrite (run_bind_ok _ _ _ _ _
                 (run_get_all_properties_entry_Str s h f m i t P Hx)).
      rewrite dicts_of_cons_Str. apply IH. lia.
    + rewrite Forall_lookup in V. pose proof (V _ _ Hx) as Hl. simpl in Hl.
      destruct (lookup_lt_is_Some_2 h l Hl) as [d Hd].
      rewrite (run_bind_ok _ _ _ _ _
                 (run_get_all_properties_entry_Dict s h f m i l d P Hx Hd)).
      rewrite (dicts_of_cons_Dict _ _ _ _ Hd). apply IH. lia.
Qed.

Lemma run_get_all_properties w :
  wf w ->
  get_all_properties w =
  (Ok (Dict (length (heap w))),
   mkWorld (self w) (heap w ++ [fold_left PyDict.update (kv_dicts w) []]) (fs w)).
Proof.
  intros [P V]. unfold get_all_properties.
  rewrite (run_bind_ok _ _ _ (length (heap w))
             (mkWorld (self w) (heap w ++ [[]]) (fs w))) by reflexivity.
  rewrite run_bind, run_get_self. cbn [self]. rewrite range_len.
  rewrite (run_bind_ok _ _ _ _ _
             (get_all_loop (self w) (heap w) (fs w) P V _ 0%nat [] eq_refl)).
  reflexivity.
Qed.

(** Dictionaries without the key do not change what the key maps to. *)
Lemma get_fold_update_skip k ds m :
  Forall unique_keys ds -> Forall (fun d => k ∉ PyDict.keys d) ds ->
  PyDict.get k (fold_left PyDict.update ds m) = PyDict.get k m.
Proof.
  revert m. induction ds as [|d ds IH]; intros m Hu Hk; [reflexivity|].
  apply Forall_cons in Hu as [Hd Hu]. apply Forall_cons in Hk as [Hkd Hk].
  simpl. rewrite (IH _ Hu Hk), (get_update _ _ _ Hd).
  destruct (PyDict.get k d) as [v|] eqn:Hg; [|reflexivity].
  exfalso. apply Hkd, (get_Some_keys _ _ _ Hg).
Qed.

(** The last dictionary with the key decides what the key maps to. *)
Lemma get_fold_update_last k ds1 d ds2 m :
  unique_keys d -> Forall unique_keys ds2 ->
  k ∈ PyDict.keys d -> Forall (fun d' => k ∉ PyDict.keys d') ds2 ->
  PyDict.get k (fold_left PyDict.update (ds1 ++ d :: ds2) m) = PyDict.get k d.
Proof.
  intros Hd Hu Hin Hk. rewrite fold_left_app. simpl.
  rewrite (get_fold_update_skip _ _ _ Hu Hk), (get_update _ _ _ Hd).
  destruct (keys_get_Some _ _ Hin) as [v ->]. reflexivity.
Qed.

Lemma dicts_of_unique h ps :
  Forall unique_keys h -> Forall unique_keys (dicts_of h ps).
Proof.
  intros Hu. apply Forall_forall. intros d Hd.
  apply list_elem_of_omap in Hd as ([s|l] & _ & Hl); [discriminate|].
  rewrite Forall_lookup in Hu. apply (Hu _ _ Hl).
Qed.

Lemma dicts_of_no_key w k i n :
  Forall (fun j => ~ holds_key w k j) (seq i n) ->
  Forall (fun d => k ∉ PyDict.keys d)
         (dicts_of (heap w) (take n (drop i (properties (self w))))).
Proof.
  rewrite Forall_seq. intros Hno. apply Forall_forall. intros d Hd.
  apply list_elem_of_omap in Hd as ([s|l] & Hx & Hl); [discriminate|].
  apply list_elem_of_lookup in Hx as [j Hj].
  apply lookup_take_Some in Hj as [Hj Hlt]. rewrite lookup_drop in Hj.
  intros Hin. apply (Hno (i + j)%nat); [lia|].
  apply (holds_key_Dict _ _ _ _ _ Hj Hl), Hin.
Qed.

Lemma get_all_last w k i l d :
  Forall unique_keys (heap w) -> last_holder w k i ->
  properties (self w) !! i = Some (Dict l) -> heap w !! l = Some d ->
  PyDict.get k (fold_left PyDict.update (kv_dicts w) []) = PyDict.get k d.
Proof.
  intros Hu [Hi Hafter] Hx Hd. unfold kv_dicts.
  rewrite <- (take_drop_middle _ _ _ Hx). unfold dicts_of.
  rewrite omap_app. simpl. rewrite Hd. simpl.
  apply get_fold_update_last.
  - rewrite Forall_lookup in Hu. apply (Hu _ _ Hd).
  - apply dicts_of_unique, Hu.
  - apply (holds_key_Dict _ _ _ _ _ Hx Hd), Hi.
  - apply (dicts_of_no_key w k (S i)) in Hafter.
    rewrite take_ge in Hafter; [exact Hafter|]. rewrite length_drop. lia.
Qed.

Lemma get_all_none w k :
  Forall unique_keys (heap w) -> no_holder w k ->
  PyDict.get k (fold_left PyDict.update (kv_dicts w) []) = None.
Proof.
  intros Hu Hno. rewrite get_fold_update_skip; [reflexivity | |].
  - apply dicts_of_unique, Hu.
  - apply (dicts_of_no_key w k 0) in Hno.
    rewrite drop_0, take_ge in Hno; [exact Hno | lia].
Qed.

(** *** One argument of [set_property] *)

Lemma eval_bind {A B} (c : M A) (k : A -> M B) w :
  eval (c ≫= k) w =
  match eval c w with
  | Ok a => eval (k a) (exec c w)
  | Raise e => Raise e
  end.
Proof.
  unfold exec, eval. rewrite run_bind. destruct (c w) as [[a|e] w']; reflexivity.
Qed.

Lemma wf_set_property_arg w arg :
  wf w -> valid_ref (heap w) arg -> wf (exec (set_property_arg arg) w).
Proof.
  intros [P V] Ha.
  destruct (keeps_wf_set_property_arg [arg] arg ltac:(set_solver) w)
    as (P' & V' & _).
  split; [auto | apply V'; [repeat constructor; exact Ha | exact V]].
Qed.

Lemma set_property_arg_cases w a da k ks :
  wf w -> heap w !! a = Some da -> PyDict.keys da = k :: ks ->
  (exists i l d,
     first_holder w k i /\ properties (self w) !! i = Some (Dict l) /\
     heap w !! l = Some d /\ k ∈ PyDict.keys d /\
     set_property_arg (Dict a) w =
     (Ok (), mkWorld (self w) (<[l := PyDict.update d da]> (heap w)) (fs w)))
  \/
  (no_holder w k /\
   set_property_arg (Dict a) w =
   (Ok (), stored 0 (Dict a) w)).
Proof.
  intros Hwf Ha Hk. destruct (holder_cases w k) as [[i Hi]|Hno].
  - left. destruct (holds_key_inv _ _ _ (proj1 Hi)) as (l & d & Hx & Hd & Hin).
    exists i, l, d. repeat split; try assumption; try apply Hi.
    eapply set_property_arg_found; eauto.
  - right. split; [exact Hno|]. eapply set_property_arg_new; eauto.
Qed.

(** The arguments of one call, all of one kind [Q] of dictionary that is
    never empty and that [update] keeps when it merges one of the kind into
    another that has its first key. *)
Section Arguments.

Variable Q : dict -> Prop.
Hypothesis Q_nonempty : forall d, Q d -> d <> [].
Hypothesis Q_update : forall d da k ks,
  Q d -> Q da -> PyDict.keys da = k :: ks -> k ∈ PyDict.keys d ->
  Q (PyDict.update d da).

Lemma arg_ok_Dict h a :
  arg_ok Q h (Dict a) -> exists d, h !! a = Some d /\ Q d.
Proof. simpl. destruct (h !! a) as [d|]; [eauto | tauto]. Qed.

Lemma first_key d : d <> [] -> exists k ks, PyDict.keys d = k :: ks.
Proof. destruct d as [|[k v] d]; [congruence|]. intros _. simpl. eauto. Qed.

Lemma arg_ok_step w a da x :
  wf w -> heap w !! a = Some da -> Q da -> arg_ok Q (heap w) x ->
  eval (set_property_arg (Dict a)) w = Ok () /\
  arg_ok Q (heap (exec (set_property_arg (Dict a)) w)) x.
Proof.
  intros Hwf Ha HQ Hx.
  destruct (first_key da (Q_nonempty _ HQ)) as (k & ks & Hk).
  unfold eval, exec.
  destruct (set_property_arg_cases w a da k ks Hwf Ha Hk)
    as [(i & l & d & _ & _ & Hd & Hin & ->)|[_ ->]]; simpl; [|auto].
  split; [reflexivity|].
  destruct x as [s|b]; [exact I|]. destruct (arg_ok_Dict _ _ Hx) as (db & Hb & HQb).
  simpl. destruct (decide (l = b)) as [->|Hne].
  - rewrite list_lookup_insert_eq by apply (lookup_lt_Some _ _ _ Hd).
    apply (Q_update d da k ks); congruence.
  - rewrite list_lookup_insert_ne, Hb by exact Hne. exact HQb.
Qed.

(** The outer loop raises [TypeError] at the first argument that is not a
    dictionary, and runs to its end when there is none. *)
Lemma run_set_property_args kv :
  forall w, wf w -> Forall (arg_ok Q (heap w)) kv ->
  eval (for_each kv set_property_arg) w =
  if decide (Exists is_Str kv) then Raise TypeError else Ok ().
Proof.
  induction kv as [|x kv IH]; intros w Hwf Hok.
  - rewrite decide_False; [reflexivity|]. intros H. inversion H.
  - apply Forall_cons in Hok as [Hx Hok]. simpl. rewrite eval_bind.
    destruct x as [s|a].
    + rewrite decide_True by (left; exact I). reflexivity.
    + destruct (arg_ok_Dict _ _ Hx) as (da & Ha & HQ).
      assert (Hstep : eval (set_property_arg (Dict a)) w = Ok () /\
                      Forall (arg_ok Q (heap (exec (set_property_arg (Dict a)) w))) kv).
      { split; [apply (arg_ok_step w a da (Str "") Hwf Ha HQ I)|].
        eapply Forall_impl; [exact Hok|]. intros y Hy.
        apply (arg_ok_step w a da y Hwf Ha HQ Hy). }
      destruct Hstep as [-> Hok'].
      rewrite IH; [| apply wf_set_property_arg;
                     [exact Hwf | apply (lookup_lt_Some _ _ _ Ha)] | exact Hok'].
      apply decide_ext. rewrite Exists_cons. simpl. tauto.
Qed.

Lemma run_set_property kv w :
  wf w -> Forall (arg_ok Q (heap w)) kv ->
  eval (set_property kv) w =
  if decide (Exists is_Str kv) then Raise TypeError else Ok (len kv).
Proof.
  intros Hwf Hok. unfold set_property. rewrite eval_bind.
  rewrite (run_set_property_args kv w Hwf Hok).
  destruct (decide _); reflexivity.
Qed.

End Arguments.


Lemma single_key_nonempty d : single_key d -> d <> [].
Proof. intros (k & v & ->). discriminate. Qed.

Lemma single_key_update d da k ks :
  single_key d -> single_key da -> PyDict.keys da = k :: ks ->
  k ∈ PyDict.keys d -> single_key (PyDict.update d da).
Proof.
  intros (k1 & v1 & ->) (k2 & v2 & ->) [= ->] Hin.
  apply list_elem_of_singleton in Hin as ->.
  exists k1, v2. unfold PyDict.update. simpl. rewrite String.eqb_refl. reflexivity.
Qed.

(** *** The entries that have a key, before and after *)

Lemma filter_ext_in {A} (P1 P2 : A -> Prop)
    `{!forall x, Decision (P1 x), !forall x, Decision (P2 x)} (l : list A) :
  (forall x, x ∈ l -> P1 x <-> P2 x) -> filter P1 l = filter P2 l.
Proof.
  induction l as [|a l IH]; intros Hext; [reflexivity|].
  rewrite !filter_cons. rewrite IH by (intros x Hx; apply Hext; right; exact Hx).
  apply decide_ext, Hext. left.
Qed.

Lemma holders_nil w k : no_holder w k -> holders w k = [].
Proof.
  unfold no_holder, holders. induction 1 as [|j js Hj _ IH]; [reflexivity|].
  rewrite filter_cons_False by exact Hj. exact IH.
Qed.

Lemma holders_same_keys w w' k :
  properties (self w') = properties (self w) ->
  (forall l, PyDict.keys <$> heap w' !! l = PyDict.keys <$> heap w !! l) ->
  holders w' k = holders w k.
Proof.
  intros Hp Hh. unfold holders. rewrite Hp. apply list_filter_iff. intros j.
  unfold holds_key. rewrite Hp.
  destruct (properties (self w) !! j) as [[s|l]|]; try reflexivity.
  generalize (Hh l). clear Hh.
  destruct (heap w' !! l) as [d'|], (heap w !! l) as [d|];
    cbn; intros Hh; try discriminate; [|reflexivity].
  assert (Hk : PyDict.keys d' = PyDict.keys d) by congruence.
  rewrite Hk. reflexivity.
Qed.

Lemma holders_appended w a da k c :
  wf w -> heap w !! a = Some da ->
  holders (stored c (Dict a) w) k =
  (holders w k ++
   if decide (k ∈ PyDict.keys da) then [length (properties (self w))] else [])%list.
Proof.
  intros Hwf Ha. unfold holders. simpl.
  rewrite length_app, Nat.add_1_r, seq_S, filter_app. simpl. f_equal.
  - apply filter_ext_in. intros j Hj. apply elem_of_seq in Hj.
    unfold holds_key. simpl. rewrite lookup_app_l by lia. reflexivity.
  - rewrite filter_cons, filter_nil. apply decide_ext.
    unfold holds_key. simpl. rewrite list_lookup_middle by reflexivity.
    rewrite Ha. reflexivity.
Qed.

Lemma first_holder_unique w k i j :
  first_holder w k i -> first_holder w k j -> i = j.
Proof.
  intros [Hi Hbi] [Hj Hbj]. rewrite Forall_seq in Hbi, Hbj.
  destruct (Nat.lt_trichotomy i j) as [Hlt|[Heq|Hgt]]; [|exact Heq|].
  - destruct (Hbj i); [lia | exact Hi].
  - destruct (Hbi j); [lia | exact Hj].
Qed.

Lemma run_set_property_single x w :
  set_property [x] w =
  match set_property_arg x w with
  | (Ok _, w') => (Ok 1, w')
  | (Raise e, w') => (Raise e, w')
  end.
Proof.
  unfold set_property. simpl for_each. rewrite !run_bind.
  destruct (set_property_arg x w) as [[[]|e] w']; reflexivity.
Qed.

(** A call with several arguments is the calls with each, one after the
    other, as long as none raises. *)
Lemma exec_set_property_cons x kv w :
  eval (set_property [x]) w = Ok 1 ->
  exec (set_property (x :: kv)) w = exec (set_property kv) (exec (set_property [x]) w).
Proof.
  unfold eval, exec. rewrite run_set_property_single.
  unfold set_property. simpl for_each. rewrite !run_bind.
  destruct (set_property_arg x w) as [[[]|e] w']; [|discriminate].
  intros _. simpl. destruct (for_each kv set_property_arg w') as [[[]|e] w'']; reflexivity.
Qed.

Lemma no_Str_of_Dicts kv : Forall is_Dict kv -> ~ Exists is_Str kv.
Proof.
  rewrite Forall_forall, Exists_exists. intros Hd ([s|b] & Hin & Hs); [|exact Hs].
  apply (Hd _ Hin).
Qed.

Lemma set_property_count w kv :
  wf w -> Forall (arg_ok single_key (heap w)) kv -> Forall is_Dict kv ->
  eval (set_property kv) w = Ok (len kv).
Proof.
  intros Hwf Hok Hd.
  rewrite (run_set_property single_key single_key_nonempty single_key_update
             kv w Hwf Hok).
  apply decide_False, no_Str_of_Dicts, Hd.
Qed.

(** *** Dictionaries stay dictionaries

    Every dictionary the methods make or change has each key once, if those
    they started from had. *)

Lemma popitem_keys d kv rest :
  PyDict.popitem d = Some (kv, rest) ->
  PyDict.keys d = (PyDict.keys rest ++ [fst kv])%list.
Proof.
  revert kv rest. induction d as [|p d IH]; intros kv rest; [discriminate|].
  destruct d as [|p' d'].
  - intros [= <- <-]. reflexivity.
  - change (PyDict.popitem (p :: p' :: d'))
      with (match PyDict.popitem (p' :: d') with
            | Some (last, rest) => Some (last, p :: rest)
            | None => None
            end).
    destruct (PyDict.popitem (p' :: d')) as [[last r]|] eqn:Hp; [|discriminate].
    intros [= <- <-]. change (PyDict.keys (p :: p' :: d'))
      with (fst p :: PyDict.keys (p' :: d')).
    rewrite (IH _ _ eq_refl). reflexivity.
Qed.

Lemma popitem_unique d kv rest :
  PyDict.popitem d = Some (kv, rest) -> unique_keys d -> unique_keys rest.
Proof.
  unfold unique_keys. intros Hp. rewrite (popitem_keys _ _ _ Hp), NoDup_app. tauto.
Qed.

Lemma keeps_unique_same_heap w w' : heap w' = heap w -> keeps_unique w w'.
Proof. intros H. unfold keeps_unique. rewrite H. auto. Qed.

Lemma keeps_unique_get_self : respects keeps_unique get_self.
Proof. intros w. apply keeps_unique_refl. Qed.

Lemma keeps_unique_list_getitem {A} (l : list A) i :
  respects keeps_unique (list_getitem l i).
Proof.
  intros w. apply keeps_unique_same_heap. unfold list_getitem, exec.
  destruct (_ <? 0); [reflexivity|]. destruct (l !! _); reflexivity.
Qed.

Lemma keeps_unique_deref l : respects keeps_unique (deref l).
Proof.
  intros w. apply keeps_unique_same_heap. unfold deref, exec.
  destruct (heap w !! l); reflexivity.
Qed.

Lemma keeps_unique_open_read f : respects keeps_unique (open_read f).
Proof.
  intros w. apply keeps_unique_same_heap. unfold open_read, exec.
  destruct (String.eqb f ""), (fs w !! f); reflexivity.
Qed.

Lemma keeps_unique_open_write f b : respects keeps_unique (open_write f b).
Proof.
  intros w. apply keeps_unique_same_heap. unfold open_write, exec.
  destruct (String.eqb f ""); reflexivity.
Qed.

Lemma keeps_unique_properties_append x : respects keeps_unique (properties_append x).
Proof. intros w. apply keeps_unique_same_heap. reflexivity. Qed.

Lemma keeps_unique_isComment_append c : respects keeps_unique (isComment_append c).
Proof. intros w. apply keeps_unique_same_heap. reflexivity. Qed.

Lemma keeps_unique_alloc d : unique_keys d -> respects keeps_unique (alloc d).
Proof.
  intros Hd w Hu. simpl. apply Forall_app. split; [exact Hu | repeat constructor; exact Hd].
Qed.

Lemma keeps_unique_alloc_empty : respects keeps_unique (alloc []).
Proof. apply keeps_unique_alloc. constructor. Qed.

Lemma keeps_unique_alloc_pair k v : respects keeps_unique (alloc [(k, v)]).
Proof. apply keeps_unique_alloc, NoDup_singleton. Qed.

Lemma keeps_unique_update_of x arg : respects keeps_unique (update_of x arg).
Proof.
  intros w Hu. destruct x as [s|l]; [exact Hu|]. destruct arg as [s|a].
  - unfold update_of. destruct (String.eqb s ""); exact Hu.
  - unfold update_of, exec. rewrite !run_bind. unfold deref at 1.
    destruct (heap w !! l) as [d|] eqn:Hd; [|exact Hu].
    rewrite run_bind. unfold deref at 1.
    destruct (heap w !! a) as [o|] eqn:Ho; [|exact Hu].
    rewrite (run_assign _ _ _ _ Hd). simpl.
    apply Forall_insert; [exact Hu|]. apply update_unique.
    rewrite Forall_lookup in Hu. apply (Hu _ _ Hd).
Qed.

Lemma keeps_unique_popitem_of x : respects keeps_unique (popitem_of x).
Proof.
  intros w Hu. destruct x as [s|l]; [exact Hu|].
  unfold popitem_of, exec. rewrite run_bind. unfold deref at 1.
  destruct (heap w !! l) as [d|] eqn:Hd; [|exact Hu].
  destruct (PyDict.popitem d) as [[kv rest]|] eqn:Hp; [|exact Hu].
  rewrite (run_bind_ok _ _ _ _ _ (run_assign _ _ _ _ Hd)). simpl.
  apply Forall_insert; [exact Hu|]. apply (popitem_unique _ _ _ Hp).
  rewrite Forall_lookup in Hu. apply (Hu _ _ Hd).
Qed.

#[local] Hint Resolve keeps_unique_get_self keeps_unique_list_getitem
  keeps_unique_deref keeps_unique_open_read keeps_unique_open_write
  keeps_unique_properties_append keeps_unique_isComment_append
  keeps_unique_alloc_empty keeps_unique_alloc_pair keeps_unique_update_of
  keeps_unique_popitem_of : frame.

Lemma keeps_unique_run_call c : forall w, keeps_unique w (run_call c w).
Proof.
  destruct c; simpl.
  - change (respects keeps_unique (fread file_name)).
    unfold fread, fread_line. repeat frame_step.
  - change (respects keeps_unique fwrite).
    unfold fwrite, fwrite_entry, comment_line. repeat frame_step.
  - change (respects keeps_unique get_all_properties).
    unfold get_all_properties, get_all_properties_entry. repeat frame_step.
  - change (respects keeps_unique (get_property arg)).
    unfold get_property, get_property_entry, keys_of, getitem_of. repeat frame_step.
  - change (respects keeps_unique (set_property kv)).
    unfold set_property, set_property_arg, set_property_entry, keys_of.
    repeat frame_step.
Qed.

Lemma keeps_unique_init file_name : respects keeps_unique (__init__ file_name).
Proof.
  unfold __init__, fread, fread_line. apply respects_bind; [apply keeps_unique_trans| |].
  - intros w. apply keeps_unique_same_heap. reflexivity.
  - repeat frame_step.
Qed.

(** *** Lines of a file *)

Lemma append_cons a s1 s2 : String a s1 +:+ s2 = String a (s1 +:+ s2).
Proof. reflexivity. Qed.

Lemma append_empty s : "" +:+ s = s.
Proof. reflexivity. Qed.

Lemma append_assoc s1 s2 s3 : (s1 +:+ s2) +:+ s3 = s1 +:+ (s2 +:+ s3).
Proof.
  induction s1 as [|a s1 IH]; [reflexivity|]. rewrite !append_cons, IH. reflexivity.
Qed.

Lemma find_from_range c s i :
  PyStr.find_from c s i = -1 \/ i <= PyStr.find_from c s i.
Proof.
  revert i. induction s as [|a s IH]; intros i; simpl; [left; reflexivity|].
  destruct (Ascii.eqb a c); [right; lia|].
  destruct (IH (i + 1)) as [->|H]; [left; reflexivity | right; lia].
Qed.

Lemma find_from_occurs c s i :
  occurs c s = true -> i <= PyStr.find_from c s i.
Proof.
  revert i. induction s as [|a s IH]; intros i; simpl; [discriminate|].
  destruct (Ascii.eqb a c); [lia|]. intros H. specialize (IH (i + 1) H). lia.
Qed.

Lemma occurs_app c s1 s2 : occurs c (s1 +:+ s2) = occurs c s1 || occurs c s2.
Proof.
  induction s1 as [|a s1 IH]; [reflexivity|].
  rewrite append_cons. simpl. destruct (Ascii.eqb a c); [reflexivity | exact IH].
Qed.

Lemma replace_app c new s1 s2 :
  PyStr.replace c new (s1 +:+ s2) =
  PyStr.replace c new s1 +:+ PyStr.replace c new s2.
Proof.
  induction s1 as [|a s1 IH]; [reflexivity|].
  rewrite append_cons. simpl. destruct (Ascii.eqb a c); rewrite IH.
  - symmetry. apply append_assoc.
  - reflexivity.
Qed.

(** Taking out a character that is not there changes nothing. *)
Lemma replace_absent c s : occurs c s = false -> PyStr.replace c "" s = s.
Proof.
  induction s as [|a s IH]; simpl; [reflexivity|].
  destruct (Ascii.eqb a c); [discriminate|]. intros H. rewrite (IH H). reflexivity.
Qed.

Lemma append_empty_r s : s +:+ "" = s.
Proof. induction s as [|a s IH]; [reflexivity|]. rewrite append_cons, IH. reflexivity. Qed.

Lemma replace_line_end s :
  occurs PyStr.LF s = false -> PyStr.replace PyStr.LF "" (s +:+ PyStr.nl) = s.
Proof.
  intros H. rewrite replace_app, (replace_absent _ _ H). apply append_empty_r.
Qed.

(** [split] starts with the text before the first separator. *)
Lemma split_head c s : exists rest, PyStr.split c s = before c s :: rest.
Proof.
  induction s as [|a s [rest IH]]; simpl; [eauto|].
  destruct (Ascii.eqb a c); [eauto|]. rewrite IH. eauto.
Qed.

Lemma split_app_sep c s1 s2 :
  occurs c s1 = false ->
  PyStr.split c (s1 +:+ String c s2) = s1 :: PyStr.split c s2.
Proof.
  induction s1 as [|a s1 IH]; simpl.
  - intros _. rewrite ?append_empty. simpl. rewrite Ascii.eqb_refl. reflexivity.
  - destruct (Ascii.eqb a c) eqn:Hac; [discriminate|]. intros H.
    rewrite ?append_cons. simpl. rewrite ?Hac, (IH H). reflexivity.
Qed.

Lemma before_absent c s : occurs c s = false -> before c s = s.
Proof.
  induction s as [|a s IH]; simpl; [reflexivity|].
  destruct (Ascii.eqb a c); [discriminate|]. intros H. rewrite (IH H). reflexivity.
Qed.

(** A line that starts with [#] is stored as a comment: what is left of
    the line when every [#] is taken out. *)
Lemma fread_line_comment text w :
  occurs PyStr.LF text = false ->
  fread_line (String PyStr.hash (text +:+ PyStr.nl)) w =
  (Ok (), stored 1 (Str (PyStr.replace PyStr.hash "" text)) w).
Proof.
  intros Hlf. unfold fread_line. cbn [PyStr.find PyStr.find_from].
  rewrite Ascii.eqb_refl. cbn [Z.eqb PyStr.replace]. rewrite Ascii.eqb_refl.
  rewrite append_empty, replace_app.
  change (PyStr.replace PyStr.hash "" PyStr.nl) with PyStr.nl.
  rewrite replace_line_end; [reflexivity|].
  clear w. induction text as [|a text IH]; [reflexivity|].
  simpl in *. destruct (Ascii.eqb a PyStr.LF) eqn:Ha; [discriminate|].
  destruct (Ascii.eqb a PyStr.hash); simpl; rewrite ?Ha; auto.
Qed.

(** A comment without a further [#] is stored as it is, spaces
    included. *)
Lemma fread_line_comment_verbatim text w :
  occurs PyStr.LF text = false -> occurs PyStr.hash text = false ->
  fread_line (String PyStr.hash (text +:+ PyStr.nl)) w =
  (Ok (), stored 1 (Str text) w).
Proof.
  intros Hlf Hh. rewrite (fread_line_comment _ _ Hlf), (replace_absent _ _ Hh).
  reflexivity.
Qed.

(** A line [key=rest] whose key is not empty and does not start with [#]
    is stored as a new dictionary with the one pair of the key and the
    text of [rest] before its first [=]. *)
Lemma fread_line_pair a key rest w :
  Ascii.eqb a PyStr.hash = false -> occurs PyStr.equals (String a key) = false ->
  occurs PyStr.LF (String a key) = false -> occurs PyStr.LF rest = false ->
  fread_line (String a key +:+ String PyStr.equals (rest +:+ PyStr.nl)) w =
  (Ok (),
   stored 0 (Dict (length (heap w)))
     (mkWorld (self w)
              (heap w ++ [[(String a key, before PyStr.equals rest)]]) (fs w))).
Proof.
  intros Hhash Heq Hlfk Hlf. unfold fread_line.
  assert (Hfind1 : (PyStr.find PyStr.hash
            (String a key +:+ String PyStr.equals (rest +:+ PyStr.nl)) =? 0) = false).
  { rewrite append_cons. unfold PyStr.find. simpl. rewrite Hhash.
    destruct (find_from_range PyStr.hash
                (key +:+ String PyStr.equals (rest +:+ PyStr.nl)) (0 + 1))
      as [->|H]; [reflexivity | apply Z.eqb_neq; lia]. }
  assert (Hfind2 : (PyStr.find PyStr.equals
            (String a key +:+ String PyStr.equals (rest +:+ PyStr.nl)) >? 0) = true).
  { rewrite append_cons. unfold PyStr.find. simpl in Heq |- *.
    destruct (Ascii.eqb a PyStr.equals); [discriminate|].
    apply Z.gtb_lt.
    pose proof (find_from_occurs PyStr.equals
                  (key +:+ String PyStr.equals (rest +:+ PyStr.nl)) (0 + 1)) as H.
    rewrite occurs_app in H. simpl in H. rewrite orb_true_r in H.
    specialize (H eq_refl). lia. }
  rewrite Hfind1, Hfind2.
  assert (Hline : PyStr.replace PyStr.LF ""
            (String a key +:+ String PyStr.equals (rest +:+ PyStr.nl)) =
            String a key +:+ String PyStr.equals rest).
  { change (String PyStr.equals (rest +:+ PyStr.nl))
      with (String PyStr.equals rest +:+ PyStr.nl).
    rewrite replace_app, (replace_absent _ _ Hlfk), replace_line_end; [reflexivity|].
    simpl. exact Hlf. }
  rewrite Hline, (split_app_sep _ _ _ Heq).
  destruct (split_head PyStr.equals rest) as [more ->].
  reflexivity.
Qed.

(** When the text after the first [=] has no other, it is the value. *)
Lemma fread_line_pair_whole a key value w :
  Ascii.eqb a PyStr.hash = false -> occurs PyStr.equals (String a key) = false ->
  occurs PyStr.LF (String a key) = false -> occurs PyStr.LF value = false ->
  occurs PyStr.equals value = false ->
  fread_line (String a key +:+ String PyStr.equals (value +:+ PyStr.nl)) w =
  (Ok (),
   stored 0 (Dict (length (heap w)))
     (mkWorld (self w) (heap w ++ [[(String a key, value)]]) (fs w))).
Proof.
  intros Hhash Heq Hlfk Hlf Hv.
  rewrite (fread_line_pair _ _ _ _ Hhash Heq Hlfk Hlf), (before_absent _ _ Hv).
  reflexivity.
Qed.

(** What [fwrite] does at an entry with one pair: the line goes to the
    buffer, and [popitem] leaves the dictionary of the entry empty. *)
Lemma fwrite_entry_pops w buffer j l k v :
  wf w -> properties (self w) !! j = Some (Dict l) ->
  heap w !! l = Some [(k, v)] ->
  fwrite_entry buffer (Z.of_nat j) w =
  (Ok (buffer ++ [k +:+ "=" +:+ v +:+ PyStr.nl])%list,
   mkWorld (self w) (<[l := []]> (heap w)) (fs w)).
Proof.
  intros Hwf Hx Hd. pose proof (wf_flag _ _ _ Hwf Hx) as Hc.
  unfold fwrite_entry. rewrite run_bind, run_get_self.
  rewrite (run_bind_ok _ _ _ _ _ (run_list_getitem _ _ _ _ Hc)). cbn [flag_of Z.eqb negb].
  rewrite (run_bind_ok _ _ _ _ _ (run_list_getitem _ _ _ _ Hx)).
  rewrite (run_bind_ok _ _ _ _ _ (run_popitem_of l _ (k, v) [] w Hd eq_refl)).
  reflexivity.
Qed.

(** *** Calls with several arguments, and the empty dictionary *)

Lemma for_until_first_raise {B} (body : Z -> M (option B)) w (n i : nat) e w' :
  (i < n)%nat ->
  (forall j, (j < i)%nat -> body (Z.of_nat j) w = (Ok None, w)) ->
  body (Z.of_nat i) w = (Raise e, w') ->
  for_until (map Z.of_nat (seq 0 n)) body w = (Raise e, w').
Proof.
  intros Hi Hj Hb. rewrite (for_until_skip body w 0 n i); [|lia|intros; apply Hj; lia].
  apply (run_bind_raise _ _ _ _ _ Hb).
Qed.

Lemma first_Dict ps :
  Exists is_Dict ps ->
  exists i l, ps !! i = Some (Dict l) /\
              forall j, (j < i)%nat -> exists s, ps !! j = Some (Str s).
Proof.
  induction ps as [|x ps IH]; intros H; [inversion H|].
  destruct x as [s|l].
  - apply Exists_cons in H as [[]|H]. destruct (IH H) as (i & l & Hi & Hb).
    exists (S i), l. split; [exact Hi|]. intros [|j] Hj; [eauto|].
    apply Hb. lia.
  - exists 0%nat, l. split; [reflexivity|]. intros j Hj. lia.
Qed.

Lemma set_property_entry_comment w a j s :
  wf w -> properties (self w) !! j = Some (Str s) ->
  set_property_entry a (Z.of_nat j) w = (Ok None, w).
Proof.
  intros Hwf Hx. pose proof (wf_flag _ _ _ Hwf Hx) as Hc.
  unfold set_property_entry. rewrite run_bind, run_get_self.
  rewrite (run_bind_ok _ _ _ _ _ (run_list_getitem _ _ _ _ Hc)). reflexivity.
Qed.

Lemma set_property_entry_empty w a j l :
  wf w -> heap w !! a = Some [] -> properties (self w) !! j = Some (Dict l) ->
  set_property_entry a (Z.of_nat j) w = (Raise IndexError, w).
Proof.
  intros Hwf Ha Hx. pose proof (wf_flag _ _ _ Hwf Hx) as Hc.
  unfold set_property_entry. rewrite run_bind, run_get_self.
  rewrite (run_bind_ok _ _ _ _ _ (run_list_getitem _ _ _ _ Hc)). cbn [flag_of Z.eqb].
  rewrite (run_bind_ok _ _ _ _ _ (run_deref _ _ _ Ha)). reflexivity.
Qed.

(** The empty dictionary as an argument: [list(arg)[0]] raises as soon as
    the loop comes to a dictionary; with comments only, the loop runs to
    its end and the argument is appended. *)
Lemma set_property_arg_empty w a :
  wf w -> heap w !! a = Some [] ->
  (Exists is_Dict (properties (self w)) ->
   set_property_arg (Dict a) w = (Raise IndexError, w)) /\
  (Forall is_Str (properties (self w)) ->
   set_property_arg (Dict a) w = (Ok (), stored 0 (Dict a) w)).
Proof.
  intros Hwf Ha. split.
  - intros (i & l & Hi & Hb)%first_Dict.
    unfold set_property_arg. rewrite run_bind, run_get_self, range_len.
    rewrite (run_bind_raise _ _ _ IndexError w); [reflexivity|].
    apply for_until_first_raise with (i := i).
    + apply (lookup_lt_Some _ _ _ Hi).
    + intros j Hj. destruct (Hb j Hj) as [s Hs].
      apply (set_property_entry_comment _ _ _ _ Hwf Hs).
    + apply (set_property_entry_empty _ _ _ _ Hwf Ha Hi).
  - intros Hall. unfold set_property_arg. rewrite run_bind, run_get_self, range_len.
    rewrite (run_bind_ok _ _ _ None w); [reflexivity|].
    apply for_until_all_none. intros j Hj.
    destruct (lookup_lt_is_Some_2 (properties (self w)) j ltac:(lia)) as [x Hx].
    rewrite Forall_lookup in Hall. pose proof (Hall _ _ Hx) as Hs.
    destruct x as [s|l]; [|destruct Hs].
    apply (set_property_entry_comment _ _ _ _ Hwf Hx).
Qed.

Lemma run_set_property_empty w a :
  wf w -> heap w !! a = Some [] ->
  (Exists is_Dict (properties (self w)) ->
   set_property [Dict a] w = (Raise IndexError, w)) /\
  (Forall is_Str (properties (self w)) ->
   set_property [Dict a] w = (Ok 1, stored 0 (Dict a) w)).
Proof.
  intros Hwf Ha. destruct (set_property_arg_empty w a Hwf Ha) as [H1 H2].
  split; intros H; rewrite run_set_property_single;
    [rewrite (H1 H) | rewrite (H2 H)]; reflexivity.
Qed.




Lemma exec_set_property_single x w :
  exec (set_property [x]) w = exec (set_property_arg x) w.
Proof.
  unfold exec. rewrite run_set_property_single.
  destruct (set_property_arg x w) as [[[]|e] w']; reflexivity.
Qed.

(** A call whose first argument is a dictionary of the kind [Q]: the call
    with that argument returns, the call with all of them goes on from
    where it leaves, and there the world is well-formed and the other
    arguments are of the kind [Q], as before. *)
Lemma set_property_cons_step (Q : dict -> Prop)
    (Q_nonempty : forall d, Q d -> d <> [])
    (Q_update : forall d da k ks,
        Q d -> Q da -> PyDict.keys da = k :: ks -> k ∈ PyDict.keys d ->
        Q (PyDict.update d da))
    w a rest :
  wf w -> Forall (arg_ok Q (heap w)) (Dict a :: rest) ->
  eval (set_property [Dict a]) w = Ok 1 /\
  wf (exec (set_property [Dict a]) w) /\
  Forall (arg_ok Q (heap (exec (set_property [Dict a]) w))) rest /\
  exec (set_property (Dict a :: rest)) w =
    exec (set_property rest) (exec (set_property [Dict a]) w).
Proof.
  intros Hwf Hok. apply Forall_cons in Hok as [Ha Hok].
  destruct (arg_ok_Dict Q _ _ Ha) as (da & Hda & HQ).
  assert (He : eval (set_property [Dict a]) w = Ok 1).
  { rewrite (run_set_property Q Q_nonempty Q_update [Dict a] w Hwf);
      [|repeat constructor; exact Ha].
    rewrite decide_False; [reflexivity|].
    intros H. inversion H as [? ? Hs|? ? Hs]; [exact Hs | inversion Hs]. }
  pose proof (exec_set_property_single (Dict a) w) as Hex.
  split; [exact He|]. split; [|split].
  - rewrite Hex. apply wf_set_property_arg; [exact Hwf | apply (lookup_lt_Some _ _ _ Hda)].
  - rewrite Hex. eapply Forall_impl; [exact Hok|]. intros y Hy.
    apply (arg_ok_step Q Q_nonempty Q_update w a da y Hwf Hda HQ Hy).
  - apply exec_set_property_cons, He.
Qed.


(** A pair does not give a key a second entry. *)
Lemma set_property_single_holders w a k v :
  wf w -> heap w !! a = Some [(k, v)] ->
  forall k',
    holders (exec (set_property [Dict a]) w) k' = holders w k' \/
    (holders w k' = [] /\
     holders (exec (set_property [Dict a]) w) k' = [length (properties (self w))]).
Proof.
  intros Hwf Ha k'. unfold exec. rewrite run_set_property_single.
  destruct (set_property_arg_cases w a [(k, v)] k [] Hwf Ha eq_refl)
    as [(i0 & l0 & d0 & Hi0 & Hx0 & Hd0 & Hin0 & ->)|[Hno ->]]; simpl.
  - left. apply holders_same_keys; [reflexivity|]. intros l. simpl.
    rewrite list_lookup_insert. case_decide as Hl; [|reflexivity].
    destruct Hl as [<- _]. rewrite Hd0. simpl. f_equal.
    apply keys_set_in, Hin0.
  - rewrite (holders_appended w a [(k, v)] k' _ Hwf Ha). simpl.
    case_decide as Hk.
    + right. apply list_elem_of_singleton in Hk as ->.
      rewrite (holders_nil _ _ Hno). split; reflexivity.
    + left. apply app_nil_r.
Qed.

(** Nor does a call with several pairs. *)
Lemma set_property_holders kv :
  forall w, wf w -> Forall (arg_ok single_key (heap w)) kv -> Forall is_Dict kv ->
  forall k',
    holders (exec (set_property kv) w) k' = holders w k' \/
    (holders w k' = [] /\ exists j, holders (exec (set_property kv) w) k' = [j]).
Proof.
  induction kv as [|x kv IH]; intros w Hwf Hok Hd k'; [left; reflexivity|].
  destruct x as [s|a]; [apply Forall_cons in Hd as [[] _]|].
  apply Forall_cons in Hd as [_ Hd].
  destruct (set_property_cons_step single_key single_key_nonempty single_key_update
              w a kv Hwf Hok) as (_ & Hwf1 & Hok1 & ->).
  apply Forall_cons in Hok as [Ha _].
  destruct (arg_ok_Dict single_key _ _ Ha) as (da & Hda & (k & v & ->)).
  destruct (set_property_single_holders w a k v Hwf Hda k') as [H1|[H0 H1]];
    destruct (IH _ Hwf1 Hok1 Hd k') as [H2|[H2 [j Hj]]].
  - left. congruence.
  - right. split; [congruence | eauto].
  - right. split; [exact H0|]. exists (length (properties (self w))). congruence.
  - rewrite H1 in H2. discriminate.
Qed.

(** ** The claims *)

(** C1.  On the instance loaded from the lines [# hello] and [foo=bar],
    [fwrite] returns, and the entry of [foo] is left with an empty
    dictionary: [get_property] found [bar] before and raises after, the
    dictionary of [get_all_properties] had [foo] before and has not
    after, and a second [fwrite] raises [KeyError]. *)
Theorem fwrite_empties_the_dictionaries :
  entries loaded = [Some (Comment " hello"); Some (KeyValue [("foo", "bar")])] /\
  eval fwrite loaded = Ok () /\
  entries (exec fwrite loaded) = [Some (Comment " hello"); Some (KeyValue [])] /\
  eval (get_property "foo") loaded = Ok "bar" /\
  eval (get_property "foo") (exec fwrite loaded) = Raise IndexError /\
  eval (r ← get_all_properties; getitem_of r "foo") loaded = Ok "bar" /\
  eval (r ← get_all_properties; getitem_of r "foo") (exec fwrite loaded) =
    Raise KeyError /\
  eval fwrite (exec fwrite loaded) = Raise KeyError.
Proof. vm_compute. repeat split. Qed.

(** C2.  The line [k=v1=v2] is stored as the pair of [k] and [v1], not of
    [k] and [v1=v2]: [split] cuts at every [=], and only the first two
    parts are used. *)
Theorem fread_cuts_value_at_second_equals :
  entries (exec (__init__ "f") (one_file "f" ("k=v1=v2" +:+ PyStr.nl))) =
    [Some (KeyValue [("k", "v1")])] /\
  entries (exec (__init__ "f") (one_file "f" ("k=v1=v2" +:+ PyStr.nl))) <>
    [Some (KeyValue [("k", "v1=v2")])].
Proof. split; vm_compute; [reflexivity | discriminate]. Qed.

(** C3, as stated: the comment is not stored as [hello], and the file is
    not written back as it was. *)
Lemma comment_roundtrip_not_identical :
  entries loaded <> [Some (Comment "hello"); Some (KeyValue [("foo", "bar")])] /\
  fs (exec fwrite loaded) !! "app.properties" <> Some sample_text.
Proof. split; vm_compute; discriminate. Qed.

(** C3, amended.  The lines [# hello] and [foo=bar] load as the comment
    [ hello], with the space that followed the [#], and the pair of [foo]
    and [bar]; [fwrite] writes the comment with a second space. *)
Theorem comment_roundtrip_adds_space :
  entries loaded = [Some (Comment " hello"); Some (KeyValue [("foo", "bar")])] /\
  eval fwrite loaded = Ok () /\
  fs (exec fwrite loaded) !! "app.properties" =
    Some ("#  hello" +:+ PyStr.nl +:+ "foo=bar" +:+ PyStr.nl).
Proof. vm_compute. repeat split. Qed.

(** C4.  With no entry, [fwrite] raises [IndexError] at [buffer[-1]] before
    it opens the file, which stays as it was; a file without lines loads as
    such an instance. *)
Theorem fwrite_without_entries_raises :
  (forall file_name flags h files,
     fwrite (mkWorld (mkProperties file_name flags []) h files) =
     (Raise IndexError, mkWorld (mkProperties file_name flags []) h files)) /\
  properties (self (exec (__init__ "f") (one_file "f" ""))) = [] /\
  eval fwrite (exec (__init__ "f") (one_file "f" "")) = Raise IndexError /\
  fs (exec fwrite (exec (__init__ "f") (one_file "f" ""))) !! "f" = Some "".
Proof. split; [reflexivity | vm_compute; repeat split]. Qed.




(** C6.  The comment line [#a #b  c] is stored as [a b  c], not as
    [a #b  c]: the spaces stay, and [replace] takes out the second [#] with
    the first. *)
Theorem fread_comment_loses_every_hash :
  entries (exec (__init__ "f") (one_file "f" ("#a #b  c" +:+ PyStr.nl))) =
    [Some (Comment "a b  c")] /\
  entries (exec (__init__ "f") (one_file "f" ("#a #b  c" +:+ PyStr.nl))) <>
    [Some (Comment "a #b  c")].
Proof. split; vm_compute; [reflexivity | discriminate]. Qed.

(** C7.  A call of [set_property] with one dictionary of one pair [k: v]
    returns [1]; if some entry has the key [k], the first such entry gets
    the value [v] in place, with the keys it had, and the two lists stay as
    they are (so their length does not change); if no entry has the key, the
    argument is appended as the last entry, with the flag [0], and nothing
    else changes; for every key, the entries that have it afterwards are
    those that had it before, or the key had no entry and has the one new
    entry.  A call with any number of one-pair dictionaries returns their
    number, and gives no key that had an entry another one, and no key more
    than one; it does what the call with the first pair does and then what
    the call with the other pairs does, on an instance that is well-formed
    and with one-pair dictionaries again, so that all of this holds of each
    pair in turn. *)
Theorem set_property_updates_first_or_appends w a k v :
  wf w -> heap w !! a = Some [(k, v)] ->
  let w' := exec (set_property [Dict a]) w in
  eval (set_property [Dict a]) w = Ok 1 /\
  (forall i l d,
     first_holder w k i -> properties (self w) !! i = Some (Dict l) ->
     heap w !! l = Some d ->
     self w' = self w /\ fs w' = fs w /\
     heap w' = <[l := PyDict.set k v d]> (heap w) /\
     PyDict.get k (PyDict.set k v d) = Some v /\
     PyDict.keys (PyDict.set k v d) = PyDict.keys d) /\
  (no_holder w k ->
     properties (self w') = (properties (self w) ++ [Dict a])%list /\
     _isComment (self w') = (_isComment (self w) ++ [0])%list /\
     heap w' = heap w /\ fs w' = fs w) /\
  (forall k',
     holders w' k' = holders w k' \/
     (holders w k' = [] /\ holders w' k' = [length (properties (self w))])) /\
  (forall kv,
     Forall (arg_ok single_key (heap w)) kv -> Forall is_Dict kv ->
     eval (set_property kv) w = Ok (len kv) /\
     (forall k',
        holders (exec (set_property kv) w) k' = holders w k' \/
        (holders w k' = [] /\
         exists j, holders (exec (set_property kv) w) k' = [j])) /\
     wf w' /\ Forall (arg_ok single_key (heap w')) kv /\
     eval (set_property (Dict a :: kv)) w = Ok (len (Dict a :: kv)) /\
     exec (set_property (Dict a :: kv)) w = exec (set_property kv) w').
Proof.
  intros Hwf Ha w'. subst w'.
  assert (Hok : arg_ok single_key (heap w) (Dict a)).
  { unfold arg_ok, dict in *. rewrite Ha. exists k, v. reflexivity. }
  split; [|split; [|split; [|split]]].
  - apply (set_property_count w [Dict a] Hwf); repeat constructor; exact Hok.
  - intros i l d Hi Hx Hd. unfold exec. rewrite run_set_property_single.
    destruct (set_property_arg_cases w a [(k, v)] k [] Hwf Ha eq_refl)
      as [(i0 & l0 & d0 & Hi0 & Hx0 & Hd0 & Hin0 & ->)|[Hno ->]]; simpl.
    + pose proof (first_holder_unique _ _ _ _ Hi Hi0) as ->.
      assert (l = l0) as -> by congruence. assert (d = d0) as -> by congruence.
      split; [reflexivity|]. split; [reflexivity|]. split; [reflexivity|].
      split; [|apply keys_set_in, Hin0].
      rewrite get_set, String.eqb_refl. reflexivity.
    + rewrite no_holder_spec in Hno. destruct (Hno i (proj1 Hi)).
  - intros Hno. unfold exec. rewrite run_set_property_single.
    destruct (set_property_arg_cases w a [(k, v)] k [] Hwf Ha eq_refl)
      as [(i0 & l0 & d0 & Hi0 & Hx0 & Hd0 & Hin0 & ->)|[_ ->]]; simpl.
    + rewrite no_holder_spec in Hno. destruct (Hno i0 (proj1 Hi0)).
    + split; [reflexivity|]. split; [reflexivity|]. split; reflexivity.
  - apply (set_property_single_holders w a k v Hwf Ha).
  - intros kv Hkv Hd.
    destruct (set_property_cons_step single_key single_key_nonempty single_key_update
                w a kv Hwf ltac:(constructor; [exact Hok | exact Hkv]))
      as (_ & Hwf1 & Hok1 & Hexec).
    split; [apply (set_property_count w kv Hwf Hkv Hd)|].
    split; [apply (set_property_holders kv w Hwf Hkv Hd)|].
    split; [exact Hwf1|]. split; [exact Hok1|]. split; [|exact Hexec].
    apply (set_property_count w (Dict a :: kv) Hwf);
      constructor; [exact Hok | exact Hkv | exact I | exact Hd].
Qed.

(** The caller sets [foo] to [baz] on the loaded file: the entry of [foo]
    is changed where it stands; the caller sets [new] to [1]: the
    dictionary of the caller becomes the third entry; the caller sets both
    in one call: the count is [2], and both have happened. *)
Lemma set_property_updates_first_or_appends_witness :
  wf (loaded_with [[("foo", "baz")]; [("new", "1")]]) /\
  first_holder (loaded_with [[("foo", "baz")]; [("new", "1")]]) "foo" 1 /\
  heap (exec (set_property [Dict 1]) (loaded_with [[("foo", "baz")]; [("new", "1")]])) =
    <[0%nat := PyDict.set "foo" "baz" [("foo", "bar")]]>
      (heap (loaded_with [[("foo", "baz")]; [("new", "1")]])) /\
  no_holder (loaded_with [[("foo", "baz")]; [("new", "1")]]) "new" /\
  properties (self (exec (set_property [Dict 2])
                         (loaded_with [[("foo", "baz")]; [("new", "1")]]))) =
    [Str " hello"; Dict 0; Dict 2] /\
  eval (set_property [Dict 1; Dict 2])
       (loaded_with [[("foo", "baz")]; [("new", "1")]]) = Ok 2 /\
  entries (exec (set_property [Dict 1; Dict 2])
                (loaded_with [[("foo", "baz")]; [("new", "1")]])) =
    [Some (Comment " hello"); Some (KeyValue [("foo", "baz")]);
     Some (KeyValue [("new", "1")])].
Proof.
  assert (Hwf : wf (loaded_with [[("foo", "baz")]; [("new", "1")]]))
    by (vm_compute; repeat constructor).
  assert (Hfirst : first_holder (loaded_with [[("foo", "baz")]; [("new", "1")]]) "foo" 1).
  { split; [vm_compute; repeat constructor|].
    repeat constructor. vm_compute. tauto. }
  assert (Hno : no_holder (loaded_with [[("foo", "baz")]; [("new", "1")]]) "new").
  { repeat constructor; vm_compute; [tauto|].
    intros H; inversion H as [|? ? ? H']; inversion H'. }
  destruct (set_property_updates_first_or_appends
              (loaded_with [[("foo", "baz")]; [("new", "1")]]) 1 "foo" "baz" Hwf eq_refl)
    as (_ & Hfound & _ & _ & Hmany).
  destruct (set_property_updates_first_or_appends
              (loaded_with [[("foo", "baz")]; [("new", "1")]]) 2 "new" "1" Hwf eq_refl)
    as (_ & _ & Hnew & _).
  destruct (Hmany [Dict 2]) as (_ & _ & _ & _ & Hcount & Hexec).
  { repeat constructor; vm_compute; eauto. }
  { repeat constructor. }
  split; [exact Hwf|]. split; [exact Hfirst|].
  split; [apply (Hfound 1%nat 0%nat [("foo", "bar")] Hfirst eq_refl eq_refl)|].
  split; [exact Hno|]. split; [apply (Hnew Hno)|].
  split; [exact Hcount|].
  rewrite Hexec. vm_compute. reflexivity.
Defined.

(** C8.  [get_property] returns the value that the first entry with the key
    has for it and changes nothing; it raises [IndexError], the lookup miss
    of the class, when no entry has the key; and on the entries [a: 1],
    [a: 2] it returns [1] where [get_all_properties] maps [a] to [2]. *)
Theorem get_property_first_match w arg :
  wf w ->
  (forall i l d v,
     first_holder w arg i -> properties (self w) !! i = Some (Dict l) ->
     heap w !! l = Some d -> PyDict.get arg d = Some v ->
     get_property arg w = (Ok v, w)) /\
  (no_holder w arg -> get_property arg w = (Raise IndexError, w)) /\
  (entries twice = [Some (KeyValue [("a", "1")]); Some (KeyValue [("a", "2")])] /\
   eval (get_property "a") twice = Ok "1" /\
   eval (r ← get_all_properties; getitem_of r "a") twice = Ok "2").
Proof.
  intros Hwf. split; [|split].
  - intros i l d v. apply get_property_found, Hwf.
  - apply get_property_missing, Hwf.
  - vm_compute. repeat split.
Qed.

(** On the entries [a: 1], [a: 2]: the key [a] is found at the first, the
    key [b] nowhere. *)
Lemma get_property_first_match_witness :
  wf twice /\ first_holder twice "a" 0 /\
  get_property "a" twice = (Ok "1", twice) /\
  no_holder twice "b" /\
  get_property "b" twice = (Raise IndexError, twice).
Proof.
  assert (Hwf : wf twice) by (vm_compute; repeat constructor).
  assert (Hfirst : first_holder twice "a" 0).
  { split; [vm_compute; repeat constructor | constructor]. }
  assert (Hno : no_holder twice "b").
  { repeat constructor; vm_compute; intros H; inversion H as [|? ? ? H']; inversion H'. }
  destruct (get_property_first_match twice "a" Hwf) as (Hfound & _ & _).
  destruct (get_property_first_match twice "b" Hwf) as (_ & Hmiss & _).
  split; [exact Hwf|]. split; [exact Hfirst|].
  split; [apply (Hfound 0%nat 0%nat [("a", "1")] "1" Hfirst eq_refl eq_refl eq_refl)|].
  split; [exact Hno | apply (Hmiss Hno)].
Defined.

(** C9.  [get_all_properties] returns a new dictionary, one that was not on
    the heap and that no entry refers to, and leaves the instance as it
    is; the dictionary is built from the empty one by [update] with the
    dictionary of each entry in order, comments left out: a key maps to what
    the last entry that has it maps it to, and a key that no entry has is
    not in it; on the entries [a: 1], [a: 2] the key [a] maps to [2]. *)
Theorem get_all_properties_last_wins w :
  wf w -> Forall unique_keys (heap w) ->
  let m := fold_left PyDict.update (kv_dicts w) [] in
  get_all_properties w =
    (Ok (Dict (length (heap w))),
     mkWorld (self w) (heap w ++ [m]) (fs w)) /\
  (Dict (length (heap w)) ∉ properties (self w)) /\
  (forall k i l d,
     last_holder w k i -> properties (self w) !! i = Some (Dict l) ->
     heap w !! l = Some d -> PyDict.get k m = PyDict.get k d) /\
  (forall k, no_holder w k -> PyDict.get k m = None) /\
  (entries twice = [Some (KeyValue [("a", "1")]); Some (KeyValue [("a", "2")])] /\
   eval (r ← get_all_properties; getitem_of r "a") twice = Ok "2").
Proof.
  intros Hwf Hu m. split; [|split; [|split; [|split]]].
  - apply run_get_all_properties, Hwf.
  - intros Hin. destruct Hwf as [_ V]. rewrite Forall_forall in V.
    specialize (V _ Hin). simpl in V. lia.
  - intros k i l d. apply get_all_last, Hu.
  - intros k. apply get_all_none, Hu.
  - vm_compute. repeat split.
Qed.

(** On the entries [a: 1], [a: 2]: the new dictionary is the third object
    on the heap and maps [a] to [2]. *)
Lemma get_all_properties_last_wins_witness :
  wf twice /\ Forall unique_keys (heap twice) /\ last_holder twice "a" 1 /\
  get_all_properties twice =
    (Ok (Dict 2), mkWorld (self twice) (heap twice ++ [[("a", "2")]]) (fs twice)) /\
  PyDict.get "a" (fold_left PyDict.update (kv_dicts twice) []) = Some "2".
Proof.
  assert (Hwf : wf twice) by (vm_compute; repeat constructor).
  assert (Hu : Forall unique_keys (heap twice)).
  { repeat constructor; intros H; inversion H. }
  assert (Hlast : last_holder twice "a" 1).
  { split; [vm_compute; repeat constructor | constructor]. }
  destruct (get_all_properties_last_wins twice Hwf Hu) as (Hrun & _ & Hk & _).
  split; [exact Hwf|]. split; [exact Hu|]. split; [exact Hlast|].
  split; [exact Hrun|].
  apply (Hk "a" 1%nat 1%nat [("a", "2")] Hlast eq_refl eq_refl).
Defined.

(** C10.  In every world that a program can reach, after the constructor
    and after every call of [fread], [set_property], [fwrite],
    [get_property] and [get_all_properties], whether it returned or raised,
    the lists [_isComment] and [properties] have the same length, and at
    every index the flag is [1] exactly when the element is a string and [0]
    exactly when it is a dictionary. *)
Theorem invariant_reachable w : reachable w -> invariant (self w).
Proof. intros H. apply parallel_invariant, (reachable_wf w H). Qed.

(** The loaded file, a call of [set_property] that raises at its second
    argument, and a call of [fwrite]. *)
Lemma invariant_reachable_witness :
  reachable (run_call CallFwrite
               (run_call (CallSet [Dict 1; Str "x"; Dict 2])
                  (loaded_with [[("foo", "baz")]; [("new", "1")]]))) /\
  invariant (self (run_call CallFwrite
               (run_call (CallSet [Dict 1; Str "x"; Dict 2])
                  (loaded_with [[("foo", "baz")]; [("new", "1")]])))).
Proof.
  assert (H : reachable (run_call CallFwrite
               (run_call (CallSet [Dict 1; Str "x"; Dict 2])
                  (loaded_with [[("foo", "baz")]; [("new", "1")]])))).
  { apply reach_call; [|exact I].
    apply reach_call; [|repeat constructor].
    apply (reach_env loaded); [apply reach_init|]. rewrite length_app. lia. }
  split; [exact H | apply (invariant_reachable _ H)].
Defined.

(** ** Further properties of the class *)

(** *** Which files a method touches *)

Lemma same_fs_refl w : same_fs w w.
Proof. reflexivity. Qed.

Lemma same_fs_trans w1 w2 w3 : same_fs w1 w2 -> same_fs w2 w3 -> same_fs w1 w3.
Proof. unfold same_fs. congruence. Qed.

Lemma calm_refl w : calm w w.
Proof. split; reflexivity. Qed.

Lemma calm_trans w1 w2 w3 : calm w1 w2 -> calm w2 w3 -> calm w1 w3.
Proof. intros [S1 F1] [S2 F2]. split; congruence. Qed.

Lemma own_file_refl w : own_file w w.
Proof. split; [reflexivity | auto]. Qed.

Lemma own_file_trans w1 w2 w3 : own_file w1 w2 -> own_file w2 w3 -> own_file w1 w3.
Proof.
  intros [S1 F1] [S2 F2]. split; [congruence|].
  intros g Hg. rewrite F2, F1; [reflexivity | exact Hg | rewrite S1; exact Hg].
Qed.

Ltac files_side :=
  first [ exact same_fs_refl | exact same_fs_trans
        | exact calm_refl | exact calm_trans
        | exact own_file_refl | exact own_file_trans ].

Ltac files_step :=
  first [ files_side
        | solve [auto with files]
        | match goal with |- forall _, _ => intro end
        | apply respects_bind
        | apply respects_ret
        | apply respects_raise
        | apply respects_for_each
        | apply respects_for_until
        | apply respects_for_fold
        | match goal with |- respects _ (if ?b then _ else _) => destruct b end
        | match goal with |- respects _ (match ?x with _ => _ end) => destruct x end ].

Create HintDb files.

Lemma calm_list_getitem {A} (l : list A) i : respects calm (list_getitem l i).
Proof.
  intros w. unfold list_getitem, exec.
  destruct (_ <? 0); [apply calm_refl|]. destruct (l !! _); apply calm_refl.
Qed.

Lemma calm_deref l : respects calm (deref l).
Proof. intros w. unfold deref, exec. destruct (heap w !! l); apply calm_refl. Qed.

Lemma calm_assign l d : respects calm (assign l d).
Proof.
  intros w. unfold assign, exec. rewrite run_bind. unfold deref.
  destruct (heap w !! l); split; reflexivity.
Qed.

Lemma calm_alloc d : respects calm (alloc d).
Proof. intros w. split; reflexivity. Qed.

Lemma calm_open_read f : respects calm (open_read f).
Proof.
  intros w. unfold open_read, exec.
  destruct (String.eqb f ""), (fs w !! f); apply calm_refl.
Qed.

#[local] Hint Resolve calm_list_getitem calm_deref calm_assign calm_alloc
  calm_open_read : files.

Lemma calm_keys_of x : respects calm (keys_of x).
Proof. unfold keys_of. repeat files_step. Qed.

Lemma calm_getitem_of x k : respects calm (getitem_of x k).
Proof. unfold getitem_of. repeat files_step. Qed.

Lemma calm_update_of x arg : respects calm (update_of x arg).
Proof. unfold update_of. repeat files_step. Qed.

Lemma calm_popitem_of x : respects calm (popitem_of x).
Proof. unfold popitem_of. repeat files_step. Qed.

Lemma calm_comment_line x : respects calm (comment_line x).
Proof. unfold comment_line. repeat files_step. Qed.

#[local] Hint Resolve calm_keys_of calm_getitem_of calm_update_of
  calm_popitem_of calm_comment_line : files.

Lemma calm_fwrite_entry buffer i : respects calm (fwrite_entry buffer i).
Proof. unfold fwrite_entry. repeat files_step. Qed.

Lemma calm_get_property arg : respects calm (get_property arg).
Proof. unfold get_property, get_property_entry. repeat files_step. Qed.

Lemma calm_get_all_properties : respects calm get_all_properties.
Proof. unfold get_all_properties, get_all_properties_entry. repeat files_step. Qed.

Lemma respects_calm_same_fs {A} (c : M A) : respects calm c -> respects same_fs c.
Proof. intros H w. apply H. Qed.

Lemma same_fs_properties_append x : respects same_fs (properties_append x).
Proof. intros w. reflexivity. Qed.

Lemma same_fs_isComment_append c : respects same_fs (isComment_append c).
Proof. intros w. reflexivity. Qed.

#[local] Hint Resolve respects_calm_same_fs same_fs_properties_append
  same_fs_isComment_append calm_get_property calm_get_all_properties
  calm_fwrite_entry : files.

Lemma same_fs_fread file_name : respects same_fs (fread file_name).
Proof. unfold fread, fread_line. repeat files_step. Qed.

Lemma same_fs_init file_name : respects same_fs (__init__ file_name).
Proof.
  unfold __init__. apply respects_bind; [exact same_fs_trans | | intros _].
  - intros w. reflexivity.
  - apply respects_bind; [exact same_fs_trans | apply same_fs_fread | repeat files_step].
Qed.

Lemma same_fs_set_property kv : respects same_fs (set_property kv).
Proof. unfold set_property, set_property_arg, set_property_entry. repeat files_step. Qed.

(** X1.  Only [fwrite] writes: the constructor and every call of [fread],
    [get_all_properties], [get_property] and [set_property] leave every
    file as it is, whether they return or raise. *)
Theorem only_fwrite_writes :
  (forall file_name w, fs (exec (__init__ file_name) w) = fs w) /\
  (forall file_name w, fs (exec (fread file_name) w) = fs w) /\
  (forall w, fs (exec get_all_properties w) = fs w) /\
  (forall arg w, fs (exec (get_property arg) w) = fs w) /\
  (forall kv w, fs (exec (set_property kv) w) = fs w).
Proof.
  split; [|split; [|split; [|split]]].
  - intros f w. apply same_fs_init.
  - intros f w. apply same_fs_fread.
  - intros w. apply calm_get_all_properties.
  - intros arg w. apply calm_get_property.
  - intros kv w. apply same_fs_set_property.
Qed.

Lemma calm_own_file w w' : calm w w' -> own_file w w'.
Proof. intros [S F]. split; [exact S|]. intros g _. rewrite F. reflexivity. Qed.

Lemma respects_calm_own_file {A} (c : M A) : respects calm c -> respects own_file c.
Proof. intros H w. apply calm_own_file, H. Qed.

Lemma own_file_open_write buffer :
  respects own_file (s ← get_self; open_write (fileName s) buffer).
Proof.
  intros w. unfold exec. rewrite run_bind, run_get_self. unfold open_write.
  destruct (String.eqb (fileName (self w)) ""); [apply own_file_refl|].
  split; [reflexivity|]. intros g Hg. simpl. apply lookup_insert_ne. congruence.
Qed.

Lemma calm_fwrite_loop xs buffer :
  respects calm (for_fold xs buffer fwrite_entry).
Proof. repeat files_step. Qed.

(** X2.  [fwrite] writes no file but the one the instance is bound to. *)
Theorem fwrite_writes_own_file_only w g :
  g <> fileName (self w) -> fs (exec fwrite w) !! g = fs w !! g.
Proof.
  assert (H : respects own_file fwrite).
  { unfold fwrite. apply respects_bind; [exact own_file_trans | |intros s].
    - apply respects_calm_own_file. intros w0. apply calm_refl.
    - apply respects_bind; [exact own_file_trans | |intros buffer].
      + apply respects_calm_own_file, calm_fwrite_loop.
      + apply respects_bind; [exact own_file_trans | |intros _].
        * apply respects_calm_own_file, calm_list_getitem.
        * apply own_file_open_write. }
  apply (H w).
Qed.

Lemma fwrite_writes_own_file_only_witness :
  "other.properties" <> fileName (self loaded) /\
  fs (exec fwrite loaded) !! "other.properties" = fs loaded !! "other.properties".
Proof.
  assert (H : "other.properties" <> fileName (self loaded)) by (vm_compute; discriminate).
  split; [exact H | apply (fwrite_writes_own_file_only loaded _ H)].
Defined.

(** X3.  [fwrite] makes all its lines and evaluates [buffer[-1]] before it
    opens the file, and that part writes nothing.  An exception raised
    there is the exception of [fwrite], and every file is then as it was;
    when that part returns its lines, all that is left of [fwrite] is to
    write them to the file of the instance. *)
Theorem fwrite_raises_before_opening w :
  fs (exec fwrite_buffer w) = fs w /\
  (forall e,
     eval fwrite_buffer w = Raise e ->
     fwrite w = (Raise e, exec fwrite_buffer w) /\ fs (exec fwrite w) = fs w) /\
  (forall buffer,
     eval fwrite_buffer w = Ok buffer ->
     fwrite w = open_write (fileName (self w)) buffer (exec fwrite_buffer w)).
Proof.
  unfold eval, exec, fwrite, fwrite_buffer. rewrite !run_bind, !run_get_self.
  rewrite !run_bind.
  pose proof (calm_fwrite_loop (range (len (properties (self w)))) [] w) as [Hs Hfs].
  unfold exec in Hs, Hfs.
  destruct (for_fold _ _ _ w) as [[buffer|e1] w1]; cbn [fst snd] in *.
  - rewrite !run_bind.
    pose proof (calm_list_getitem buffer (-1) w1) as [Hs2 Hfs2]. unfold exec in Hs2, Hfs2.
    destruct (list_getitem buffer (-1) w1) as [[x|e2] w2]; cbn [fst snd] in *.
    + assert (Hm : (mret buffer : M (list string)) w2 = (Ok buffer, w2)) by reflexivity.
      rewrite Hm. cbn [fst snd].
      split; [congruence|]. split; [discriminate|].
      intros b Hb. injection Hb as <-. rewrite run_bind, run_get_self.
      rewrite Hs2, Hs. reflexivity.
    + split; [congruence|]. split; [|discriminate].
      intros e He. injection He as <-. split; [reflexivity | congruence].
  - split; [exact Hfs|]. split; [|discriminate].
    intros e He. injection He as <-. split; [reflexivity | exact Hfs].
Qed.

(** *** More about [set_property] *)

Lemma for_each_app {A} (xs ys : list A) body w :
  for_each (xs ++ ys) body w = (for_each xs body;; for_each ys body) w.
Proof.
  revert w. induction xs as [|x xs IH]; intros w; simpl.
  - reflexivity.
  - rewrite !run_bind. destruct (body x w) as [[[]|e] w1]; [|reflexivity].
    rewrite IH, run_bind. reflexivity.
Qed.

Lemma run_set_property_loop kv w :
  set_property kv w =
  match for_each kv set_property_arg w with
  | (Ok _, w') => (Ok (len kv), w')
  | (Raise e, w') => (Raise e, w')
  end.
Proof.
  unfold set_property. rewrite run_bind.
  destruct (for_each kv set_property_arg w) as [[[]|e] w']; reflexivity.
Qed.

(** X4.  [set_property] does not roll back: at the first argument that is
    not a dictionary it raises [TypeError], the arguments before it have
    taken effect as in a call with them alone, and those after it are not
    looked at. *)
Theorem set_property_stops_at_non_dict w kv s rest n :
  eval (set_property kv) w = Ok n ->
  set_property (kv ++ Str s :: rest) w =
  (Raise TypeError, exec (set_property kv) w).
Proof.
  unfold eval, exec. rewrite !run_set_property_loop, for_each_app, run_bind.
  destruct (for_each kv set_property_arg w) as [[[]|e] w1]; [|discriminate].
  intros _. reflexivity.
Qed.

Lemma set_property_stops_at_non_dict_witness :
  eval (set_property [Dict 1]) (loaded_with [[("foo", "baz")]; [("new", "1")]]) = Ok 1 /\
  set_property [Dict 1; Str "x"; Dict 2]
               (loaded_with [[("foo", "baz")]; [("new", "1")]]) =
  (Raise TypeError,
   exec (set_property [Dict 1]) (loaded_with [[("foo", "baz")]; [("new", "1")]])).
Proof.
  assert (H : eval (set_property [Dict 1])
                (loaded_with [[("foo", "baz")]; [("new", "1")]]) = Ok 1)
    by (vm_compute; reflexivity).
  split; [exact H|].
  apply (set_property_stops_at_non_dict _ [Dict 1] "x" [Dict 2] 1 H).
Defined.

(** X5.  The empty dictionary as an argument of [set_property]: when some
    entry is a dictionary, [list(arg)[0]] raises [IndexError] and nothing
    has changed; when every entry is a comment, or there is none, the empty
    dictionary is appended as an entry and the call returns [1]. *)
Theorem set_property_empty_dict w a :
  wf w -> heap w !! a = Some [] ->
  (Exists is_Dict (properties (self w)) ->
   set_property [Dict a] w = (Raise IndexError, w)) /\
  (Forall is_Str (properties (self w)) ->
   set_property [Dict a] w = (Ok 1, stored 0 (Dict a) w)).
Proof. apply run_set_property_empty. Qed.

(** On the loaded file, which has an entry for [foo], and on an instance
    with one comment and no other entry. *)
Lemma set_property_empty_dict_witness :
  wf (loaded_with [[]]) /\ heap (loaded_with [[]]) !! 1%nat = Some [] /\
  Exists is_Dict (properties (self (loaded_with [[]]))) /\
  set_property [Dict 1] (loaded_with [[]]) = (Raise IndexError, loaded_with [[]]) /\
  wf (mkWorld (mkProperties "f" [1] [Str "note"]) [[]] ∅) /\
  Forall is_Str [Str "note"] /\
  set_property [Dict 0] (mkWorld (mkProperties "f" [1] [Str "note"]) [[]] ∅) =
  (Ok 1, mkWorld (mkProperties "f" [1; 0] [Str "note"; Dict 0]) [[]] ∅).
Proof.
  assert (Hwf : wf (loaded_with [[]])) by (vm_compute; repeat constructor).
  assert (He : Exists is_Dict (properties (self (loaded_with [[]]))))
    by (vm_compute; right; left; exact I).
  assert (Hwf2 : wf (mkWorld (mkProperties "f" [1] [Str "note"]) [[]] ∅))
    by (split; repeat constructor).
  assert (Hs : Forall is_Str [Str "note"]) by (repeat constructor).
  split; [exact Hwf|]. split; [reflexivity|]. split; [exact He|].
  split; [apply (set_property_empty_dict _ 1 Hwf eq_refl), He|].
  split; [exact Hwf2|]. split; [exact Hs|].
  apply (set_property_empty_dict _ 0 Hwf2 eq_refl), Hs.
Defined.

(** *** [set_property], then [get_property] *)

Lemma holds_key_same_keys w w' k j :
  properties (self w') = properties (self w) ->
  (forall l, PyDict.keys <$> heap w' !! l = PyDict.keys <$> heap w !! l) ->
  holds_key w' k j <-> holds_key w k j.
Proof.
  intros Hp Hh. unfold holds_key. rewrite Hp.
  destruct (properties (self w) !! j) as [[s|l]|]; try reflexivity.
  generalize (Hh l). clear Hh.
  destruct (heap w' !! l) as [d'|], (heap w !! l) as [d|];
    cbn; intros Hh; try discriminate; [|reflexivity].
  assert (Hk : PyDict.keys d' = PyDict.keys d) by congruence.
  rewrite Hk. reflexivity.
Qed.

Lemma keys_insert_set (h : list dict) (l : nat) k v d :
  h !! l = Some d -> k ∈ PyDict.keys d ->
  forall l', PyDict.keys <$> <[l := PyDict.set k v d]> h !! l' = PyDict.keys <$> h !! l'.
Proof.
  intros Hd Hin l'. rewrite list_lookup_insert. case_decide as Hl; [|reflexivity].
  destruct Hl as [<- _]. rewrite Hd. simpl. f_equal. apply keys_set_in, Hin.
Qed.

Lemma holds_key_stored_old w c x k j :
  (j < length (properties (self w)))%nat ->
  holds_key (stored c x w) k j <-> holds_key w k j.
Proof. intros Hj. unfold holds_key. simpl. rewrite lookup_app_l by lia. reflexivity. Qed.

Lemma holds_key_stored_new w c a d k :
  heap w !! a = Some d ->
  holds_key (stored c (Dict a) w) k (length (properties (self w))) <->
  k ∈ PyDict.keys d.
Proof.
  intros Ha. unfold holds_key. simpl.
  rewrite list_lookup_middle by reflexivity. rewrite Ha. reflexivity.
Qed.

Lemma wf_stored_Dict w a :
  wf w -> (a < length (heap w))%nat -> wf (stored 0 (Dict a) w).
Proof.
  intros [P V] Ha. split; simpl.
  - unfold parallel in *. simpl. rewrite P, map_app. reflexivity.
  - apply Forall_app. split; [exact V | repeat constructor; exact Ha].
Qed.

Lemma wf_updated w l d :
  wf w -> wf (mkWorld (self w) (<[l := d]> (heap w)) (fs w)).
Proof.
  intros [P V]. split; simpl; [exact P|].
  eapply valid_refs_mono; [|exact V]. rewrite length_insert. lia.
Qed.

(** What a call with one pair leaves: a well-formed world where the first
    entry with the key maps it to the value, and where the dictionaries
    that were this pair still are. *)
Lemma set_single_first w a k v :
  wf w -> heap w !! a = Some [(k, v)] ->
  exists w', set_property_arg (Dict a) w = (Ok (), w') /\ wf w' /\
    (forall b, heap w !! b = Some [(k, v)] -> heap w' !! b = Some [(k, v)]) /\
    exists i l d, first_holder w' k i /\
      properties (self w') !! i = Some (Dict l) /\
      heap w' !! l = Some d /\ PyDict.get k d = Some v /\
      PyDict.set k v d = d.
Proof.
  intros Hwf Ha.
  destruct (set_property_arg_cases w a [(k, v)] k [] Hwf Ha eq_refl)
    as [(i & l & d & [Hi Hb] & Hx & Hd & Hin & Hrun)|[Hno Hrun]].
  - eexists. split; [exact Hrun|]. split; [apply wf_updated, Hwf|].
    change (PyDict.update d [(k, v)]) with (PyDict.set k v d). simpl.
    assert (Hl : (l < length (heap w))%nat) by apply (lookup_lt_Some _ _ _ Hd).
    split.
    { intros b Hb'. destruct (decide (l = b)) as [->|Hne].
      - rewrite list_lookup_insert_eq by exact Hl.
        assert (Hdd : Some d = Some [(k, v)]) by (rewrite <- Hd; exact Hb').
        injection Hdd as ->.
        simpl. rewrite String.eqb_refl. reflexivity.
      - rewrite list_lookup_insert_ne by exact Hne. exact Hb'. }
    exists i, l, (PyDict.set k v d). split; [|split; [exact Hx|split; [|split]]].
    + split.
      * apply (holds_key_same_keys w); [reflexivity | apply keys_insert_set; assumption | exact Hi].
      * eapply Forall_impl; [exact Hb|]. intros j Hj Hj'. apply Hj.
        apply (holds_key_same_keys w) in Hj'; [exact Hj' | reflexivity |].
        apply keys_insert_set; assumption.
    + apply list_lookup_insert_eq, Hl.
    + rewrite get_set, String.eqb_refl. reflexivity.
    + clear -Hin. induction d as [|[k1 v1] d IH]; [inversion Hin|].
      simpl. destruct (String.eqb_spec k k1) as [->|Hne]; simpl.
      * rewrite String.eqb_refl. reflexivity.
      * destruct (String.eqb_spec k k1); [congruence|]. f_equal. apply IH.
        inversion Hin; subst; [congruence | assumption].
  - eexists. split; [exact Hrun|].
    assert (Hlt : (a < length (heap w))%nat) by apply (lookup_lt_Some _ _ _ Ha).
    split; [apply wf_stored_Dict; assumption|]. split; [intros b Hb'; exact Hb'|].
    exists (length (properties (self w))), a, [(k, v)].
    split; [|split; [|split; [exact Ha|split]]].
    + split.
      * apply (holds_key_stored_new w 0 a _ k Ha). left.
      * unfold no_holder in Hno. rewrite Forall_seq in Hno |- *.
        intros j Hj Hj'. apply (Hno j Hj).
        apply (holds_key_stored_old w 0 (Dict a) k j); [lia | exact Hj'].
    + simpl. apply list_lookup_middle. reflexivity.
    + simpl. rewrite String.eqb_refl. reflexivity.
    + simpl. rewrite String.eqb_refl. reflexivity.
Qed.

(** X6.  After [set_property] with the pair [k: v], [get_property] of [k]
    returns [v], also when several entries have the key: the one is
    changed that the other reads. *)
Theorem get_property_after_set_property w a k v :
  wf w -> heap w !! a = Some [(k, v)] ->
  eval (get_property k) (exec (set_property [Dict a]) w) = Ok v.
Proof.
  intros Hwf Ha. unfold eval, exec. rewrite run_set_property_single.
  destruct (set_single_first w a k v Hwf Ha)
    as (w' & -> & Hwf' & _ & i & l & d & Hi & Hx & Hd & Hv & _).
  simpl. rewrite (get_property_found w' k i l d v Hwf' Hi Hx Hd Hv). reflexivity.
Qed.

Lemma get_property_after_set_property_witness :
  wf (exec (set_property [Dict 2]) (loaded_with [[("foo", "baz")]; [("new", "1")]])) /\
  eval (get_property "foo")
       (exec (set_property [Dict 1])
          (exec (set_property [Dict 2])
             (loaded_with [[("foo", "baz")]; [("new", "1")]]))) = Ok "baz".
Proof.
  assert (Hwf : wf (exec (set_property [Dict 2])
                      (loaded_with [[("foo", "baz")]; [("new", "1")]])))
    by (vm_compute; repeat constructor).
  split; [exact Hwf|].
  apply (get_property_after_set_property _ 1 "foo" "baz" Hwf eq_refl).
Defined.

(** X7.  [set_property] is idempotent: a second pair equal to the first,
    in the same dictionary or in another, changes nothing more; the call
    with both leaves what the call with one leaves, and returns [2]. *)
Theorem set_property_twice w a a' k v :
  wf w -> heap w !! a = Some [(k, v)] -> heap w !! a' = Some [(k, v)] ->
  set_property [Dict a; Dict a'] w = (Ok 2, exec (set_property [Dict a]) w).
Proof.
  intros Hwf Ha Ha'. unfold exec.
  rewrite run_set_property_single, run_set_property_loop.
  destruct (set_single_first w a k v Hwf Ha)
    as (w' & Hrun & Hwf' & Hsame & i & l & d & Hi & Hx & Hd & _ & Hset).
  assert (Hrun' : set_property_arg (Dict a') w' = (Ok (), w')).
  { rewrite (set_property_arg_found w' a' [(k, v)] k [] i l d
               Hwf' (Hsame _ Ha') eq_refl Hi Hx Hd).
    change (PyDict.update d [(k, v)]) with (PyDict.set k v d).
    rewrite Hset, (list_insert_id _ _ _ Hd). destruct w'. reflexivity. }
  cbn [for_each].
  rewrite (run_bind_ok _ _ _ _ _ Hrun), (run_bind_ok _ _ _ _ _ Hrun'), Hrun.
  reflexivity.
Qed.

Lemma set_property_twice_witness :
  wf (loaded_with [[("new", "1")]; [("new", "1")]]) /\
  set_property [Dict 1; Dict 2] (loaded_with [[("new", "1")]; [("new", "1")]]) =
  (Ok 2, exec (set_property [Dict 1]) (loaded_with [[("new", "1")]; [("new", "1")]])) /\
  set_property [Dict 1; Dict 1] (loaded_with [[("new", "1")]; [("new", "1")]]) =
  (Ok 2, exec (set_property [Dict 1]) (loaded_with [[("new", "1")]; [("new", "1")]])).
Proof.
  assert (Hwf : wf (loaded_with [[("new", "1")]; [("new", "1")]]))
    by (vm_compute; repeat constructor).
  split; [exact Hwf|]. split.
  - apply (set_property_twice _ 1 2 "new" "1" Hwf eq_refl eq_refl).
  - apply (set_property_twice _ 1 1 "new" "1" Hwf eq_refl eq_refl).
Defined.

Lemma first_holder_same_keys w w' k i :
  properties (self w') = properties (self w) ->
  (forall l, PyDict.keys <$> heap w' !! l = PyDict.keys <$> heap w !! l) ->
  first_holder w k i -> first_holder w' k i.
Proof.
  intros Hp Hh [Hi Hb]. split.
  - apply (holds_key_same_keys w w' k i Hp Hh), Hi.
  - eapply Forall_impl; [exact Hb|]. intros j Hj Hj'.
    apply Hj, (holds_key_same_keys w w' k j Hp Hh), Hj'.
Qed.

Lemma no_holder_same_keys w w' k :
  properties (self w') = properties (self w) ->
  (forall l, PyDict.keys <$> heap w' !! l = PyDict.keys <$> heap w !! l) ->
  no_holder w k -> no_holder w' k.
Proof.
  intros Hp Hh Hno. unfold no_holder in *. rewrite Hp.
  eapply Forall_impl; [exact Hno|]. intros j Hj Hj'.
  apply Hj, (holds_key_same_keys w w' k j Hp Hh), Hj'.
Qed.

Lemma first_holder_stored w c x k i :
  first_holder w k i -> first_holder (stored c x w) k i.
Proof.
  intros [Hi Hb]. pose proof (holds_key_lt _ _ _ Hi) as Hlt.
  rewrite Forall_seq in Hb. split.
  - apply holds_key_stored_old; assumption.
  - rewrite Forall_seq. intros j Hj Hj'. apply (Hb j Hj).
    apply (holds_key_stored_old w c x k j); [lia | exact Hj'].
Qed.

(** X8.  [set_property] with the pair [k: v] does not change what
    [get_property] returns or raises for any other key. *)
Theorem set_property_other_keys w a k v k' :
  wf w -> heap w !! a = Some [(k, v)] -> k' <> k ->
  eval (get_property k') (exec (set_property [Dict a]) w) =
  eval (get_property k') w.
Proof.
  intros Hwf Ha Hne. unfold eval, exec. rewrite run_set_property_single.
  assert (Hlt : (a < length (heap w))%nat) by apply (lookup_lt_Some _ _ _ Ha).
  assert (Hkk : String.eqb k' k = false) by (apply String.eqb_neq; exact Hne).
  destruct (set_property_arg_cases w a [(k, v)] k [] Hwf Ha eq_refl)
    as [(i0 & l0 & d0 & _ & _ & Hd0 & Hin0 & ->)|[_ ->]]; simpl.
  - change (PyDict.update d0 [(k, v)]) with (PyDict.set k v d0).
    pose proof (keys_insert_set (heap w) l0 k v d0 Hd0 Hin0) as Hkeys.
    set (w' := mkWorld (self w) (<[l0 := PyDict.set k v d0]> (heap w)) (fs w)).
    assert (Hwf' : wf w') by apply wf_updated, Hwf.
    destruct (holder_cases w k') as [[i Hi]|Hno].
    + destruct (holds_key_inv _ _ _ (proj1 Hi)) as (l & d & Hx & Hd & Hin).
      destruct (keys_get_Some _ _ Hin) as [v' Hv'].
      rewrite (get_property_found w k' i l d v' Hwf Hi Hx Hd Hv').
      assert (Hd' : exists d', heap w' !! l = Some d' /\ PyDict.get k' d' = Some v').
      { simpl. destruct (decide (l0 = l)) as [->|Hl].
        - exists (PyDict.set k v d0). split.
          + apply list_lookup_insert_eq, (lookup_lt_Some _ _ _ Hd).
          + rewrite get_set, Hkk.
            assert (Hdd : Some d0 = Some d) by (rewrite <- Hd0; exact Hd).
            injection Hdd as ->. exact Hv'.
        - exists d. rewrite list_lookup_insert_ne by exact Hl. auto. }
      destruct Hd' as (d' & Hd' & Hv'').
      rewrite (get_property_found w' k' i l d' v' Hwf'
                 (first_holder_same_keys w w' k' i eq_refl Hkeys Hi) Hx Hd' Hv'').
      reflexivity.
    + rewrite (get_property_missing w k' Hwf Hno).
      rewrite (get_property_missing w' k' Hwf'
                 (no_holder_same_keys w w' k' eq_refl Hkeys Hno)).
      reflexivity.
  - assert (Hwf' : wf (stored 0 (Dict a) w)) by (apply wf_stored_Dict; assumption).
    destruct (holder_cases w k') as [[i Hi]|Hno].
    + destruct (holds_key_inv _ _ _ (proj1 Hi)) as (l & d & Hx & Hd & Hin).
      destruct (keys_get_Some _ _ Hin) as [v' Hv'].
      rewrite (get_property_found w k' i l d v' Hwf Hi Hx Hd Hv').
      rewrite (get_property_found (stored 0 (Dict a) w) k' i l d v' Hwf'
                 (first_holder_stored w 0 (Dict a) k' i Hi)
                 (lookup_app_l_Some _ _ _ _ Hx) Hd Hv').
      reflexivity.
    + rewrite (get_property_missing w k' Hwf Hno).
      rewrite (get_property_missing (stored 0 (Dict a) w) k' Hwf'); [reflexivity|].
      unfold no_holder in *. simpl. rewrite length_app, Nat.add_1_r, seq_S, Forall_app.
      rewrite Forall_seq in Hno. split.
      * rewrite Forall_seq. intros j Hj Hj'. apply (Hno j Hj).
        apply (holds_key_stored_old w 0 (Dict a) k' j); [lia | exact Hj'].
      * repeat constructor. simpl. intros Hh.
        apply (holds_key_stored_new w 0 a _ k' Ha) in Hh.
        apply list_elem_of_singleton in Hh. exact (Hne Hh).
Qed.

Lemma set_property_other_keys_witness :
  wf (loaded_with [[("new", "1")]]) /\ "foo" <> "new" /\
  eval (get_property "foo") (exec (set_property [Dict 1]) (loaded_with [[("new", "1")]])) =
  eval (get_property "foo") (loaded_with [[("new", "1")]]).
Proof.
  assert (Hwf : wf (loaded_with [[("new", "1")]])) by (vm_compute; repeat constructor).
  assert (Hne : "foo" <> "new") by discriminate.
  split; [exact Hwf|]. split; [exact Hne|].
  apply (set_property_other_keys _ 1 "new" "1" "foo" Hwf eq_refl Hne).
Defined.

(** X9.  [set_property] looks a dictionary up by its first key only.  When
    some entry has that key, the first such entry takes every pair of the
    argument, each one replacing the value of its key or adding the key,
    whatever other entries have; when no entry has it, the argument is
    appended whole as one entry. *)
Theorem set_property_by_first_key w a da k ks :
  wf w -> heap w !! a = Some da -> PyDict.keys da = k :: ks -> unique_keys da ->
  (forall i l d,
     first_holder w k i -> properties (self w) !! i = Some (Dict l) ->
     heap w !! l = Some d ->
     set_property [Dict a] w =
       (Ok 1, mkWorld (self w) (<[l := PyDict.update d da]> (heap w)) (fs w)) /\
     forall k', PyDict.get k' (PyDict.update d da) =
                match PyDict.get k' da with
                | Some v' => Some v'
                | None => PyDict.get k' d
                end) /\
  (no_holder w k -> set_property [Dict a] w = (Ok 1, stored 0 (Dict a) w)).
Proof.
  intros Hwf Ha Hk Hu. split.
  - intros i l d Hi Hx Hd. split.
    + rewrite run_set_property_single.
      rewrite (set_property_arg_found w a da k ks i l d Hwf Ha Hk Hi Hx Hd).
      reflexivity.
    + intros k'. apply get_update, Hu.
  - intros Hno. rewrite run_set_property_single.
    rewrite (set_property_arg_new w a da k ks Hwf Ha Hk Hno). reflexivity.
Qed.

(** The caller passes [foo: baz, new: 1] on the loaded file: the entry of
    [foo] takes both pairs. *)
Lemma set_property_by_first_key_witness :
  wf (loaded_with [[("foo", "baz"); ("new", "1")]]) /\
  unique_keys [("foo", "baz"); ("new", "1")] /\
  first_holder (loaded_with [[("foo", "baz"); ("new", "1")]]) "foo" 1 /\
  set_property [Dict 1] (loaded_with [[("foo", "baz"); ("new", "1")]]) =
  (Ok 1,
   mkWorld (self loaded)
           [[("foo", "baz"); ("new", "1")]; [("foo", "baz"); ("new", "1")]]
           (fs loaded)).
Proof.
  assert (Hwf : wf (loaded_with [[("foo", "baz"); ("new", "1")]]))
    by (vm_compute; repeat constructor).
  assert (Hu : unique_keys [("foo", "baz"); ("new", "1")]).
  { repeat constructor; [|intros H; inversion H].
    intros H. apply list_elem_of_singleton in H. discriminate. }
  assert (Hfirst : first_holder (loaded_with [[("foo", "baz"); ("new", "1")]]) "foo" 1).
  { split; [vm_compute; repeat constructor|].
    repeat constructor. vm_compute. tauto. }
  split; [exact Hwf|]. split; [exact Hu|]. split; [exact Hfirst|].
  destruct (set_property_by_first_key
              (loaded_with [[("foo", "baz"); ("new", "1")]]) 1
              [("foo", "baz"); ("new", "1")] "foo" ["new"] Hwf eq_refl eq_refl Hu)
    as [Hfound _].
  apply (Hfound 1%nat 0%nat [("foo", "bar")] Hfirst eq_refl eq_refl).
Defined.

(** *** [get_property] and [get_all_properties] *)

Lemma last_holder_cases w k : (exists i, last_holder w k i) \/ no_holder w k.
Proof.
  unfold last_holder, no_holder.
  set (n := length (properties (self w))).
  assert (H : forall m, (m <= n)%nat ->
            (exists i, holds_key w k i /\
                       Forall (fun j => ~ holds_key w k j) (seq (S i) (n - S i))) \/
            Forall (fun j => ~ holds_key w k j) (seq (n - m) m)).
  { induction m as [|m IH]; intros Hm; [right; constructor|].
    destruct (IH ltac:(lia)) as [Hl|Hr]; [left; exact Hl|].
    destruct (decide (holds_key w k (n - S m))) as [Hh|Hh].
    - left. exists (n - S m)%nat. split; [exact Hh|].
      replace (S (n - S m)) with (n - m)%nat by lia.
      replace (n - (n - m))%nat with m by lia. exact Hr.
    - right. simpl. constructor; [exact Hh|].
      replace (S (n - S m)) with (n - m)%nat by lia. exact Hr. }
  destruct (H n (le_n n)) as [Hl|Hr]; [left; exact Hl|].
  right. replace (n - n)%nat with 0%nat in Hr by lia. exact Hr.
Qed.

Lemma eval_get_all_item w k :
  wf w ->
  eval (r ← get_all_properties; getitem_of r k) w =
  match PyDict.get k (fold_left PyDict.update (kv_dicts w) []) with
  | Some v => Ok v
  | None => Raise KeyError
  end.
Proof.
  intros Hwf. unfold eval.
  rewrite (run_bind_ok _ _ _ _ _ (run_get_all_properties w Hwf)).
  unfold getitem_of. rewrite run_bind. unfold deref. simpl.
  rewrite list_lookup_middle by reflexivity.
  destruct (PyDict.get k _); reflexivity.
Qed.

(** X10.  [get_property] and [get_all_properties] agree on which keys
    there are: the one raises [IndexError] for a key exactly when the
    dictionary of the other does not have it; and they agree on the value
    of a key that one entry only has. *)
Theorem get_property_agrees_with_get_all w k :
  wf w -> Forall unique_keys (heap w) ->
  (eval (get_property k) w = Raise IndexError <->
   eval (r ← get_all_properties; getitem_of r k) w = Raise KeyError) /\
  (forall i, first_holder w k i -> last_holder w k i ->
     eval (get_property k) w =
     eval (r ← get_all_properties; getitem_of r k) w).
Proof.
  intros Hwf Hu. rewrite (eval_get_all_item w k Hwf). split.
  - destruct (holder_cases w k) as [[i Hi]|Hno].
    + destruct (holds_key_inv _ _ _ (proj1 Hi)) as (l & d & Hx & Hd & Hin).
      destruct (keys_get_Some _ _ Hin) as [v Hv].
      unfold eval. rewrite (get_property_found w k i l d v Hwf Hi Hx Hd Hv). simpl.
      destruct (last_holder_cases w k) as [[j Hj]|Hno].
      * destruct (holds_key_inv _ _ _ (proj1 Hj)) as (l' & d' & Hx' & Hd' & Hin').
        destruct (keys_get_Some _ _ Hin') as [v' Hv'].
        rewrite (get_all_last w k j l' d' Hu Hj Hx' Hd'), Hv'.
        split; discriminate.
      * rewrite no_holder_spec in Hno. destruct (Hno i (proj1 Hi)).
    + unfold eval. rewrite (get_property_missing w k Hwf Hno). simpl.
      rewrite (get_all_none w k Hu Hno). split; reflexivity.
  - intros i Hfirst Hlast.
    destruct (holds_key_inv _ _ _ (proj1 Hfirst)) as (l & d & Hx & Hd & Hin).
    destruct (keys_get_Some _ _ Hin) as [v Hv].
    unfold eval. rewrite (get_property_found w k i l d v Hwf Hfirst Hx Hd Hv).
    rewrite (get_all_last w k i l d Hu Hlast Hx Hd), Hv. reflexivity.
Qed.

Lemma get_property_agrees_with_get_all_witness :
  wf loaded /\ Forall unique_keys (heap loaded) /\
  first_holder loaded "foo" 1 /\ last_holder loaded "foo" 1 /\
  eval (get_property "foo") loaded =
  eval (r ← get_all_properties; getitem_of r "foo") loaded.
Proof.
  assert (Hwf : wf loaded) by (vm_compute; repeat constructor).
  assert (Hu : Forall unique_keys (heap loaded)).
  { repeat constructor; intros H; inversion H. }
  assert (Hfirst : first_holder loaded "foo" 1).
  { split; [vm_compute; repeat constructor|].
    repeat constructor. vm_compute. tauto. }
  assert (Hlast : last_holder loaded "foo" 1).
  { split; [vm_compute; repeat constructor | constructor]. }
  split; [exact Hwf|]. split; [exact Hu|]. split; [exact Hfirst|].
  split; [exact Hlast|].
  destruct (get_property_agrees_with_get_all loaded "foo" Hwf Hu) as [_ Hsame].
  apply (Hsame 1%nat Hfirst Hlast).
Defined.

(** *** What [fread] reads *)

Lemma find_from_absent c s i : occurs c s = false -> PyStr.find_from c s i = -1.
Proof.
  revert i. induction s as [|a s IH]; intros i; simpl; [reflexivity|].
  destruct (Ascii.eqb a c); [discriminate|]. intros H. apply IH, H.
Qed.

Lemma find_occurs c s : PyStr.find c s > 0 -> occurs c s = true.
Proof.
  intros H. destruct (occurs c s) eqn:Ho; [reflexivity|].
  unfold PyStr.find in H. rewrite (find_from_absent _ _ _ Ho) in H. lia.
Qed.

Lemma occurs_replace c c' s :
  Ascii.eqb c' c = false -> occurs c (PyStr.replace c' "" s) = occurs c s.
Proof.
  intros Hc. induction s as [|a s IH]; [reflexivity|]. simpl.
  destruct (Ascii.eqb a c') eqn:Ha.
  - apply Ascii.eqb_eq in Ha as ->. rewrite Hc. exact IH.
  - simpl. rewrite IH. reflexivity.
Qed.

Lemma split_occurs c s :
  occurs c s = true -> exists a b rest, PyStr.split c s = a :: b :: rest.
Proof.
  induction s as [|x s IH]; simpl; [discriminate|].
  destruct (Ascii.eqb x c).
  - intros _. destruct (split_head c s) as [rest ->]. eauto.
  - intros H. destruct (IH H) as (a & b & rest & ->). eauto.
Qed.

(** Every line is read as a comment, as a pair or as nothing, in every
    world the same, and reading it does not raise. *)
Lemma fread_line_reads line :
  exists r, forall w, fread_line line w = (Ok (), put r w).
Proof.
  unfold fread_line. destruct (PyStr.find PyStr.hash line =? 0).
  - exists (AsComment (PyStr.replace PyStr.LF "" (PyStr.replace PyStr.hash "" line))).
    reflexivity.
  - destruct (PyStr.find PyStr.equals line >? 0) eqn:Hf.
    + apply Z.gtb_lt, Z.lt_gt, find_occurs in Hf.
      rewrite <- (occurs_replace PyStr.equals PyStr.LF line eq_refl) in Hf.
      destruct (split_occurs _ _ Hf) as (a & b & rest & ->).
      exists (AsPair a b). reflexivity.
    + exists Dropped. reflexivity.
Qed.

Lemma put_Forall2 ls :
  exists rs, forall w,
    for_each ls fread_line w = (Ok (), fold_left (fun w r => put r w) rs w).
Proof.
  induction ls as [|line ls [rs IH]].
  - exists []. reflexivity.
  - destruct (fread_line_reads line) as [r Hr]. exists (r :: rs). intros w.
    simpl. rewrite (run_bind_ok _ _ _ _ _ (Hr w)). apply IH.
Qed.

Lemma entry_of_app h d x :
  valid_ref h x -> entry_of (h ++ [d]) x = entry_of h x.
Proof.
  destruct x as [s|l]; simpl; [reflexivity|]. intros Hl.
  rewrite lookup_app_l by exact Hl. reflexivity.
Qed.

Lemma entries_put r w :
  Forall (valid_ref (heap w)) (properties (self w)) ->
  entries (put r w) = (entries w ++ shown r)%list /\
  Forall (valid_ref (heap (put r w))) (properties (self (put r w))).
Proof.
  intros V. destruct r as [t|k v|]; unfold entries; simpl.
  - rewrite map_app. split; [reflexivity|].
    apply Forall_app. split; [exact V | repeat constructor].
  - rewrite map_app. simpl. rewrite list_lookup_middle by reflexivity. split.
    + f_equal. apply map_ext_in. intros x Hx. apply entry_of_app.
      rewrite Forall_forall in V. apply V, list_elem_of_In, Hx.
    + apply Forall_app. split.
      * eapply valid_refs_mono; [|exact V]. rewrite length_app. lia.
      * repeat constructor. simpl. rewrite length_app. simpl. lia.
  - rewrite app_nil_r. auto.
Qed.

Lemma entries_puts rs w :
  Forall (valid_ref (heap w)) (properties (self w)) ->
  entries (fold_left (fun w r => put r w) rs w) =
  (entries w ++ concat (map shown rs))%list.
Proof.
  revert w. induction rs as [|r rs IH]; intros w V; simpl.
  - rewrite app_nil_r. reflexivity.
  - destruct (entries_put r w V) as [He V']. rewrite (IH _ V'), He.
    rewrite <- app_assoc. reflexivity.
Qed.

Lemma put_keeps r w :
  fileName (self (put r w)) = fileName (self w) /\ fs (put r w) = fs w.
Proof. destruct r; split; reflexivity. Qed.

Lemma puts_keep rs w :
  fileName (self (fold_left (fun w r => put r w) rs w)) = fileName (self w) /\
  fs (fold_left (fun w r => put r w) rs w) = fs w.
Proof.
  revert w. induction rs as [|r rs IH]; intros w; simpl; [auto|].
  destruct (IH (put r w)) as [-> ->]. apply put_keeps.
Qed.

(** Reading a text into an instance adds the entries that a new instance
    would have from it, after those that are there. *)
Lemma run_fread_lines text w :
  Forall (valid_ref (heap w)) (properties (self w)) ->
  exists w', for_each (PyStr.lines text) fread_line w = (Ok (), w') /\
             entries w' = (entries w ++ read_text text)%list /\
             fileName (self w') = fileName (self w) /\ fs w' = fs w.
Proof.
  intros V. destruct (put_Forall2 (PyStr.lines text)) as [rs Hrs].
  exists (fold_left (fun w r => put r w) rs w). split; [apply Hrs|].
  split; [|apply puts_keep].
  unfold read_text, exec. rewrite Hrs. simpl.
  rewrite (entries_puts rs w V), (entries_puts rs (empty_world ∅)); [|constructor].
  reflexivity.
Qed.

Lemma run_open_read f text w :
  f <> "" -> fs w !! f = Some text ->
  open_read f w = (Ok (PyStr.universal_newlines text), w).
Proof.
  intros Hf Ht. unfold open_read. apply String.eqb_neq in Hf. rewrite Hf, Ht. reflexivity.
Qed.


Lemma run_fread f w :
  fread f w =
  (text ← open_read (path_of f w);
   for_each (PyStr.lines text) fread_line;;
   s ← get_self; mret (properties s)) w.
Proof. reflexivity. Qed.



Lemma exec_init file_name w :
  exec (__init__ file_name) w =
  exec (fread "") (mkWorld (mkProperties file_name [] []) (heap w) (fs w)).
Proof.
  unfold exec, __init__. rewrite run_bind. cbv beta iota. rewrite run_bind.
  destruct (fread "" _) as [[x|e] w2]; reflexivity.
Qed.

(** X12.  [fread] appends: the entries that were there stay, and after
    them come the entries that a new instance has from the text of the
    file.  So the constructor gives the entries of the file, and a second
    [fread] of the same file gives each of them twice. *)
Theorem fread_appends w file_name text :
  wf w -> path_of file_name w <> "" ->
  fs w !! path_of file_name w = Some text ->
  entries (exec (fread file_name) w) =
    (entries w ++ read_text (PyStr.universal_newlines text))%list /\
  (file_name <> "" ->
   entries (exec (__init__ file_name) w) =
     read_text (PyStr.universal_newlines text) /\
   entries (exec (fread "") (exec (__init__ file_name) w)) =
     (read_text (PyStr.universal_newlines text) ++
      read_text (PyStr.universal_newlines text))%list).
Proof.
  assert (Hrun : forall w0 f,
            Forall (valid_ref (heap w0)) (properties (self w0)) ->
            path_of f w0 <> "" -> fs w0 !! path_of f w0 = Some text ->
            entries (exec (fread f) w0) =
              (entries w0 ++ read_text (PyStr.universal_newlines text))%list /\
            Forall (valid_ref (heap (exec (fread f) w0)))
                   (properties (self (exec (fread f) w0))) /\
            fileName (self (exec (fread f) w0)) = fileName (self w0) /\
            fs (exec (fread f) w0) = fs w0).
  { intros w0 f V Hp Ht. unfold exec. rewrite run_fread.
    rewrite (run_bind_ok _ _ _ _ _ (run_open_read _ _ _ Hp Ht)).
    destruct (put_Forall2 (PyStr.lines (PyStr.universal_newlines text))) as [rs Hrs].
    rewrite (run_bind_ok _ _ _ _ _ (Hrs w0)). simpl.
    split; [|split; [|apply puts_keep]].
    - unfold read_text, exec. rewrite Hrs. simpl.
      rewrite (entries_puts rs w0 V), (entries_puts rs (empty_world ∅)); [|constructor].
      reflexivity.
    - clear -V. revert w0 V. induction rs as [|r rs IH]; intros w0 V; [exact V|].
      simpl. apply IH, (entries_put r w0 V). }
  intros [_ V] Hp Ht. split; [apply (Hrun w file_name V Hp Ht)|].
  intros Hf. rewrite exec_init.
  set (w1 := mkWorld (mkProperties file_name [] []) (heap w) (fs w)).
  assert (Hp1 : path_of "" w1 = file_name) by reflexivity.
  assert (Ht1 : fs w1 !! path_of "" w1 = Some text).
  { rewrite Hp1. unfold path_of in Ht. apply String.eqb_neq in Hf.
    rewrite Hf in Ht. exact Ht. }
  destruct (Hrun w1 "" ltac:(constructor) ltac:(rewrite Hp1; exact Hf) Ht1)
    as (He & V1 & Hn & Hfs).
  split; [exact He|].
  set (w2 := exec (fread "") w1) in *.
  assert (Hp2 : path_of "" w2 = file_name) by (unfold path_of; simpl; rewrite Hn; reflexivity).
  destruct (Hrun w2 "" V1 ltac:(rewrite Hp2; exact Hf)
              ltac:(rewrite Hp2, Hfs, <- Hp1; exact Ht1)) as (He2 & _).
  rewrite He2, He. reflexivity.
Qed.

Lemma fread_appends_witness :
  wf loaded /\ path_of "" loaded <> "" /\
  fs loaded !! path_of "" loaded = Some sample_text /\
  entries (exec (fread "") loaded) =
  [Some (Comment " hello"); Some (KeyValue [("foo", "bar")]);
   Some (Comment " hello"); Some (KeyValue [("foo", "bar")])].
Proof.
  assert (Hwf : wf loaded) by (vm_compute; repeat constructor).
  assert (Hp : path_of "" loaded <> "") by (vm_compute; discriminate).
  assert (Ht : fs loaded !! path_of "" loaded = Some sample_text)
    by (vm_compute; reflexivity).
  split; [exact Hwf|]. split; [exact Hp|]. split; [exact Ht|].
  destruct (fread_appends loaded "" sample_text Hwf Hp Ht) as [-> _].
  vm_compute. reflexivity.
Defined.

Lemma put_changes r w : r <> Dropped -> put r w <> w.
Proof.
  intros Hr H. apply (f_equal (fun w => length (properties (self w)))) in H.
  destruct r; [| |contradiction]; simpl in H; rewrite length_app in H; simpl in H; lia.
Qed.

Lemma find_from_cons c a s i :
  PyStr.find_from c (String a s) i =
  if Ascii.eqb a c then i else PyStr.find_from c s (i + 1).
Proof. reflexivity. Qed.

Lemma fread_line_reads_dropped line :
  exists r, (forall w, fread_line line w = (Ok (), put r w)) /\
            (r = Dropped <-> no_entry_line line = true).
Proof.
  destruct line as [|a rest]; [exists Dropped; split; [reflexivity | tauto]|].
  unfold fread_line, no_entry_line, PyStr.find. rewrite !find_from_cons.
  destruct (Ascii.eqb a PyStr.hash) eqn:Hh; cbn [negb andb Z.eqb].
  - eexists (AsComment _). split; [intros w; reflexivity | split; discriminate].
  - assert (H0 : (PyStr.find_from PyStr.hash rest (0 + 1) =? 0) = false).
    { destruct (find_from_range PyStr.hash rest (0 + 1)) as [->|H1];
        [reflexivity | apply Z.eqb_neq; lia]. }
    rewrite H0. destruct (Ascii.eqb a PyStr.equals) eqn:He; cbn [orb Z.gtb Z.compare].
    + exists Dropped. split; [reflexivity | tauto].
    + destruct (occurs PyStr.equals rest) eqn:Ho; cbn [negb].
      * pose proof (find_from_occurs PyStr.equals rest (0 + 1) Ho) as Hge.
        assert (Hgt : (PyStr.find_from PyStr.equals rest (0 + 1) >? 0) = true)
          by (apply Z.gtb_lt; lia).
        rewrite Hgt.
        assert (Hocc : occurs PyStr.equals
                  (PyStr.replace PyStr.LF "" (String a rest)) = true).
        { rewrite occurs_replace by reflexivity. simpl. rewrite He. exact Ho. }
        destruct (split_occurs _ _ Hocc) as (k & v & more & Hs).
        exists (AsPair k v). split; [|split; discriminate].
        intros w. rewrite Hs. reflexivity.
      * rewrite (find_from_absent _ _ _ Ho).
        exists Dropped. split; [reflexivity | tauto].
Qed.

(** X13.  How [fread] takes a line: it never raises, and it stores the
    line as a comment, stores it as a pair in a new dictionary, or drops
    it, the same in every state.  It stores a comment exactly when the line
    starts with [#].  It drops the line, and only then leaves the state as
    it was, exactly when the line is empty, starts with [=], or has no [=]
    and does not start with [#]; every other line adds one entry and its
    flag at the end of the two lists. *)
Theorem fread_line_drops line :
  exists r,
    (forall w, fread_line line w = (Ok (), put r w)) /\
    (r = Dropped <-> no_entry_line line = true) /\
    ((exists text, r = AsComment text) <->
     exists rest, line = String PyStr.hash rest) /\
    (forall w, put r w = w <-> r = Dropped) /\
    (forall w,
       r <> Dropped ->
       exists x c,
         properties (self (put r w)) = (properties (self w) ++ [x])%list /\
         _isComment (self (put r w)) = (_isComment (self w) ++ [c])%list /\
         c = flag_of x).
Proof.
  destruct (fread_line_reads_dropped line) as (r & Hr & Hd).
  exists r. split; [exact Hr|]. split; [exact Hd|]. split; [|split].
  - destruct line as [|a rest].
    + assert (r = Dropped) as -> by (apply Hd; reflexivity).
      split; [intros [t Ht]; discriminate | intros [rest Hrest]; discriminate].
    + destruct (Ascii.eqb_spec a PyStr.hash) as [->|Ha].
      * specialize (Hr (empty_world ∅)). unfold fread_line in Hr.
        change (PyStr.find PyStr.hash (String PyStr.hash rest) =? 0) with true in Hr.
        cbv iota in Hr. split; [eauto|]. intros _.
        destruct r as [t|k v|]; [eauto| |]; discriminate.
      * split; [|intros [rest' Hrest]; congruence].
        intros [t ->]. specialize (Hr (empty_world ∅)). unfold fread_line in Hr.
        assert (H0 : (PyStr.find PyStr.hash (String a rest) =? 0) = false).
        { unfold PyStr.find. rewrite find_from_cons.
          destruct (Ascii.eqb_spec a PyStr.hash) as [|_]; [contradiction|].
          destruct (find_from_range PyStr.hash rest (0 + 1)) as [->|H1];
            [reflexivity | apply Z.eqb_neq; lia]. }
        rewrite H0 in Hr.
        destruct (PyStr.find PyStr.equals (String a rest) >? 0).
        -- destruct (PyStr.split PyStr.equals
                       (PyStr.replace PyStr.LF "" (String a rest))) as [|k [|v more]];
             discriminate.
        -- discriminate.
  - intros w. split.
    + intros H. destruct r as [t|k v|]; [| |reflexivity].
      * destruct (put_changes (AsComment t) w); [discriminate | exact H].
      * destruct (put_changes (AsPair k v) w); [discriminate | exact H].
    + intros ->. reflexivity.
  - intros w Hne. destruct r as [t|k v|]; [| |contradiction].
    + exists (Str t), 1. repeat split.
    + exists (Dict (length (heap w))), 0. repeat split.
Qed.

(** *** What [fwrite] writes *)

Lemma popitem_nonempty d : d <> [] -> exists kv rest, PyDict.popitem d = Some (kv, rest).
Proof.
  induction d as [|p d IH]; [congruence|]. intros _.
  destruct d as [|p' d']; [simpl; eauto|].
  destruct (IH ltac:(discriminate)) as (kv & rest & Hp).
  exists kv, (p :: rest).
  change (PyDict.popitem (p :: p' :: d'))
    with (match PyDict.popitem (p' :: d') with
          | Some (last, rest) => Some (last, p :: rest)
          | None => None
          end).
  rewrite Hp. reflexivity.
Qed.

Lemma popped_cons_Str h s ps : popped h (Str s :: ps) = popped h ps.
Proof. reflexivity. Qed.

Lemma popped_cons_Dict (h : list dict) (l : nat) d kv rest ps :
  h !! l = Some d -> PyDict.popitem d = Some (kv, rest) ->
  popped h (Dict l :: ps) = popped (<[l := rest]> h) ps.
Proof. intros Hd Hp. unfold popped. simpl. rewrite Hd, Hp. reflexivity. Qed.

Lemma refs_of_cons_Dict l ps : refs_of (Dict l :: ps) = l :: refs_of ps.
Proof. reflexivity. Qed.

Lemma entry_line_of (h : list dict) (l : nat) d kv rest :
  h !! l = Some d -> PyDict.popitem d = Some (kv, rest) ->
  entry_line (entry_of h (Dict l)) = pair_line kv.
Proof. intros Hd Hp. simpl. rewrite Hd. simpl. rewrite Hp. reflexivity. Qed.

Lemma run_fwrite_entry_Str s hc f buffer (i : nat) t :
  parallel s -> properties s !! i = Some (Str t) ->
  fwrite_entry buffer (Z.of_nat i) (mkWorld s hc f) =
  (Ok (buffer ++ ["# " +:+ t +:+ PyStr.nl])%list, mkWorld s hc f).
Proof.
  intros P Hx.
  assert (Hc : _isComment s !! i = Some 1).
  { rewrite P, list_lookup_fmap, Hx. reflexivity. }
  unfold fwrite_entry. rewrite run_bind, run_get_self. cbn [self].
  rewrite (run_bind_ok _ _ _ _ _ (run_list_getitem _ _ _ _ Hc)). cbn [Z.eqb negb].
  rewrite (run_bind_ok _ _ _ _ _ (run_list_getitem _ _ _ _ Hx)). reflexivity.
Qed.

Lemma run_fwrite_entry_Dict s (hc : list dict) f buffer (i l : nat) d kv rest :
  parallel s -> properties s !! i = Some (Dict l) ->
  hc !! l = Some d -> PyDict.popitem d = Some (kv, rest) ->
  fwrite_entry buffer (Z.of_nat i) (mkWorld s hc f) =
  (Ok (buffer ++ [pair_line kv])%list, mkWorld s (<[l := rest]> hc) f).
Proof.
  intros P Hx Hd Hp.
  assert (Hc : _isComment s !! i = Some 0).
  { rewrite P, list_lookup_fmap, Hx. reflexivity. }
  unfold fwrite_entry. rewrite run_bind, run_get_self. cbn [self].
  rewrite (run_bind_ok _ _ _ _ _ (run_list_getitem _ _ _ _ Hc)). cbn [Z.eqb negb].
  rewrite (run_bind_ok _ _ _ _ _ (run_list_getitem _ _ _ _ Hx)).
  rewrite (run_bind_ok _ _ _ _ _
             (run_popitem_of l d kv rest (mkWorld s hc f) Hd Hp)).
  reflexivity.
Qed.

(** The loop of [fwrite] from the entry [i] on, when the dictionaries of
    the entries still to come are those of the heap [h] it started on. *)
Lemma fwrite_loop s h f :
  parallel s ->
  forall n i buffer (hc : list dict),
    (i + n = length (properties s))%nat ->
    NoDup (refs_of (drop i (properties s))) ->
    Forall (fun l => exists d, h !! l = Some d /\ d <> [] /\ hc !! l = Some d)
           (refs_of (drop i (properties s))) ->
    for_fold (map Z.of_nat (seq i n)) buffer fwrite_entry (mkWorld s hc f) =
    (Ok (buffer ++ map (fun x => entry_line (entry_of h x)) (drop i (properties s)))%list,
     mkWorld s (popped hc (drop i (properties s))) f).
Proof.
  intros P. induction n as [|n IH]; intros i buffer hc Hn Hnd Hall.
  - rewrite drop_ge by lia. simpl. rewrite app_nil_r. reflexivity.
  - destruct (lookup_lt_is_Some_2 (properties s) i ltac:(lia)) as [x Hx].
    rewrite (drop_S _ _ _ Hx) in *. cbn [seq map for_fold]. destruct x as [t|l].
    + rewrite (run_bind_ok _ _ _ _ _ (run_fwrite_entry_Str s hc f buffer i t P Hx)).
      rewrite popped_cons_Str, (IH (S i)); [|lia|exact Hnd|exact Hall].
      simpl. rewrite <- app_assoc. reflexivity.
    + rewrite refs_of_cons_Dict in Hnd, Hall.
      apply NoDup_cons in Hnd as [Hl Hnd]. apply Forall_cons in Hall as [Hd Hall].
      destruct Hd as (d & Hd & Hne & Hdc).
      destruct (popitem_nonempty d Hne) as (kv & rest & Hp).
      rewrite (run_bind_ok _ _ _ _ _
                 (run_fwrite_entry_Dict s hc f buffer i l d kv rest P Hx Hdc Hp)).
      rewrite (popped_cons_Dict hc l d kv rest _ Hdc Hp), (IH (S i)); [|lia|exact Hnd|].
      * cbn [map]. rewrite (entry_line_of h l d kv rest Hd Hp), <- app_assoc.
        reflexivity.
      * rewrite Forall_forall in Hall |- *. intros l' Hl'.
        destruct (Hall l' Hl') as (d' & Hd' & Hne' & Hdc').
        exists d'. split; [exact Hd'|]. split; [exact Hne'|].
        rewrite list_lookup_insert_ne; [exact Hdc'|]. intros ->. exact (Hl Hl').
Qed.

Lemma popped_other (hc : list dict) ps (l : nat) :
  l ∉ refs_of ps -> popped hc ps !! l = hc !! l.
Proof.
  revert hc. induction ps as [|x ps IH]; intros hc Hl; [reflexivity|].
  destruct x as [s|l'].
  - rewrite popped_cons_Str. apply IH, Hl.
  - rewrite refs_of_cons_Dict in Hl. apply not_elem_of_cons in Hl as [Hne Hl].
    unfold popped. simpl. fold (popped (match hc !! l' with
      | Some d => match PyDict.popitem d with
                  | Some (_, rest) => <[l' := rest]> hc
                  | None => hc
                  end
      | None => hc
      end) ps).
    rewrite (IH _ Hl). destruct (hc !! l') as [d|]; [|reflexivity].
    destruct (PyDict.popitem d) as [[kv rest]|]; [|reflexivity].
    apply list_lookup_insert_ne. congruence.
Qed.

(** After the loop, the dictionary of every entry is without its last
    pair. *)
Lemma popped_lookup (hc : list dict) ps (i l : nat) d kv rest :
  NoDup (refs_of ps) -> ps !! i = Some (Dict l) ->
  hc !! l = Some d -> PyDict.popitem d = Some (kv, rest) ->
  popped hc ps !! l = Some rest.
Proof.
  revert hc i. induction ps as [|x ps IH]; intros hc i Hnd Hx Hd Hp; [discriminate|].
  destruct i as [|i]; simpl in Hx.
  - injection Hx as ->. rewrite refs_of_cons_Dict in Hnd.
    apply NoDup_cons in Hnd as [Hl _].
    rewrite (popped_cons_Dict hc l d kv rest ps Hd Hp), (popped_other _ _ _ Hl).
    apply list_lookup_insert_eq, (lookup_lt_Some _ _ _ Hd).
  - destruct x as [s|l'].
    + rewrite popped_cons_Str. apply (IH hc i Hnd Hx Hd Hp).
    + rewrite refs_of_cons_Dict in Hnd. apply NoDup_cons in Hnd as [Hl' Hnd].
      assert (Hne : l' <> l).
      { intros ->. apply Hl'. unfold refs_of. apply list_elem_of_omap.
        exists (Dict l). split; [apply (list_elem_of_lookup_2 _ _ _ Hx) | reflexivity]. }
      unfold popped. simpl. fold (popped (match hc !! l' with
        | Some d => match PyDict.popitem d with
                    | Some (_, rest) => <[l' := rest]> hc
                    | None => hc
                    end
        | None => hc
        end) ps).
      apply (IH _ i Hnd Hx); [|exact Hp].
      destruct (hc !! l') as [d'|]; [|exact Hd].
      destruct (PyDict.popitem d') as [[kv' rest']|]; [|exact Hd].
      rewrite list_lookup_insert_ne by exact Hne. exact Hd.
Qed.

Lemma run_list_getitem_last {A} (l : list A) w :
  l <> [] -> exists x, list_getitem l (-1) w = (Ok x, w).
Proof.
  intros Hl. unfold list_getitem. cbn [Z.ltb Z.compare].
  assert (Hlen : (0 < length l)%nat) by (destruct l; [congruence | simpl; lia]).
  unfold len. destruct (Z.ltb_spec (-1 + Z.of_nat (length l)) 0) as [H|H]; [lia|].
  destruct (lookup_lt_is_Some_2 l (Z.to_nat (-1 + Z.of_nat (length l))) ltac:(lia))
    as [x ->].
  exists x. reflexivity.
Qed.

Lemma run_fwrite w :
  savable w ->
  fwrite w =
    (Ok (),
     mkWorld (self w) (popped (heap w) (properties (self w)))
             (<[fileName (self w) := PyStr.join (map entry_line (entries w))]> (fs w))).
Proof.
  intros ([P V] & Hf & Hne & Hnd & Hall).
  unfold fwrite. rewrite run_bind, run_get_self, range_len.
  destruct w as [s h f]. simpl in *.
  rewrite (run_bind_ok _ _ _ _ _
             (fwrite_loop s h f P _ 0%nat [] h eq_refl Hnd
                ltac:(eapply Forall_impl; [exact Hall|];
                      intros l (d & Hd & Hd'); eauto))).
  rewrite drop_0. simpl app.
  destruct (run_list_getitem_last
              (map (fun x => entry_line (entry_of h x)) (properties s))
              (mkWorld s (popped h (properties s)) f)) as [x Hx].
  { destruct (properties s); [congruence | discriminate]. }
  rewrite (run_bind_ok _ _ _ _ _ Hx), run_bind, run_get_self. cbn [self].
  unfold open_write. apply String.eqb_neq in Hf. rewrite Hf.
  unfold entries. simpl. rewrite map_map. reflexivity.
Qed.

(** X14.  On an instance it can write, [fwrite] returns and puts in the
    file of the instance one line for each entry, in order: [# text] for a
    comment, [key=value] for the last pair of a dictionary.  It leaves the
    lists as they are and takes that pair out of the dictionary of every
    entry. *)
Theorem fwrite_writes_and_pops w :
  savable w ->
  fwrite w =
    (Ok (),
     mkWorld (self w) (popped (heap w) (properties (self w)))
             (<[fileName (self w) := PyStr.join (map entry_line (entries w))]> (fs w))) /\
  (forall i l d kv rest,
     properties (self w) !! i = Some (Dict l) -> heap w !! l = Some d ->
     PyDict.popitem d = Some (kv, rest) ->
     popped (heap w) (properties (self w)) !! l = Some rest).
Proof.
  intros Hw. split; [apply (run_fwrite w Hw)|].
  destruct Hw as (_ & _ & _ & Hnd & _).
  intros i l d kv rest Hx Hd Hp. apply (popped_lookup _ _ i l d kv rest Hnd Hx Hd Hp).
Qed.

Lemma savable_loaded : savable loaded.
Proof.
  split; [vm_compute; repeat constructor|].
  split; [vm_compute; discriminate|]. split; [vm_compute; discriminate|].
  split; [vm_compute; repeat constructor; intros H; inversion H|].
  vm_compute. repeat constructor. eexists. split; [reflexivity | discriminate].
Defined.

Lemma fwrite_writes_and_pops_witness :
  savable loaded /\
  fs (exec fwrite loaded) !! "app.properties" =
    Some ("#  hello" +:+ PyStr.nl +:+ "foo=bar" +:+ PyStr.nl) /\
  heap (exec fwrite loaded) !! 0%nat = Some [].
Proof.
  split; [exact savable_loaded|].
  destruct (fwrite_writes_and_pops loaded savable_loaded) as [Hrun Hpop].
  unfold exec. rewrite Hrun. cbn [snd fs heap]. split.
  - vm_compute. reflexivity.
  - apply (Hpop 1%nat 0%nat [("foo", "bar")] ("foo", "bar") []); reflexivity.
Defined.

Lemma run_fwrite_entry_empty s (hc : list dict) f buffer (i l : nat) :
  parallel s -> properties s !! i = Some (Dict l) -> hc !! l = Some [] ->
  fwrite_entry buffer (Z.of_nat i) (mkWorld s hc f) =
  (Raise KeyError, mkWorld s hc f).
Proof.
  intros P Hx Hd.
  assert (Hc : _isComment s !! i = Some 0).
  { rewrite P, list_lookup_fmap, Hx. reflexivity. }
  unfold fwrite_entry. rewrite run_bind, run_get_self. cbn [self].
  rewrite (run_bind_ok _ _ _ _ _ (run_list_getitem _ _ _ _ Hc)). cbn [Z.eqb negb].
  rewrite (run_bind_ok _ _ _ _ _ (run_list_getitem _ _ _ _ Hx)).
  apply run_bind_raise. unfold popitem_of.
  rewrite (run_bind_ok _ _ _ _ _ (run_deref l [] (mkWorld s hc f) Hd)). reflexivity.
Qed.

(** The loop of [fwrite] stops at an empty dictionary; when only comments
    come before it, nothing was changed. *)
Lemma fwrite_loop_raises s (h : list dict) f l post :
  parallel s -> h !! l = Some [] ->
  forall pre, Forall is_Str pre ->
  forall n i buffer,
    (i + n = length (properties s))%nat ->
    drop i (properties s) = (pre ++ Dict l :: post)%list ->
    for_fold (map Z.of_nat (seq i n)) buffer fwrite_entry (mkWorld s h f) =
    (Raise KeyError, mkWorld s h f).
Proof.
  intros P Hd pre Hpre. induction Hpre as [|x pre Hx _ IH]; intros n i buffer Hn Hdrop.
  - assert (Hi : properties s !! i = Some (Dict l)).
    { rewrite <- (Nat.add_0_r i), <- lookup_drop, Hdrop. reflexivity. }
    destruct n as [|n]; [apply lookup_lt_Some in Hi; lia|].
    cbn [seq map for_fold].
    apply run_bind_raise, (run_fwrite_entry_empty s h f buffer i l P Hi Hd).
  - destruct x as [t|?]; [|contradiction].
    assert (Hi : properties s !! i = Some (Str t)).
    { rewrite <- (Nat.add_0_r i), <- lookup_drop, Hdrop. reflexivity. }
    destruct n as [|n]; [apply lookup_lt_Some in Hi; lia|].
    cbn [seq map for_fold].
    rewrite (run_bind_ok _ _ _ _ _ (run_fwrite_entry_Str s h f buffer i t P Hi)).
    apply IH; [lia|]. rewrite (drop_S _ _ _ Hi) in Hdrop.
    simpl in Hdrop. congruence.
Qed.

Lemma fwrite_first_empty w l pre post :
  parallel (self w) -> properties (self w) = (pre ++ Dict l :: post)%list ->
  Forall is_Str pre -> heap w !! l = Some [] ->
  fwrite w = (Raise KeyError, w).
Proof.
  intros P Hps Hpre Hd. unfold fwrite. rewrite run_bind, run_get_self, range_len.
  destruct w as [s h f]. simpl in *.
  apply run_bind_raise.
  apply (fwrite_loop_raises s h f l post P Hd pre Hpre _ 0%nat []); [reflexivity|].
  rewrite drop_0. exact Hps.
Qed.

(** X15.  An instance is written once: when the first dictionary among the
    entries has one pair, as every dictionary made by [fread] has, a second
    [fwrite] raises [KeyError] and leaves the file as the first wrote
    it. *)
Theorem fwrite_again_raises w l kv pre post :
  savable w ->
  properties (self w) = (pre ++ Dict l :: post)%list -> Forall is_Str pre ->
  heap w !! l = Some [kv] ->
  fwrite (exec fwrite w) = (Raise KeyError, exec fwrite w).
Proof.
  intros Hw Hps Hpre Hd. unfold exec. rewrite (run_fwrite w Hw). cbn [snd].
  destruct Hw as ([P V] & _ & _ & Hnd & _).
  apply (fwrite_first_empty _ l pre post); [exact P | exact Hps | exact Hpre|].
  cbn [heap].
  apply (popped_lookup _ _ (length pre) l [kv] kv []); [exact Hnd| |exact Hd|reflexivity].
  rewrite Hps. apply list_lookup_middle. reflexivity.
Qed.

Lemma fwrite_again_raises_witness :
  savable loaded /\
  properties (self loaded) = ([Str " hello"] ++ Dict 0 :: [])%list /\
  fwrite (exec fwrite loaded) = (Raise KeyError, exec fwrite loaded).
Proof.
  split; [exact savable_loaded|]. split; [reflexivity|].
  apply (fwrite_again_raises loaded 0%nat ("foo", "bar") [Str " hello"] []).
  - exact savable_loaded.
  - reflexivity.
  - repeat constructor.
  - reflexivity.
Defined.

(** *** Loading a file and writing it back *)

Lemma universal_newlines_plain s :
  occurs PyStr.CR s = false -> PyStr.universal_newlines s = s.
Proof.
  induction s as [|a s IH]; [reflexivity|]. cbn [occurs PyStr.universal_newlines].
  destruct (Ascii.eqb a PyStr.CR); [discriminate|]. intros H. rewrite (IH H). reflexivity.
Qed.

Lemma lines_line s rest :
  occurs PyStr.LF s = false ->
  PyStr.lines (s +:+ PyStr.nl +:+ rest) = (s +:+ PyStr.nl) :: PyStr.lines rest.
Proof.
  induction s as [|a s IH].
  - intros _. reflexivity.
  - cbn [occurs]. rewrite !append_cons. cbn [PyStr.lines].
    destruct (Ascii.eqb a PyStr.LF); [discriminate|]. intros H. rewrite (IH H).
    reflexivity.
Qed.

Lemma plain_spec s :
  plain s = true <-> occurs PyStr.LF s = false /\ occurs PyStr.CR s = false.
Proof.
  unfold plain. destruct (occurs PyStr.LF s), (occurs PyStr.CR s); simpl;
    split; try tauto; try discriminate; intros [? ?]; discriminate.
Qed.

Lemma line_text_plain l :
  line_ok l = true -> plain (line_text l) = true.
Proof.
  destruct l as [text|a key value|text]; cbn [line_ok line_text].
  - intros H. apply plain_spec in H as [H1 H2]. apply plain_spec.
    split; cbn [occurs];
      [change (Ascii.eqb PyStr.hash PyStr.LF) with false
      |change (Ascii.eqb PyStr.hash PyStr.CR) with false]; assumption.
  - rewrite !andb_true_iff. intros [[[[_ _] Hk] Hv] _].
    apply plain_spec in Hk as [Hk1 Hk2]. apply plain_spec in Hv as [Hv1 Hv2].
    apply plain_spec. rewrite !occurs_app, Hk1, Hk2. cbn [orb occurs].
    change (Ascii.eqb PyStr.equals PyStr.LF) with false.
    change (Ascii.eqb PyStr.equals PyStr.CR) with false. auto.
  - rewrite andb_true_iff. tauto.
Qed.

Lemma text_of_cons l ls :
  text_of (l :: ls) = line_text l +:+ PyStr.nl +:+ text_of ls.
Proof. unfold text_of. cbn [map PyStr.join fold_right]. apply append_assoc. Qed.

Lemma text_of_no_CR ls :
  Forall (fun l => line_ok l = true) ls -> occurs PyStr.CR (text_of ls) = false.
Proof.
  induction 1 as [|l ls Hl _ IH]; [reflexivity|].
  apply line_text_plain, plain_spec in Hl as [_ Hl].
  rewrite text_of_cons, !occurs_app, Hl, IH. reflexivity.
Qed.

Lemma lines_text_of ls :
  Forall (fun l => line_ok l = true) ls ->
  PyStr.lines (text_of ls) = map (fun l => line_text l +:+ PyStr.nl) ls.
Proof.
  induction 1 as [|l ls Hl _ IH]; [reflexivity|].
  apply line_text_plain, plain_spec in Hl as [Hl _].
  rewrite text_of_cons, (lines_line _ _ Hl), IH. reflexivity.
Qed.

Lemma no_entry_line_end s :
  no_entry_line s = true -> no_entry_line (s +:+ PyStr.nl) = true.
Proof.
  destruct s as [|a s]; [reflexivity|]. rewrite append_cons. cbn [no_entry_line].
  rewrite occurs_app. cbn [occurs].
  change (Ascii.eqb PyStr.LF PyStr.equals) with false.
  rewrite orb_false_r. auto.
Qed.

Lemma fread_line_file_line l w :
  line_ok l = true ->
  fread_line (line_text l +:+ PyStr.nl) w = (Ok (), put (line_reading l) w).
Proof.
  destruct l as [text|a key value|text]; cbn [line_ok line_text line_reading].
  - intros H. apply plain_spec in H as [H _]. rewrite append_cons.
    apply (fread_line_comment text w H).
  - rewrite !andb_true_iff, !negb_true_iff.
    intros [[[[Ha Hk] Hkp] Hvp] Hv].
    apply plain_spec in Hkp as [Hkp _]. apply plain_spec in Hvp as [Hvp _].
    rewrite append_assoc.
    change (String PyStr.equals value +:+ PyStr.nl)
      with (String PyStr.equals (value +:+ PyStr.nl)).
    apply (fread_line_pair_whole a key value w Ha Hk Hkp Hvp Hv).
  - rewrite andb_true_iff. intros [_ H].
    destruct (fread_line_reads_dropped (text +:+ PyStr.nl)) as (r & Hr & Hd).
    rewrite Hr. destruct Hd as [_ Hd]. rewrite (Hd (no_entry_line_end _ H)).
    reflexivity.
Qed.

Lemma for_each_file_lines ls w :
  Forall (fun l => line_ok l = true) ls ->
  for_each (map (fun l => line_text l +:+ PyStr.nl) ls) fread_line w =
  (Ok (), fold_left (fun w r => put r w) (map line_reading ls) w).
Proof.
  intros H. revert w. induction H as [|l ls Hl _ IH]; intros w; [reflexivity|].
  cbn [map for_each fold_left].
  rewrite (run_bind_ok _ _ _ _ _ (fread_line_file_line l w Hl)). apply IH.
Qed.

Lemma refs_of_valid h ps l :
  Forall (valid_ref h) ps -> l ∈ refs_of ps -> (l < length h)%nat.
Proof.
  intros V Hl. unfold refs_of in Hl. apply list_elem_of_omap in Hl as (x & Hx & Hxl).
  rewrite Forall_forall in V. specialize (V x Hx).
  destruct x as [s|l']; [discriminate|]. injection Hxl as <-. exact V.
Qed.

(** What [fread] stores keeps the dictionaries of the entries different
    objects with a pair each. *)
Lemma refs_of_app ps qs : refs_of (ps ++ qs) = (refs_of ps ++ refs_of qs)%list.
Proof. apply omap_app. Qed.

Lemma wf_stored_Str w t : wf w -> wf (stored 1 (Str t) w).
Proof.
  intros [P V]. split; simpl.
  - unfold parallel in *. simpl. rewrite P, map_app. reflexivity.
  - apply Forall_app. split; [exact V | repeat constructor].
Qed.

Lemma put_distinct r w :
  wf w /\ NoDup (refs_of (properties (self w))) /\
  Forall (fun l => exists d, heap w !! l = Some d /\ d <> [])
         (refs_of (properties (self w))) ->
  wf (put r w) /\ NoDup (refs_of (properties (self (put r w)))) /\
  Forall (fun l => exists d, heap (put r w) !! l = Some d /\ d <> [])
         (refs_of (properties (self (put r w)))).
Proof.
  intros (Hwf & Hnd & Hall).
  destruct r as [t|k v|]; [| |exact (conj Hwf (conj Hnd Hall))].
  - split; [apply (wf_stored_Str w t Hwf)|].
    cbn [put stored self heap properties]. rewrite refs_of_app.
    change (refs_of [Str t]) with (@nil nat). rewrite app_nil_r. split; assumption.
  - destruct Hwf as [P V]. split; [|split].
    + apply wf_stored_Dict.
      * split; [exact P|]. cbn [self heap].
        eapply valid_refs_mono; [|exact V]. rewrite length_app. lia.
      * cbn [heap]. rewrite length_app. simpl. lia.
    + cbn [put stored self heap properties]. rewrite refs_of_app.
      change (refs_of [Dict (length (heap w))]) with [length (heap w)].
      apply NoDup_app. split; [exact Hnd|]. split; [|apply NoDup_singleton].
      intros l Hl Hl'. apply list_elem_of_singleton in Hl'. subst l.
      pose proof (refs_of_valid _ _ _ V Hl). lia.
    + cbn [put stored self heap properties]. rewrite refs_of_app.
      change (refs_of [Dict (length (heap w))]) with [length (heap w)].
      apply Forall_app. split.
      * rewrite Forall_forall in Hall |- *. intros l Hl.
        destruct (Hall l Hl) as (d & Hd & Hne). exists d. split; [|exact Hne].
        rewrite lookup_app_l by apply (lookup_lt_Some _ _ _ Hd). exact Hd.
      * repeat constructor. exists [(k, v)]. split; [|discriminate].
        apply list_lookup_middle. reflexivity.
Qed.

Lemma puts_distinct rs w :
  wf w /\ NoDup (refs_of (properties (self w))) /\
  Forall (fun l => exists d, heap w !! l = Some d /\ d <> [])
         (refs_of (properties (self w))) ->
  wf (fold_left (fun w r => put r w) rs w) /\
  NoDup (refs_of (properties (self (fold_left (fun w r => put r w) rs w)))) /\
  Forall (fun l => exists d,
            heap (fold_left (fun w r => put r w) rs w) !! l = Some d /\ d <> [])
         (refs_of (properties (self (fold_left (fun w r => put r w) rs w)))).
Proof.
  revert w. induction rs as [|r rs IH]; intros w H; [exact H|].
  apply IH, put_distinct, H.
Qed.

Lemma join_app b1 b2 : PyStr.join (b1 ++ b2) = PyStr.join b1 +:+ PyStr.join b2.
Proof.
  induction b1 as [|s b1 IH]; [reflexivity|].
  cbn [app]. unfold PyStr.join in *. cbn [fold_right]. rewrite IH.
  symmetry. apply append_assoc.
Qed.

Lemma saved_lines ls :
  PyStr.join (map entry_line (concat (map (fun l => shown (line_reading l)) ls))) =
  PyStr.join (map saved_line ls).
Proof.
  induction ls as [|l ls IH]; [reflexivity|].
  cbn [map concat]. rewrite map_app, join_app, IH.
  change (PyStr.join (saved_line l :: map saved_line ls))
    with (saved_line l +:+ PyStr.join (map saved_line ls)).
  f_equal. destruct l as [text|a key value|text]; cbn [line_reading shown map].
  - unfold PyStr.join. cbn [fold_right entry_line saved_line]. apply append_empty_r.
  - unfold PyStr.join.
    cbn [fold_right entry_line saved_line PyDict.popitem pair_line fst snd line_text].
    rewrite append_empty_r, !append_assoc. reflexivity.
  - reflexivity.
Qed.

Lemma shown_entries ls :
  Exists (fun l => line_reading l <> Dropped) ls ->
  concat (map (fun l => shown (line_reading l)) ls) <> [].
Proof.
  induction 1 as [l ls Hl|l ls _ IH]; cbn [map concat].
  - destruct (line_reading l); [discriminate|discriminate|congruence].
  - intros H. apply app_eq_nil in H as [_ H]. exact (IH H).
Qed.

Lemma saved_pair_lines ls :
  Forall is_PairLine ls -> PyStr.join (map saved_line ls) = text_of ls.
Proof.
  intros H. unfold text_of. f_equal. induction H as [|l ls Hl _ IH]; [reflexivity|].
  cbn [map]. rewrite IH. destruct l; [contradiction|reflexivity|contradiction].
Qed.

(** The world after the constructor, on a file of such lines. *)
Lemma exec_init_lines w0 f ls :
  f <> "" -> fs w0 !! f = Some (text_of ls) ->
  Forall (fun l => line_ok l = true) ls ->
  exec (__init__ f) w0 =
  fold_left (fun w r => put r w) (map line_reading ls)
            (mkWorld (mkProperties f [] []) (heap w0) (fs w0)).
Proof.
  intros Hf Ht Hok. rewrite exec_init. unfold exec. rewrite run_fread.
  change (path_of "" (mkWorld (mkProperties f [] []) (heap w0) (fs w0))) with f.
  rewrite (run_bind_ok _ _ _ _ _
             (run_open_read f (text_of ls)
                (mkWorld (mkProperties f [] []) (heap w0) (fs w0)) Hf Ht)).
  rewrite (universal_newlines_plain _ (text_of_no_CR ls Hok)), (lines_text_of ls Hok).
  rewrite (run_bind_ok _ _ _ _ _ (for_each_file_lines ls _ Hok)). reflexivity.
Qed.

(** X16.  Load and save.  On a file of comment lines, pair lines with one
    [=] and lines that [fread] drops, each ended by a line feed, with at
    least one line that gives an entry: the constructor stores the entries
    of the lines in order, and [fwrite] then returns and writes that file:
    a pair line as it was, a comment as [# ] before its text without any
    [#], a dropped line not at all.  A file of pair lines is written back
    as it was. *)
Theorem load_save_round_trip w0 f ls :
  f <> "" -> fs w0 !! f = Some (text_of ls) ->
  Forall (fun l => line_ok l = true) ls ->
  Exists (fun l => line_reading l <> Dropped) ls ->
  entries (exec (__init__ f) w0) =
    concat (map (fun l => shown (line_reading l)) ls) /\
  eval fwrite (exec (__init__ f) w0) = Ok () /\
  fs (exec fwrite (exec (__init__ f) w0)) =
    <[f := PyStr.join (map saved_line ls)]> (fs w0) /\
  (Forall is_PairLine ls -> fs (exec fwrite (exec (__init__ f) w0)) = fs w0).
Proof.
  intros Hf Ht Hok Hex. rewrite (exec_init_lines w0 f ls Hf Ht Hok).
  set (w1 := mkWorld (mkProperties f [] []) (heap w0) (fs w0)).
  set (w := fold_left (fun w r => put r w) (map line_reading ls) w1).
  assert (H1 : wf w1 /\ NoDup (refs_of (properties (self w1))) /\
               Forall (fun l => exists d, heap w1 !! l = Some d /\ d <> [])
                      (refs_of (properties (self w1)))).
  { repeat split; constructor. }
  assert (He : entries w = concat (map (fun l => shown (line_reading l)) ls)).
  { unfold w. rewrite (entries_puts _ w1 ltac:(constructor)), map_map. reflexivity. }
  destruct (puts_keep (map line_reading ls) w1) as [Hname Hfs]. fold w in Hname, Hfs.
  destruct (puts_distinct (map line_reading ls) w1 H1) as (Hwf & Hnd & Hall).
  fold w in Hwf, Hnd, Hall.
  assert (Hs : savable w).
  { split; [exact Hwf|]. split; [rewrite Hname; exact Hf|].
    split; [|split; [exact Hnd | exact Hall]].
    intros Hnil. apply (shown_entries ls Hex). rewrite <- He. unfold entries.
    rewrite Hnil. reflexivity. }
  assert (Hfiles : fs (exec fwrite w) = <[f := PyStr.join (map saved_line ls)]> (fs w0)).
  { unfold exec. rewrite (run_fwrite w Hs). cbn [snd fs].
    rewrite Hname, Hfs, He, saved_lines. reflexivity. }
  split; [exact He|]. split; [unfold eval; rewrite (run_fwrite w Hs); reflexivity|].
  split; [exact Hfiles|].
  intros Hp. rewrite Hfiles, (saved_pair_lines ls Hp). apply insert_id, Ht.
Qed.

Lemma load_save_round_trip_witness :
  fs (one_file "app.properties" sample_text) !! "app.properties" =
    Some (text_of [CommentLine " hello"; PairLine "f" "oo" "bar"]) /\
  fs (exec fwrite (exec (__init__ "app.properties")
                        (one_file "app.properties" sample_text))) !! "app.properties" =
    Some ("#  hello" +:+ PyStr.nl +:+ "foo=bar" +:+ PyStr.nl).
Proof.
  assert (Ht : fs (one_file "app.properties" sample_text) !! "app.properties" =
               Some (text_of [CommentLine " hello"; PairLine "f" "oo" "bar"]))
    by (vm_compute; reflexivity).
  split; [exact Ht|].
  destruct (load_save_round_trip (one_file "app.properties" sample_text)
              "app.properties" [CommentLine " hello"; PairLine "f" "oo" "bar"])
    as (_ & _ & Hfiles & _).
  - discriminate.
  - exact Ht.
  - repeat constructor.
  - apply Exists_cons_hd. discriminate.
  - rewrite Hfiles. vm_compute. reflexivity.
Defined.

(** *** What the methods leave alone *)

Lemma untouched_refl w : untouched w w.
Proof. reflexivity. Qed.

Lemma untouched_trans w1 w2 w3 : untouched w1 w2 -> untouched w2 w3 -> untouched w1 w3.
Proof. unfold untouched. congruence. Qed.

Lemma extends_refl w : extends w w.
Proof. repeat split; reflexivity. Qed.

Lemma extends_trans w1 w2 w3 : extends w1 w2 -> extends w2 w3 -> extends w1 w3.
Proof.
  intros (F1 & P1 & C1) (F2 & P2 & C2). split; [congruence|].
  split; etrans; eassumption.
Qed.

Create HintDb reads.

Ltac reads_step :=
  first [ exact untouched_refl | exact untouched_trans
        | exact extends_refl | exact extends_trans
        | solve [auto with reads]
        | match goal with |- forall _, _ => intro end
        | apply respects_bind
        | apply respects_ret
        | apply respects_raise
        | apply respects_for_each
        | apply respects_for_until
        | apply respects_for_fold
        | match goal with |- respects _ (if ?b then _ else _) => destruct b end
        | match goal with |- respects _ (match ?x with _ => _ end) => destruct x end ].

Lemma untouched_get_self : respects untouched get_self.
Proof. intros w. reflexivity. Qed.

Lemma untouched_list_getitem {A} (l : list A) i : respects untouched (list_getitem l i).
Proof.
  intros w. unfold list_getitem, exec.
  destruct (_ <? 0); [reflexivity|]. destruct (l !! _); reflexivity.
Qed.

Lemma untouched_deref l : respects untouched (deref l).
Proof. intros w. unfold deref, exec. destruct (heap w !! l); reflexivity. Qed.

#[local] Hint Resolve untouched_get_self untouched_list_getitem untouched_deref : reads.

Lemma untouched_keys_of x : respects untouched (keys_of x).
Proof. unfold keys_of. repeat reads_step. Qed.

Lemma untouched_getitem_of x k : respects untouched (getitem_of x k).
Proof. unfold getitem_of. repeat reads_step. Qed.

#[local] Hint Resolve untouched_keys_of untouched_getitem_of : reads.

Lemma untouched_get_property arg : respects untouched (get_property arg).
Proof. unfold get_property, get_property_entry. repeat reads_step. Qed.

(** X17.  [get_property] only reads: whatever the instance and the heap,
    and whether it returns or raises, it leaves the lists, every
    dictionary and every file as they are. *)
Theorem get_property_reads_only arg w : exec (get_property arg) w = w.
Proof. apply untouched_get_property. Qed.

Lemma quiet_extends w w' : quiet w w' -> extends w w'.
Proof. intros [Hs _]. unfold extends. rewrite Hs. repeat split; reflexivity. Qed.

Lemma respects_quiet_extends {A} (c : M A) : respects quiet c -> respects extends c.
Proof. intros H w. apply quiet_extends, H. Qed.

Lemma extends_properties_append x : respects extends (properties_append x).
Proof.
  intros w. split; [reflexivity|]. split; [|reflexivity].
  apply prefix_app_r. reflexivity.
Qed.

Lemma extends_isComment_append c : respects extends (isComment_append c).
Proof.
  intros w. split; [reflexivity|]. split; [reflexivity|].
  apply prefix_app_r. reflexivity.
Qed.

#[local] Hint Resolve respects_quiet_extends extends_properties_append
  extends_isComment_append quiet_get_self quiet_get_heap quiet_list_getitem
  quiet_deref quiet_assign quiet_alloc quiet_open_read quiet_open_write
  quiet_keys_of quiet_getitem_of quiet_update_of quiet_popitem_of
  quiet_comment_line quiet_set_property_entry : reads.

Lemma extends_fread file_name : respects extends (fread file_name).
Proof. unfold fread, fread_line. repeat reads_step. Qed.

Lemma extends_set_property kv : respects extends (set_property kv).
Proof. unfold set_property, set_property_arg. repeat reads_step. Qed.

(** X18.  After the constructor no method takes an entry away, moves one or
    changes the file name, whether it returns or raises: [fread] and
    [set_property] only add at the end of the two lists, and [fwrite],
    [get_all_properties] and [get_property] leave the lists as they
    are. *)
Theorem methods_only_append w :
  (forall file_name, extends w (exec (fread file_name) w)) /\
  (forall kv, extends w (exec (set_property kv) w)) /\
  self (exec fwrite w) = self w /\
  self (exec get_all_properties w) = self w /\
  (forall arg, self (exec (get_property arg) w) = self w).
Proof.
  split; [intros f; apply extends_fread|].
  split; [intros kv; apply extends_set_property|].
  split; [apply quiet_fwrite|]. split; [apply quiet_get_all_properties|].
  intros arg. apply quiet_get_property.
Qed.

Lemma entries_alloc w d :
  Forall (valid_ref (heap w)) (properties (self w)) ->
  entries (mkWorld (self w) (heap w ++ [d]) (fs w)) = entries w.
Proof.
  intros V. unfold entries. cbn [self heap]. apply map_ext_in. intros x Hx.
  apply entry_of_app. rewrite Forall_forall in V. apply V, list_elem_of_In, Hx.
Qed.

(** X19.  On a well-formed instance [get_all_properties] does not raise,
    and what it returns is a new dictionary: no entry refers to it, every
    object that was there is as it was, and so are the entries, also after
    the caller changes the dictionary it got. *)
Theorem get_all_properties_is_new w :
  wf w ->
  eval get_all_properties w = Ok (Dict (length (heap w))) /\
  (Dict (length (heap w)) ∉ properties (self w)) /\
  (forall l d, heap w !! l = Some d -> heap (exec get_all_properties w) !! l = Some d) /\
  (forall d',
     entries (exec (r ← get_all_properties;
                    match r with Dict l => assign l d' | Str _ => mret () end) w) =
     entries w).
Proof.
  intros Hwf. pose proof (run_get_all_properties w Hwf) as Hrun.
  destruct Hwf as [P V]. unfold eval, exec. rewrite Hrun. cbn [fst snd heap].
  split; [reflexivity|]. split; [|split].
  - intros Hin. rewrite Forall_forall in V. specialize (V _ Hin). simpl in V. lia.
  - intros l d Hd. rewrite lookup_app_l by apply (lookup_lt_Some _ _ _ Hd). exact Hd.
  - intros d'. rewrite (run_bind_ok _ _ _ _ _ Hrun).
    erewrite run_assign by (cbn [heap]; apply list_lookup_middle; reflexivity).
    cbn [snd self heap fs].
    rewrite insert_app_r_alt by reflexivity. rewrite Nat.sub_diag. cbn [list_insert].
    apply (entries_alloc w d' V).
Qed.

Lemma get_all_properties_is_new_witness :
  wf loaded /\
  eval get_all_properties loaded = Ok (Dict 1%nat) /\
  entries (exec (r ← get_all_properties;
                 match r with Dict l => assign l [("foo", "no")] | Str _ => mret () end)
                loaded) = entries loaded.
Proof.
  assert (Hwf : wf loaded) by (vm_compute; repeat constructor).
  destruct (get_all_properties_is_new loaded Hwf) as (Hret & _ & _ & Hsame).
  split; [exact Hwf|]. split; [exact Hret | apply Hsame].
Defined.
